(** * Box16 YM2151 host interface: timing, deferred writes, backbuffer, latch

    A shallow embedding of [src/ym2151/ym2151.cpp]: the class
    [ym2151_interface] (busy/timer countdowns, deferred write queue, sample
    backbuffer, the r8brain render path that the file compiles, i.e. the
    configuration [YM2151_USE_R8BRAIN_RESAMPLING]) and the global [YM_*]
    entry points around it (two-phase port write, register latch, debug
    access, prerender, render, reset).

    The tone engine ([ymfm::ym2151], from [ymfm_opm.h]) is a third-party
    component: it is a parameter of the development, together with the calls
    it makes back into the interface. *)

From Stdlib Require Import ZArith List Bool Lia String.
Import ListNotations.
Local Open Scope Z_scope.

(** ** Fixed-width integers *)

(** [uint8_t], [uint32_t] and [int32_t] values are integers in their range;
    a conversion or an arithmetic result is reduced explicitly. *)
Definition u8 (x : Z) : Z := x mod 256.
Definition u32 (x : Z) : Z := x mod 4294967296.
Definition s32 (x : Z) : Z := (x + 2147483648) mod 4294967296 - 2147483648.

(** ** The tone engine and its callbacks *)

(** The methods of [ymfm::ymfm_interface] that the engine calls and that
    [ym2151_interface] overrides with an effect on its own members. *)
Inductive intf_call : Type :=
| SetTimer (tnum : Z) (duration_in_clocks : Z)
| SetBusyEnd (clocks : Z)
| UpdateIrq (asserted : bool).

(** [ymfm::ym2151::output_data]: one native-rate stereo sample. *)
Definition output_data : Type := (Z * Z)%type.

(** The tone engine [m_chip] (with [m_engine], its own register storage and
    [sample_rate(YM_CLOCK_RATE)]).  Each operation returns the new engine
    state and the interface methods it called meanwhile, in call order. *)
Class ToneEngine : Type := {
  chip : Type;
  chip_sample_rate : Z;
  chip_write_address : Z -> chip -> chip * list intf_call;
  chip_write_data : Z -> bool -> chip -> chip * list intf_call;
  chip_generate : Z -> chip -> chip * list output_data * list intf_call;
  chip_reset : chip -> chip * list intf_call;
  engine_timer_expired : Z -> chip -> chip * list intf_call;
  chip_get_register_data : chip -> Z -> Z
}.

(** What the interface does to the outside, in program order: the calls into
    the engine and the diagnostics it prints. *)
Inductive event : Type :=
| EvWriteAddress (addr : Z)
| EvWriteData (value : Z) (debug : bool)
| EvGenerate (numsamples : Z)
| EvTimerExpired (tnum : Z)
| EvReset
| EvPrintf (format : string) (args : list Z).

Definition is_timer_expired (i : Z) (e : event) : bool :=
  match e with EvTimerExpired j => j =? i | _ => false end.

Definition is_engine_call (e : event) : bool :=
  match e with EvPrintf _ _ => false | _ => true end.

(** The calls into the engine, without the diagnostics. *)
Definition engine_calls (tr : list event) : list event := filter is_engine_call tr.

Definition is_production_call (e : event) : bool :=
  match e with
  | EvWriteAddress _ | EvWriteData _ _ | EvGenerate _ => true
  | _ => false
  end.

(** The register writes and sample requests the engine received. *)
Definition production_calls (tr : list event) : list event :=
  filter is_production_call tr.

Definition is_write_call (e : event) : bool :=
  match e with
  | EvWriteAddress _ | EvWriteData _ _ => true
  | _ => false
  end.

(** The register writes the engine received, address and data calls in
    order. *)
Definition write_calls (tr : list event) : list event := filter is_write_call tr.

(** The two calls the engine receives for a write: address, then data. *)
Definition applied_write (debug : bool) (w : Z * Z) : list event :=
  [EvWriteAddress (fst w); EvWriteData (snd w) debug].

(** What the engine receives for one queued write: the address, the data,
    and the request for the one sample that follows. *)
Definition drained_write (w : Z * Z) : list event :=
  [EvWriteAddress (fst w); EvWriteData (snd w) false; EvGenerate 1].

(** Number of [engine_timer_expired(i)] calls in a trace. *)
Definition fired (i : Z) (tr : list event) : nat :=
  List.length (filter (is_timer_expired i) tr).

(** Samples handed out by the engine according to a trace. *)
Fixpoint generated (tr : list event) : Z :=
  match tr with
  | [] => 0
  | EvGenerate n :: r => n + generated r
  | _ :: r => generated r
  end.

(** The register writes the engine received, as (address, value, debug)
    triples: [write_address] latches the address, [write_data] writes. *)
Fixpoint engine_writes (latched : Z) (tr : list event) : list (Z * Z * bool) :=
  match tr with
  | [] => []
  | EvWriteAddress a :: r => engine_writes a r
  | EvWriteData v d :: r => (latched, v, d) :: engine_writes latched r
  | _ :: r => engine_writes latched r
  end.

(** The value of the last write the engine received for [addr], if any. *)
Fixpoint last_write (addr : Z) (ws : list (Z * Z * bool)) : option Z :=
  match ws with
  | [] => None
  | (a, v, _) :: r =>
      match last_write addr r with
      | Some v' => Some v'
      | None => if a =? addr then Some v else None
      end
  end.

(** ** class ym2151_interface *)

Section Interface.
Context {E : ToneEngine}.

(** The members of the class that the compiled configuration uses.
    [m_trace] is not a member: it records, in program order, the calls made
    into the engine and the lines printed. *)
Record ym2151_interface : Type := mk_interface {
  m_chip : chip;
  m_backbuffer : Z -> output_data;
  m_backbuffer_used : Z;
  m_write_queue : list (Z * Z);
  m_timers : Z * Z;
  m_busy_timer : Z;
  m_irq_status : bool;
  m_resampler : option (Z * Z * Z) * option (Z * Z * Z);
  m_previous_sample_rate : Z;
  m_backbuffer_resampled : list Z * list Z;
  m_trace : list event
}.

(** [m_backbuffer_size], set once by the constructor. *)
Definition m_backbuffer_size : Z := chip_sample_rate.

Definition set_chip (c : chip) (s : ym2151_interface) : ym2151_interface :=
  mk_interface c (m_backbuffer s) (m_backbuffer_used s) (m_write_queue s)
    (m_timers s) (m_busy_timer s) (m_irq_status s) (m_resampler s)
    (m_previous_sample_rate s) (m_backbuffer_resampled s) (m_trace s).

Definition set_backbuffer (b : Z -> output_data) (s : ym2151_interface) : ym2151_interface :=
  mk_interface (m_chip s) b (m_backbuffer_used s) (m_write_queue s)
    (m_timers s) (m_busy_timer s) (m_irq_status s) (m_resampler s)
    (m_previous_sample_rate s) (m_backbuffer_resampled s) (m_trace s).

Definition set_backbuffer_used (u : Z) (s : ym2151_interface) : ym2151_interface :=
  mk_interface (m_chip s) (m_backbuffer s) u (m_write_queue s)
    (m_timers s) (m_busy_timer s) (m_irq_status s) (m_resampler s)
    (m_previous_sample_rate s) (m_backbuffer_resampled s) (m_trace s).

Definition set_write_queue (q : list (Z * Z)) (s : ym2151_interface) : ym2151_interface :=
  mk_interface (m_chip s) (m_backbuffer s) (m_backbuffer_used s) q
    (m_timers s) (m_busy_timer s) (m_irq_status s) (m_resampler s)
    (m_previous_sample_rate s) (m_backbuffer_resampled s) (m_trace s).

Definition set_timers (t : Z * Z) (s : ym2151_interface) : ym2151_interface :=
  mk_interface (m_chip s) (m_backbuffer s) (m_backbuffer_used s) (m_write_queue s)
    t (m_busy_timer s) (m_irq_status s) (m_resampler s)
    (m_previous_sample_rate s) (m_backbuffer_resampled s) (m_trace s).

Definition set_busy_timer (b : Z) (s : ym2151_interface) : ym2151_interface :=
  mk_interface (m_chip s) (m_backbuffer s) (m_backbuffer_used s) (m_write_queue s)
    (m_timers s) b (m_irq_status s) (m_resampler s)
    (m_previous_sample_rate s) (m_backbuffer_resampled s) (m_trace s).

Definition set_irq_status (b : bool) (s : ym2151_interface) : ym2151_interface :=
  mk_interface (m_chip s) (m_backbuffer s) (m_backbuffer_used s) (m_write_queue s)
    (m_timers s) (m_busy_timer s) b (m_resampler s)
    (m_previous_sample_rate s) (m_backbuffer_resampled s) (m_trace s).

Definition set_resampler (r : option (Z * Z * Z) * option (Z * Z * Z))
    (s : ym2151_interface) : ym2151_interface :=
  mk_interface (m_chip s) (m_backbuffer s) (m_backbuffer_used s) (m_write_queue s)
    (m_timers s) (m_busy_timer s) (m_irq_status s) r
    (m_previous_sample_rate s) (m_backbuffer_resampled s) (m_trace s).

Definition set_previous_sample_rate (r : Z) (s : ym2151_interface) : ym2151_interface :=
  mk_interface (m_chip s) (m_backbuffer s) (m_backbuffer_used s) (m_write_queue s)
    (m_timers s) (m_busy_timer s) (m_irq_status s) (m_resampler s)
    r (m_backbuffer_resampled s) (m_trace s).

Definition set_backbuffer_resampled (q : list Z * list Z)
    (s : ym2151_interface) : ym2151_interface :=
  mk_interface (m_chip s) (m_backbuffer s) (m_backbuffer_used s) (m_write_queue s)
    (m_timers s) (m_busy_timer s) (m_irq_status s) (m_resampler s)
    (m_previous_sample_rate s) q (m_trace s).

Definition log (e : event) (s : ym2151_interface) : ym2151_interface :=
  mk_interface (m_chip s) (m_backbuffer s) (m_backbuffer_used s) (m_write_queue s)
    (m_timers s) (m_busy_timer s) (m_irq_status s) (m_resampler s)
    (m_previous_sample_rate s) (m_backbuffer_resampled s) (m_trace s ++ [e]).

(** [m_timers[i]] for the two indices the code uses. *)
Definition timer (i : Z) (s : ym2151_interface) : Z :=
  if i =? 0 then fst (m_timers s) else snd (m_timers s).

Definition set_timer (i v : Z) (s : ym2151_interface) : ym2151_interface :=
  if i =? 0 then set_timers (v, snd (m_timers s)) s
  else set_timers (fst (m_timers s), v) s.

(** The constructor: everything zero, no resampler yet, empty queues. *)
Definition ym2151_interface_new (c : chip) : ym2151_interface :=
  mk_interface c (fun _ => (0, 0)) 0 [] (0, 0) 0 false (None, None) 0 ([], []) [].

(** *** timing and synchronization overrides *)

Definition ymfm_set_timer (tnum duration_in_clocks : Z)
    (s : ym2151_interface) : ym2151_interface :=
  if 2 <=? tnum then
    log (EvPrintf "ERROR: Not enough timers implemented for ymfm_set_timer"%string []) s
  else set_timer tnum duration_in_clocks s.

(** [m_busy_timer] is an [int32_t], [clocks] a [uint32_t]. *)
Definition ymfm_set_busy_end (clocks : Z) (s : ym2151_interface) : ym2151_interface :=
  set_busy_timer (s32 clocks) s.

Definition ymfm_is_busy (s : ym2151_interface) : bool := 0 <? m_busy_timer s.

Definition ymfm_update_irq (asserted : bool) (s : ym2151_interface) : ym2151_interface :=
  set_irq_status asserted s.

(** A callback of the engine, its arguments converted to the parameter
    types ([uint32_t tnum], [int32_t duration_in_clocks], [uint32_t clocks]). *)
Definition apply_call (s : ym2151_interface) (c : intf_call) : ym2151_interface :=
  match c with
  | SetTimer tnum d => ymfm_set_timer (u32 tnum) (s32 d) s
  | SetBusyEnd clocks => ymfm_set_busy_end (u32 clocks) s
  | UpdateIrq a => ymfm_update_irq a s
  end.

(** A call into the engine: it is recorded, the engine state is replaced and
    the callbacks the engine made are run on the interface. *)
Definition call_engine (e : event) (f : chip -> chip * list intf_call)
    (s : ym2151_interface) : ym2151_interface :=
  let '(c, calls) := f (m_chip s) in
  fold_left apply_call calls (log e (set_chip c s)).

Definition write_address (addr : Z) : ym2151_interface -> ym2151_interface :=
  call_engine (EvWriteAddress addr) (chip_write_address addr).

Definition write_data (value : Z) (debug : bool) : ym2151_interface -> ym2151_interface :=
  call_engine (EvWriteData value debug) (chip_write_data value debug).

Definition timer_expired (i : Z) : ym2151_interface -> ym2151_interface :=
  call_engine (EvTimerExpired i) (engine_timer_expired i).

(** Stores [l] into the backbuffer from index [off] on. *)
Fixpoint store_samples (off : Z) (l : list output_data)
    (b : Z -> output_data) : Z -> output_data :=
  match l with
  | [] => b
  | x :: r => store_samples (off + 1) r (fun k => if k =? off then x else b k)
  end.

(** [m_chip.generate(&m_backbuffer[m_backbuffer_used], numsamples)]: the
    engine fills [numsamples] entries from [m_backbuffer_used] on. *)
Definition generate_into_backbuffer (numsamples : Z)
    (s : ym2151_interface) : ym2151_interface :=
  let '(c, out, calls) := chip_generate numsamples (m_chip s) in
  let s1 := set_backbuffer
              (store_samples (m_backbuffer_used s) (firstn (Z.to_nat numsamples) out)
                 (m_backbuffer s)) s in
  fold_left apply_call calls (log (EvGenerate numsamples) (set_chip c s1)).

(** One turn of the loop over the two timers in [update_clocks]. *)
Definition update_timer (ticks : Z) (s : ym2151_interface) (i : Z) : ym2151_interface :=
  if 0 <? timer i s then
    let s1 := set_timer i (Z.max 0 (s32 (timer i s - ticks))) s in
    if timer i s1 <=? 0 then timer_expired i s1 else s1
  else s.

(** [update_clocks()]: one sample, 64 chip clocks. *)
Definition update_clocks (s : ym2151_interface) : ym2151_interface :=
  let s1 := set_busy_timer (Z.max 0 (s32 (m_busy_timer s - 64))) s in
  fold_left (update_timer 64) [0; 1] s1.

(** [update_clocks(int cycles)]: [cycles] samples, 64 chip clocks each. *)
Definition update_clocks_cycles (cycles : Z) (s : ym2151_interface) : ym2151_interface :=
  let ticks := s32 (64 * cycles) in
  let s1 := set_busy_timer (Z.max 0 (s32 (m_busy_timer s - ticks))) s in
  fold_left (update_timer ticks) [0; 1] s1.

(** *** production of native-rate samples *)

(** [pregenerate()]: at most one sample, none when the backbuffer is full. *)
Definition pregenerate (s : ym2151_interface) : ym2151_interface :=
  if m_backbuffer_used s <? m_backbuffer_size then
    let s1 :=
      match m_write_queue s with
      | (addr, value) :: _ => write_data value false (write_address addr s)
      | [] => s
      end in
    let s2 := generate_into_backbuffer 1 s1 in
    let s3 := update_clocks s2 in
    set_backbuffer_used (u32 (m_backbuffer_used s3 + 1)) s3
  else s.

(** The [while (samples > 0 && m_write_queue.size() > 0)] loop of
    [pregenerate(uint32_t)]; [q] is the queue at loop entry, every turn pops
    its front.  Returns what is left of [samples]. *)
Fixpoint pregenerate_drain (q : list (Z * Z)) (samples : Z)
    (s : ym2151_interface) : Z * ym2151_interface :=
  match q with
  | [] => (samples, s)
  | (addr, value) :: rest =>
      if 0 <? samples then
        let s1 := write_data value false (write_address addr s) in
        let s2 := generate_into_backbuffer 1 s1 in
        let s3 := update_clocks s2 in
        let s4 := set_backbuffer_used (u32 (m_backbuffer_used s3 + 1)) s3 in
        pregenerate_drain rest (samples - 1) (set_write_queue rest s4)
      else (samples, s)
  end.

(** [pregenerate(uint32_t samples)] *)
Definition pregenerate_samples (samples : Z) (s : ym2151_interface) : ym2151_interface :=
  let samples :=
    if m_backbuffer_size <? u32 (m_backbuffer_used s + samples)
    then u32 (m_backbuffer_size - m_backbuffer_used s)
    else samples in
  let '(samples, s1) := pregenerate_drain (m_write_queue s) samples s in
  if 0 <? samples then
    let s2 := generate_into_backbuffer samples s1 in
    let s3 := update_clocks_cycles (s32 samples) s2 in
    set_backbuffer_used (u32 (m_backbuffer_used s3 + samples)) s3
  else s1.

(** *** render *)

(** [buffers[idx] = v] on the caller's interleaved stereo buffer; the caller
    provides [2 * samples] entries, an index outside is left alone here. *)
Fixpoint buf_store (idx : nat) (v : Z) (buf : list Z) : list Z :=
  match buf, idx with
  | [], _ => []
  | _ :: r, O => v :: r
  | x :: r, S n => x :: buf_store n v r
  end.

(** The loop that uses up the left-over resampled samples of channel [i]:
    returns the buffer, [samples_done[i]] and what stays queued. *)
Fixpoint use_leftover (i : Z) (q : list Z) (samples done : Z)
    (out : list Z) : list Z * Z * list Z :=
  match q with
  | [] => (out, done, [])
  | x :: rest =>
      if done <? samples
      then use_leftover i rest samples (done + 1)
             (buf_store (Z.to_nat (i + 2 * done)) x out)
      else (out, done, q)
  end.

(** [m_resampler[i].emplace(...)] when there is none or the rate changed. *)
Definition init_resampler (sample_rate previous : Z)
    (r : option (Z * Z * Z)) : option (Z * Z * Z) :=
  match r with
  | Some x =>
      if negb (sample_rate =? previous)
      then Some (chip_sample_rate, sample_rate, chip_sample_rate)
      else Some x
  | None => Some (chip_sample_rate, sample_rate, chip_sample_rate)
  end.

Definition safety_margin : Z := 1.

(** [orig_samples_needed]: the product and the quotient are computed on
    [uint32_t], the result is stored in an [int32_t].  The source divides by
    [sample_rate]; for [sample_rate = 0] the C++ is undefined and this
    definition has the value of [Z.div]. *)
Definition orig_samples_needed (output_samples_needed sample_rate : Z) : Z :=
  s32 (u32 (safety_margin
            + u32 (u32 output_samples_needed * chip_sample_rate) / sample_rate)).

(** [generate(buffers, samples, sample_rate)] as compiled, with
    [YM2151_USE_R8BRAIN_RESAMPLING]: the two loops whose body is commented
    out in the source do nothing.  Returns the caller's buffer. *)
Definition generate (buffers : list Z) (samples sample_rate : Z)
    (s : ym2151_interface) : list Z * ym2151_interface :=
  let prev := m_previous_sample_rate s in
  let s := set_resampler (init_resampler sample_rate prev (fst (m_resampler s)),
                          init_resampler sample_rate prev (snd (m_resampler s))) s in
  let s := set_previous_sample_rate sample_rate s in
  let '(buffers, done0, q0) :=
    use_leftover 0 (fst (m_backbuffer_resampled s)) samples 0 buffers in
  let '(buffers, done1, q1) :=
    use_leftover 1 (snd (m_backbuffer_resampled s)) samples 0 buffers in
  let s := set_backbuffer_resampled (q0, q1) s in
  let s :=
    if negb (done0 =? done1)
    then log (EvPrintf "Warning: left and right audio channel received different amount of samples from YM2151!"%string []) s
    else s in
  let output_samples_needed := s32 (u32 (samples - done0)) in
  let needed := orig_samples_needed output_samples_needed sample_rate in
  let s :=
    if m_backbuffer_used s <? u32 needed
    then pregenerate_samples (u32 (needed - m_backbuffer_used s)) s
    else s in
  let samples_used := m_backbuffer_used s in
  if samples_used <? m_backbuffer_used s then
    let b := m_backbuffer s in
    let moved := m_backbuffer_used s - samples_used in
    let s := set_backbuffer
               (fun k => if (0 <=? k) && (k <? moved) then b (k + samples_used) else b k) s in
    (buffers, set_backbuffer_used (u32 (m_backbuffer_used s - samples)) s)
  else (buffers, set_backbuffer_used 0 s).

Definition clear_backbuffer (s : ym2151_interface) : ym2151_interface :=
  set_backbuffer_used 0 s.

(** *** register access *)

(** [write(addr, value)]; [strict] is what [YM_is_strict()] returns. *)
Definition write (strict : bool) (addr value : Z) (s : ym2151_interface) : ym2151_interface :=
  if ymfm_is_busy s then
    if strict
    then log (EvPrintf "WARN: Write to YM2151 ($%02X <- $%02X) while busy."%string [addr; value]) s
    else set_write_queue (m_write_queue s ++ [(addr, value)]) s
  else write_data value false (write_address addr s).

Definition reset : ym2151_interface -> ym2151_interface :=
  call_engine EvReset chip_reset.

Definition debug_write (addr value : Z) (s : ym2151_interface) : ym2151_interface :=
  write_data value true (write_address addr s).

Definition debug_read (addr : Z) (s : ym2151_interface) : Z :=
  chip_get_register_data (m_chip s) addr.

Definition get_irq_status (s : ym2151_interface) : bool := m_irq_status s.

Definition get_sample_rate : Z := chip_sample_rate.

(** ** The global state and the [YM_*] entry points *)

Record ym_globals : Type := mk_globals {
  Ym_interface : ym2151_interface;
  Last_address : Z;
  Last_data : Z;
  Ym_registers : Z -> Z;
  Ym_irq_enabled : bool;
  Ym_strict_busy : bool;
  clocks_elapsed : Z
}.

Definition set_interface (i : ym2151_interface) (g : ym_globals) : ym_globals :=
  mk_globals i (Last_address g) (Last_data g) (Ym_registers g)
    (Ym_irq_enabled g) (Ym_strict_busy g) (clocks_elapsed g).

Definition set_clocks_elapsed (c : Z) (g : ym_globals) : ym_globals :=
  mk_globals (Ym_interface g) (Last_address g) (Last_data g) (Ym_registers g)
    (Ym_irq_enabled g) (Ym_strict_busy g) c.

(** Static initialisation. *)
Definition ym_globals_new (c : chip) : ym_globals :=
  mk_globals (ym2151_interface_new c) 0 0 (fun _ => 0) false false 0.

Definition clocks_per_sample : Z := 8000000 / get_sample_rate.

(** [samples_to_render] in [YM_prerender], the argument of [pregenerate]. *)
Definition samples_to_render (clocks : Z) (g : ym_globals) : Z :=
  u32 (clocks_elapsed g + clocks) / clocks_per_sample.

Definition YM_prerender (clocks : Z) (g : ym_globals) : ym_globals :=
  let elapsed := u32 (clocks_elapsed g + clocks) in
  let n := samples_to_render clocks g in
  if 0 <? n then
    set_clocks_elapsed (u32 (elapsed - u32 (n * clocks_per_sample)))
      (set_interface (pregenerate_samples n (Ym_interface g)) g)
  else set_clocks_elapsed elapsed g.

Definition YM_render (buffer : list Z) (samples sample_rate : Z)
    (g : ym_globals) : list Z * ym_globals :=
  let '(buffer, i) := generate buffer samples sample_rate (Ym_interface g) in
  (buffer, set_interface i g).

Definition YM_clear_backbuffer (g : ym_globals) : ym_globals :=
  set_interface (clear_backbuffer (Ym_interface g)) g.

Definition YM_set_irq_enabled (enabled : bool) (g : ym_globals) : ym_globals :=
  mk_globals (Ym_interface g) (Last_address g) (Last_data g) (Ym_registers g)
    enabled (Ym_strict_busy g) (clocks_elapsed g).

Definition YM_is_strict (g : ym_globals) : bool := Ym_strict_busy g.

Definition YM_set_strict_busy (enable : bool) (g : ym_globals) : ym_globals :=
  mk_globals (Ym_interface g) (Last_address g) (Last_data g) (Ym_registers g)
    (Ym_irq_enabled g) enable (clocks_elapsed g).

(** [YM_write(offset, value)]: odd offsets are the data port. *)
Definition YM_write (offset value : Z) (g : ym_globals) : ym_globals :=
  if negb (Z.land offset 1 =? 0) then
    let a := Last_address g in
    mk_globals (write (YM_is_strict g) a value (Ym_interface g))
      a value (fun k => if k =? a then value else Ym_registers g k)
      (Ym_irq_enabled g) (Ym_strict_busy g) (clocks_elapsed g)
  else
    mk_globals (Ym_interface g) value (Last_data g) (Ym_registers g)
      (Ym_irq_enabled g) (Ym_strict_busy g) (clocks_elapsed g).

Definition YM_irq (g : ym_globals) : bool :=
  Ym_irq_enabled g && get_irq_status (Ym_interface g).

(** The two [memset]s of [YM_reset]. *)
Definition reset_registers : Z -> Z :=
  fun k => if (32 <=? k) && (k <? 40) then 192 else 0.

Definition YM_reset (g : ym_globals) : ym_globals :=
  mk_globals (reset (Ym_interface g)) (Last_address g) (Last_data g)
    reset_registers (Ym_irq_enabled g) (Ym_strict_busy g) (clocks_elapsed g).

Definition YM_debug_write (addr value : Z) (g : ym_globals) : ym_globals :=
  mk_globals (debug_write addr value (Ym_interface g)) (Last_address g) (Last_data g)
    (fun k => if k =? addr then value else Ym_registers g k)
    (Ym_irq_enabled g) (Ym_strict_busy g) (clocks_elapsed g).

Definition YM_debug_read (addr : Z) (g : ym_globals) : Z := Ym_registers g addr.

Definition YM_last_address (g : ym_globals) : Z := Last_address g.

Definition YM_last_data (g : ym_globals) : Z := Last_data g.

(** ** Sequences of operations of the surrounding emulator *)

(** The arguments are of the C++ parameter types: [uint8_t] for ports,
    addresses and values, [uint32_t] for clocks, counts and rates. *)
Inductive ym_op : Type :=
| OpWrite (offset value : Z)
| OpDebugWrite (addr value : Z)
| OpPrerender (clocks : Z)
| OpRender (samples sample_rate : Z)
| OpClearBackbuffer
| OpReset
| OpSetStrictBusy (enable : bool)
| OpSetIrqEnabled (enabled : bool).

(** An operation with its arguments converted to the parameter types. *)
Definition ym_step (g : ym_globals) (o : ym_op) : ym_globals :=
  match o with
  | OpWrite offset value => YM_write (u8 offset) (u8 value) g
  | OpDebugWrite addr value => YM_debug_write (u8 addr) (u8 value) g
  | OpPrerender clocks => YM_prerender (u32 clocks) g
  | OpRender samples sample_rate =>
      snd (YM_render (repeat 0 (Z.to_nat (2 * u32 samples)))
             (u32 samples) (u32 sample_rate) g)
  | OpClearBackbuffer => YM_clear_backbuffer g
  | OpReset => YM_reset g
  | OpSetStrictBusy b => YM_set_strict_busy b g
  | OpSetIrqEnabled b => YM_set_irq_enabled b g
  end.

Definition ym_run (ops : list ym_op) (g : ym_globals) : ym_globals :=
  fold_left ym_step ops g.

End Interface.

(** ** Field accessors *)

(** The template arguments of [get_bit_field] and [set_bit_field] as the
    source writes them: [<msb, lsb>] or a single bit [<n>]. *)
Inductive bit_field : Type :=
| Bits (msb lsb : Z)
| Bit (n : Z).

(** Number of values a field written [<msb, lsb>] or [<n>] can hold, as a
    power of two. *)
Definition field_width (f : bit_field) : Z :=
  match f with Bits msb lsb => msb - lsb + 1 | Bit _ => 1 end.

(** What [ym2151.h] and [bitutils.h] declare and this file uses: the register
    offsets and the two bit-field templates.  Neither header is among the
    sources; they are parameters. *)
Class YmHeader : Type := {
  YM_R_L_FB_CONN_OFFSET : Z;
  YM_KC_OFFSET : Z;
  YM_KF_OFFSET : Z;
  YM_PMS_AMS_OFFSET : Z;
  YM_DT1_MUL_OFFSET : Z;
  YM_TL_OFFSET : Z;
  YM_KS_AR_OFFSET : Z;
  YM_A_D1R_OFFSET : Z;
  YM_DT2_D2R_OFFSET : Z;
  YM_D1L_RR_OFFSET : Z;
  get_bit_field : bit_field -> Z -> Z;
  set_bit_field : bit_field -> Z -> Z -> Z
}.

Section Accessors.
Context {E : ToneEngine} {H : YmHeader}.

(** Getters: a field of a latch entry, returned as a [uint8_t]; 0 for a voice
    or an operator that does not exist. *)
Definition YM_get_last_key_on (g : ym_globals) : Z := Ym_registers g 8.

Definition YM_get_lfo_frequency (g : ym_globals) : Z := Ym_registers g 24.

Definition YM_get_modulation_depth (g : ym_globals) : Z :=
  u8 (get_bit_field (Bits 6 0) (Ym_registers g 25)).

Definition YM_get_modulation_type (g : ym_globals) : Z :=
  u8 (get_bit_field (Bit 7) (Ym_registers g 25)).

Definition YM_get_waveform (g : ym_globals) : Z :=
  u8 (get_bit_field (Bits 1 0) (Ym_registers g 27)).

Definition YM_get_control_output_1 (g : ym_globals) : Z :=
  u8 (get_bit_field (Bit 6) (Ym_registers g 27)).

Definition YM_get_control_output_2 (g : ym_globals) : Z :=
  u8 (get_bit_field (Bit 7) (Ym_registers g 27)).

Definition YM_get_voice_connection_type (voice : Z) (g : ym_globals) : Z :=
  if voice <? 8
  then u8 (get_bit_field (Bits 2 0) (Ym_registers g (YM_R_L_FB_CONN_OFFSET + voice)))
  else 0.

Definition YM_get_voice_self_feedback_level (voice : Z) (g : ym_globals) : Z :=
  if voice <? 8
  then u8 (get_bit_field (Bits 5 3) (Ym_registers g (YM_R_L_FB_CONN_OFFSET + voice)))
  else 0.

Definition YM_get_voice_left_enable (voice : Z) (g : ym_globals) : Z :=
  if voice <? 8
  then u8 (get_bit_field (Bit 6) (Ym_registers g (YM_R_L_FB_CONN_OFFSET + voice)))
  else 0.

Definition YM_get_voice_right_enable (voice : Z) (g : ym_globals) : Z :=
  if voice <? 8
  then u8 (get_bit_field (Bit 7) (Ym_registers g (YM_R_L_FB_CONN_OFFSET + voice)))
  else 0.

Definition YM_get_voice_note (voice : Z) (g : ym_globals) : Z :=
  if voice <? 8
  then u8 (get_bit_field (Bits 3 0) (Ym_registers g (YM_KC_OFFSET + voice)))
  else 0.

Definition YM_get_voice_octave (voice : Z) (g : ym_globals) : Z :=
  if voice <? 8
  then u8 (get_bit_field (Bits 6 4) (Ym_registers g (YM_KC_OFFSET + voice)))
  else 0.

Definition YM_get_voice_key_fraction (voice : Z) (g : ym_globals) : Z :=
  if voice <? 8
  then u8 (get_bit_field (Bits 7 2) (Ym_registers g (YM_KF_OFFSET + voice)))
  else 0.

Definition YM_get_voice_amplitude_modulation_sensitivity (voice : Z) (g : ym_globals) : Z :=
  if voice <? 8
  then u8 (get_bit_field (Bits 2 1) (Ym_registers g (YM_PMS_AMS_OFFSET + voice)))
  else 0.

Definition YM_get_voice_phase_modulation_sensitivity (voice : Z) (g : ym_globals) : Z :=
  if voice <? 8
  then u8 (get_bit_field (Bits 6 4) (Ym_registers g (YM_PMS_AMS_OFFSET + voice)))
  else 0.

Definition YM_get_operator_phase_multiply (voice op : Z) (g : ym_globals) : Z :=
  if (voice <? 8) && (op <? 4)
  then u8 (get_bit_field (Bits 3 0) (Ym_registers g (YM_DT1_MUL_OFFSET + op * 8 + voice)))
  else 0.

Definition YM_get_operator_detune_1 (voice op : Z) (g : ym_globals) : Z :=
  if (voice <? 8) && (op <? 4)
  then u8 (get_bit_field (Bits 6 4) (Ym_registers g (YM_DT1_MUL_OFFSET + op * 8 + voice)))
  else 0.

Definition YM_get_operator_total_level (voice op : Z) (g : ym_globals) : Z :=
  if (voice <? 8) && (op <? 4)
  then u8 (get_bit_field (Bits 6 0) (Ym_registers g (YM_TL_OFFSET + op * 8 + voice)))
  else 0.

Definition YM_get_operator_attack_rate (voice op : Z) (g : ym_globals) : Z :=
  if (voice <? 8) && (op <? 4)
  then u8 (get_bit_field (Bits 4 0) (Ym_registers g (YM_KS_AR_OFFSET + op * 8 + voice)))
  else 0.

Definition YM_get_operator_key_scaling (voice op : Z) (g : ym_globals) : Z :=
  if (voice <? 8) && (op <? 4)
  then u8 (get_bit_field (Bits 7 6) (Ym_registers g (YM_KS_AR_OFFSET + op * 8 + voice)))
  else 0.

Definition YM_get_operator_decay_rate_1 (voice op : Z) (g : ym_globals) : Z :=
  if (voice <? 8) && (op <? 4)
  then u8 (get_bit_field (Bits 7 4) (Ym_registers g (YM_A_D1R_OFFSET + op * 8 + voice)))
  else 0.

Definition YM_get_operator_ams_enabled (voice op : Z) (g : ym_globals) : Z :=
  if (voice <? 8) && (op <? 4)
  then u8 (get_bit_field (Bit 7) (Ym_registers g (YM_A_D1R_OFFSET + op * 8 + voice)))
  else 0.

Definition YM_get_operator_decay_rate_2 (voice op : Z) (g : ym_globals) : Z :=
  if (voice <? 8) && (op <? 4)
  then u8 (get_bit_field (Bits 4 0) (Ym_registers g (YM_DT2_D2R_OFFSET + op * 8 + voice)))
  else 0.

Definition YM_get_operator_detune_2 (voice op : Z) (g : ym_globals) : Z :=
  if (voice <? 8) && (op <? 4)
  then u8 (get_bit_field (Bits 7 6) (Ym_registers g (YM_DT2_D2R_OFFSET + op * 8 + voice)))
  else 0.

Definition YM_get_operator_release_rate (voice op : Z) (g : ym_globals) : Z :=
  if (voice <? 8) && (op <? 4)
  then u8 (get_bit_field (Bits 3 0) (Ym_registers g (YM_D1L_RR_OFFSET + op * 8 + voice)))
  else 0.

Definition YM_get_operator_decay_1_level (voice op : Z) (g : ym_globals) : Z :=
  if (voice <? 8) && (op <? 4)
  then u8 (get_bit_field (Bits 7 4) (Ym_registers g (YM_D1L_RR_OFFSET + op * 8 + voice)))
  else 0.

(** Mutators: the latch entry with one field replaced goes through
    [YM_debug_write]; the address is a [uint8_t], and so is the value
    written.  A [bool] argument is passed as 0 or 1. *)
Definition YM_key_on (channel : Z) (m1 c1 m2 c2 : bool) (g : ym_globals) : ym_globals :=
  YM_debug_write 8
    (u8 (Z.lor (Z.lor (Z.lor (Z.lor channel (if m1 then 8 else 0))
                         (if c1 then 16 else 0))
                  (if m2 then 32 else 0))
           (if c2 then 64 else 0))) g.

Definition YM_set_lfo_frequency (freq : Z) (g : ym_globals) : ym_globals :=
  YM_debug_write 24 freq g.

Definition YM_set_modulation_depth (value : Z) (g : ym_globals) : ym_globals :=
  YM_debug_write 25 (u8 (set_bit_field (Bits 6 0) (Ym_registers g 25) (value))) g.

Definition YM_set_modulation_type (value : Z) (g : ym_globals) : ym_globals :=
  YM_debug_write 25 (u8 (set_bit_field (Bit 7) (Ym_registers g 25) (value))) g.

Definition YM_set_waveform (value : Z) (g : ym_globals) : ym_globals :=
  YM_debug_write 27 (u8 (set_bit_field (Bits 1 0) (Ym_registers g 27) (value))) g.

Definition YM_set_control_output_1 (enable : bool) (g : ym_globals) : ym_globals :=
  YM_debug_write 27 (u8 (set_bit_field (Bit 6) (Ym_registers g 27) (Z.b2z enable))) g.

Definition YM_set_control_output_2 (enable : bool) (g : ym_globals) : ym_globals :=
  YM_debug_write 27 (u8 (set_bit_field (Bit 7) (Ym_registers g 27) (Z.b2z enable))) g.

Definition YM_set_voice_connection_type (voice : Z) (ctype : Z) (g : ym_globals) : ym_globals :=
  if voice <? 8 then
    let addr := u8 (YM_R_L_FB_CONN_OFFSET + voice) in
    YM_debug_write addr (u8 (set_bit_field (Bits 2 0) (Ym_registers g addr) (Z.land ctype 7))) g
  else g.

Definition YM_set_voice_self_feedback_level (voice : Z) (value : Z) (g : ym_globals) : ym_globals :=
  if voice <? 8 then
    let addr := u8 (YM_R_L_FB_CONN_OFFSET + voice) in
    YM_debug_write addr (u8 (set_bit_field (Bits 5 3) (Ym_registers g addr) (value))) g
  else g.

Definition YM_set_voice_left_enable (voice : Z) (enable : bool) (g : ym_globals) : ym_globals :=
  if voice <? 8 then
    let addr := u8 (YM_R_L_FB_CONN_OFFSET + voice) in
    YM_debug_write addr (u8 (set_bit_field (Bit 6) (Ym_registers g addr) (Z.b2z enable))) g
  else g.

Definition YM_set_voice_right_enable (voice : Z) (enable : bool) (g : ym_globals) : ym_globals :=
  if voice <? 8 then
    let addr := u8 (YM_R_L_FB_CONN_OFFSET + voice) in
    YM_debug_write addr (u8 (set_bit_field (Bit 7) (Ym_registers g addr) (Z.b2z enable))) g
  else g.

Definition YM_set_voice_note (voice : Z) (value : Z) (g : ym_globals) : ym_globals :=
  if voice <? 8 then
    let addr := u8 (YM_KC_OFFSET + voice) in
    YM_debug_write addr (u8 (set_bit_field (Bits 3 0) (Ym_registers g addr) (value))) g
  else g.

Definition YM_set_voice_octave (voice : Z) (value : Z) (g : ym_globals) : ym_globals :=
  if voice <? 8 then
    let addr := u8 (YM_KC_OFFSET + voice) in
    YM_debug_write addr (u8 (set_bit_field (Bits 6 4) (Ym_registers g addr) (value))) g
  else g.

Definition YM_set_voice_key_fraction (voice : Z) (value : Z) (g : ym_globals) : ym_globals :=
  if voice <? 8 then
    let addr := u8 (YM_KF_OFFSET + voice) in
    YM_debug_write addr (u8 (set_bit_field (Bits 7 2) (Ym_registers g addr) (value))) g
  else g.

Definition YM_set_voice_amplitude_modulation_sensitivity (voice : Z) (value : Z) (g : ym_globals) : ym_globals :=
  if voice <? 8 then
    let addr := u8 (YM_PMS_AMS_OFFSET + voice) in
    YM_debug_write addr (u8 (set_bit_field (Bits 1 0) (Ym_registers g addr) (value))) g
  else g.

Definition YM_set_voice_phase_modulation_sensitivity (voice : Z) (value : Z) (g : ym_globals) : ym_globals :=
  if voice <? 8 then
    let addr := u8 (YM_PMS_AMS_OFFSET + voice) in
    YM_debug_write addr (u8 (set_bit_field (Bits 6 4) (Ym_registers g addr) (value))) g
  else g.

Definition YM_set_operator_phase_multiply (voice op : Z) (value : Z) (g : ym_globals) : ym_globals :=
  if (voice <? 8) && (op <? 4) then
    let addr := u8 (YM_DT1_MUL_OFFSET + op * 8 + voice) in
    YM_debug_write addr (u8 (set_bit_field (Bits 3 0) (Ym_registers g addr) (value))) g
  else g.

Definition YM_set_operator_detune_1 (voice op : Z) (value : Z) (g : ym_globals) : ym_globals :=
  if (voice <? 8) && (op <? 4) then
    let addr := u8 (YM_DT1_MUL_OFFSET + op * 8 + voice) in
    YM_debug_write addr (u8 (set_bit_field (Bits 6 4) (Ym_registers g addr) (value))) g
  else g.

Definition YM_set_operator_total_level (voice op : Z) (value : Z) (g : ym_globals) : ym_globals :=
  if (voice <? 8) && (op <? 4) then
    let addr := u8 (YM_TL_OFFSET + op * 8 + voice) in
    YM_debug_write addr (u8 (set_bit_field (Bits 6 0) (Ym_registers g addr) (value))) g
  else g.

Definition YM_set_operator_attack_rate (voice op : Z) (value : Z) (g : ym_globals) : ym_globals :=
  if (voice <? 8) && (op <? 4) then
    let addr := u8 (YM_KS_AR_OFFSET + op * 8 + voice) in
    YM_debug_write addr (u8 (set_bit_field (Bits 4 0) (Ym_registers g addr) (value))) g
  else g.

Definition YM_set_operator_key_scaling (voice op : Z) (value : Z) (g : ym_globals) : ym_globals :=
  if (voice <? 8) && (op <? 4) then
    let addr := u8 (YM_KS_AR_OFFSET + op * 8 + voice) in
    YM_debug_write addr (u8 (set_bit_field (Bits 7 6) (Ym_registers g addr) (value))) g
  else g.

Definition YM_set_operator_decay_rate_1 (voice op : Z) (value : Z) (g : ym_globals) : ym_globals :=
  if (voice <? 8) && (op <? 4) then
    let addr := u8 (YM_A_D1R_OFFSET + op * 8 + voice) in
    YM_debug_write addr (u8 (set_bit_field (Bits 4 0) (Ym_registers g addr) (value))) g
  else g.

Definition YM_set_operator_ams_enabled (voice op : Z) (enable : bool) (g : ym_globals) : ym_globals :=
  if (voice <? 8) && (op <? 4) then
    let addr := u8 (YM_A_D1R_OFFSET + op * 8 + voice) in
    YM_debug_write addr (u8 (set_bit_field (Bit 7) (Ym_registers g addr) (Z.b2z enable))) g
  else g.

Definition YM_set_operator_decay_rate_2 (voice op : Z) (value : Z) (g : ym_globals) : ym_globals :=
  if (voice <? 8) && (op <? 4) then
    let addr := u8 (YM_DT2_D2R_OFFSET + op * 8 + voice) in
    YM_debug_write addr (u8 (set_bit_field (Bits 4 0) (Ym_registers g addr) (value))) g
  else g.

Definition YM_set_operator_detune_2 (voice op : Z) (value : Z) (g : ym_globals) : ym_globals :=
  if (voice <? 8) && (op <? 4) then
    let addr := u8 (YM_DT2_D2R_OFFSET + op * 8 + voice) in
    YM_debug_write addr (u8 (set_bit_field (Bits 7 6) (Ym_registers g addr) (value))) g
  else g.

Definition YM_set_operator_release_rate (voice op : Z) (value : Z) (g : ym_globals) : ym_globals :=
  if (voice <? 8) && (op <? 4) then
    let addr := u8 (YM_D1L_RR_OFFSET + op * 8 + voice) in
    YM_debug_write addr (u8 (set_bit_field (Bits 3 0) (Ym_registers g addr) (value))) g
  else g.

Definition YM_set_operator_decay_1_level (voice op : Z) (value : Z) (g : ym_globals) : ym_globals :=
  if (voice <? 8) && (op <? 4) then
    let addr := u8 (YM_D1L_RR_OFFSET + op * 8 + voice) in
    YM_debug_write addr (u8 (set_bit_field (Bits 7 4) (Ym_registers g addr) (value))) g
  else g.

(** What the properties of the accessors ask of the two headers. *)

(** Writing a value that fits the field and reading the field back gives the
    value, on a byte that went through [uint8_t]. *)
Definition field_law (f : bit_field) : Prop :=
  forall src v, 0 <= src < 256 -> 0 <= v < 2 ^ field_width f ->
    get_bit_field f (u8 (set_bit_field f src v)) = v.

(** Writing field [f] leaves field [f'] of the same byte as it was. *)
Definition field_frame (f f' : bit_field) : Prop :=
  forall src v, 0 <= src < 256 -> 0 <= v < 2 ^ field_width f ->
    get_bit_field f' (u8 (set_bit_field f src v)) = get_bit_field f' src.

(** The per-voice registers and the per-operator registers lie within the
    256 entries. *)
Definition offsets_ok : Prop :=
  Forall (fun off => 0 <= off /\ off + 7 < 256)
    [YM_R_L_FB_CONN_OFFSET; YM_KC_OFFSET; YM_KF_OFFSET; YM_PMS_AMS_OFFSET] /\
  Forall (fun off => 0 <= off /\ off + 31 < 256)
    [YM_DT1_MUL_OFFSET; YM_TL_OFFSET; YM_KS_AR_OFFSET; YM_A_D1R_OFFSET;
     YM_DT2_D2R_OFFSET; YM_D1L_RR_OFFSET].

(** Every latch entry is a byte. *)
Definition latch_bytes (g : ym_globals) : Prop :=
  forall a, 0 <= Ym_registers g a < 256.

(** [g'] differs from [g] in the latch at most at [addr]; the write queue,
    the count of held samples and the latched address are the same. *)
Definition touches_only (addr : Z) (g g' : ym_globals) : Prop :=
  (forall a, a <> addr -> Ym_registers g' a = Ym_registers g a) /\
  m_write_queue (Ym_interface g') = m_write_queue (Ym_interface g) /\
  m_backbuffer_used (Ym_interface g') = m_backbuffer_used (Ym_interface g) /\
  Last_address g' = Last_address g.

End Accessors.

(** ** Clock advances, latch contents and a small engine *)

(** The two ways the clock model is advanced: [update_clocks()] and
    [update_clocks(cycles)]. *)
Inductive advance : Type :=
| Tick
| Ticks (cycles : Z).

Definition advance_ticks (a : advance) : Z :=
  match a with Tick => 64 | Ticks cycles => 64 * cycles end.

Definition advance_ok (a : advance) : Prop :=
  match a with Tick => True | Ticks cycles => 0 <= cycles < 33554432 end.

Fixpoint total_ticks (l : list advance) : Z :=
  match l with
  | [] => 0
  | a :: r => advance_ticks a + total_ticks r
  end.

Definition advance_clocks {E : ToneEngine} (s : ym2151_interface) (a : advance) :
    ym2151_interface :=
  match a with
  | Tick => update_clocks s
  | Ticks cycles => update_clocks_cycles cycles s
  end.

Definition sets_timer (i : Z) (c : intf_call) : bool :=
  match c with SetTimer tnum _ => u32 tnum =? i | _ => false end.

Definition sets_busy (c : intf_call) : bool :=
  match c with SetBusyEnd _ => true | _ => false end.

(** The engine does not start a busy window from within an expiration
    handler. *)
Definition no_busy_on_expiry {E : ToneEngine} : Prop :=
  forall j c, existsb sets_busy (snd (engine_timer_expired j c)) = false.

(** The engine calls nothing back while it generates samples. *)
Definition quiet_generate {E : ToneEngine} : Prop :=
  forall n c, snd (chip_generate n c) = [].

(** The engine does not set timer [i] from within the expiration handler
    of the other timer. *)
Definition no_cross_rearm {E : ToneEngine} (i : Z) : Prop :=
  forall j c, j = 0 \/ j = 1 -> j <> i ->
    existsb (sets_timer i) (snd (engine_timer_expired j c)) = false.

(** The engine does not set timer [i] from within any expiration handler,
    its own included: the timer is not rearmed by expiring. *)
Definition no_rearm {E : ToneEngine} (i : Z) : Prop :=
  forall j c, existsb (sets_timer i) (snd (engine_timer_expired j c)) = false.

(** The value last submitted for [addr] through the data port or the debug
    write, or the reset default, along a sequence of operations that starts
    with the address port at [latched] and the entry at [cur]. *)
Fixpoint latch_value (addr latched cur : Z) (ops : list ym_op) : Z :=
  match ops with
  | [] => cur
  | OpWrite offset value :: r =>
      if negb (Z.land (u8 offset) 1 =? 0)
      then latch_value addr latched (if addr =? latched then u8 value else cur) r
      else latch_value addr (u8 value) cur r
  | OpDebugWrite a value :: r =>
      latch_value addr latched (if addr =? u8 a then u8 value else cur) r
  | OpReset :: r => latch_value addr latched (reset_registers addr) r
  | _ :: r => latch_value addr latched cur r
  end.


(** Operations that do not switch strict timing off. *)
Definition keeps_strict (o : ym_op) : Prop :=
  match o with OpSetStrictBusy false => False | _ => True end.

(** Operations that do not enable the interrupt. *)
Definition keeps_irq_disabled (o : ym_op) : Prop :=
  match o with OpSetIrqEnabled true => False | _ => True end.

Definition zsum (l : list Z) : Z := fold_right Z.add 0 l.

(** The sample counts that successive [YM_prerender] calls ask
    [pregenerate] for, one per call ([0] when the call asks for nothing). *)
Fixpoint prerender_requests {E : ToneEngine} (cs : list Z) (g : ym_globals) : list Z :=
  match cs with
  | [] => []
  | c :: r => samples_to_render c g :: prerender_requests r (YM_prerender c g)
  end.

Definition prerender_run {E : ToneEngine} (cs : list Z) (g : ym_globals) : ym_globals :=
  fold_left (fun g c => YM_prerender c g) cs g.

(** What [YM_prerender] does with the interface for a sample count [n]:
    [pregenerate(n)] when there is a sample to render, nothing otherwise. *)
Definition prerender_produce {E : ToneEngine} (s : ym2151_interface) (n : Z) :
    ym2151_interface :=
  if 0 <? n then pregenerate_samples n s else s.


(** A small engine to run the model on: a latched address and the list of
    register writes, newest first.  A write through the bus makes the chip
    busy for 64 clocks, an expired timer raises the interrupt line, a reset
    cancels both timers. *)
Definition toy_chip : Type := (Z * list (Z * Z))%type.

Fixpoint toy_lookup (l : list (Z * Z)) (addr : Z) : Z :=
  match l with
  | [] => 0
  | (a, v) :: r => if a =? addr then v else toy_lookup r addr
  end.

Definition toy_engine : ToneEngine := {|
  chip := toy_chip;
  chip_sample_rate := 55930;
  chip_write_address := fun a c => ((a, snd c), []);
  chip_write_data := fun v debug c =>
    ((fst c, (fst c, v) :: snd c), if debug then [] else [SetBusyEnd 64]);
  chip_generate := fun n c => (c, repeat (0, 0) (Z.to_nat n), []);
  chip_reset := fun _ => ((0, []), [SetTimer 0 (-1); SetTimer 1 (-1)]);
  engine_timer_expired := fun _ c => (c, [UpdateIrq true]);
  chip_get_register_data := fun c addr => toy_lookup (snd c) addr
|}.

Definition toy_new : @ym_globals toy_engine := @ym_globals_new toy_engine (0, []).

(** The same engine with periodic timers: an expired timer is set anew by
    its own handler, for 640 clocks. *)
Definition toy_periodic_engine : ToneEngine := {|
  chip := toy_chip;
  chip_sample_rate := 55930;
  chip_write_address := fun a c => ((a, snd c), []);
  chip_write_data := fun v debug c =>
    ((fst c, (fst c, v) :: snd c), if debug then [] else [SetBusyEnd 64]);
  chip_generate := fun n c => (c, repeat (0, 0) (Z.to_nat n), []);
  chip_reset := fun _ => ((0, []), [SetTimer 0 (-1); SetTimer 1 (-1)]);
  engine_timer_expired := fun i c => (c, [UpdateIrq true; SetTimer i 640]);
  chip_get_register_data := fun c addr => toy_lookup (snd c) addr
|}.

(** Two writes to register 8 with strict timing on: the first makes the
    engine busy, the second arrives while it is. *)
Definition dropped_write_ops : list ym_op :=
  [OpSetStrictBusy true; OpWrite 0 8; OpWrite 1 17; OpWrite 0 8; OpWrite 1 34].

(** The same two writes without strict timing: the second is queued. *)
Definition queued_write_state : @ym2151_interface toy_engine :=
  Ym_interface (ym_run [OpWrite 0 8; OpWrite 1 17; OpWrite 0 8; OpWrite 1 34] toy_new).

(** A header to run the accessors on: the register map of the chip, and bit
    fields by shift and mask. *)
Definition field_lsb (f : bit_field) : Z :=
  match f with Bits _ lsb => lsb | Bit n => n end.

Definition toy_header : YmHeader := {|
  YM_R_L_FB_CONN_OFFSET := 32;
  YM_KC_OFFSET := 40;
  YM_KF_OFFSET := 48;
  YM_PMS_AMS_OFFSET := 56;
  YM_DT1_MUL_OFFSET := 64;
  YM_TL_OFFSET := 96;
  YM_KS_AR_OFFSET := 128;
  YM_A_D1R_OFFSET := 160;
  YM_DT2_D2R_OFFSET := 192;
  YM_D1L_RR_OFFSET := 224;
  get_bit_field := fun f value =>
    Z.land (Z.shiftr value (field_lsb f)) (Z.ones (field_width f));
  set_bit_field := fun f src value =>
    Z.lor (Z.land src (Z.lnot (Z.shiftl (Z.ones (field_width f)) (field_lsb f))))
          (Z.shiftl (Z.land value (Z.ones (field_width f))) (field_lsb f))
|}.

Definition below (n : Z) : list Z := map Z.of_nat (seq 0 (Z.to_nat n)).

(** The two requirements on bit fields, checked over all bytes and all
    values that fit. *)
Definition field_law_check (f : bit_field) : bool :=
  forallb (fun src =>
    forallb (fun v =>
      @get_bit_field toy_header f (u8 (@set_bit_field toy_header f src v)) =? v)
      (below (2 ^ field_width f)))
    (below 256).

Definition field_frame_check (p : bit_field * bit_field) : bool :=
  forallb (fun src =>
    forallb (fun v =>
      @get_bit_field toy_header (snd p) (u8 (@set_bit_field toy_header (fst p) src v))
      =? @get_bit_field toy_header (snd p) src)
      (below (2 ^ field_width (fst p))))
    (below 256).

(** Three writes waiting behind a busy window of 640 clocks. *)
Definition busy_queue_state : @ym2151_interface toy_engine :=
  write false 27 3 (write false 24 2 (write false 8 1
    (ymfm_set_busy_end 640 (Ym_interface toy_new)))).


(** * Properties *)

Section Properties.
Context {E : ToneEngine}.

Lemma s32_small x : -2147483648 <= x < 2147483648 -> s32 x = x.
Proof. intros H. unfold s32. rewrite Z.mod_small; lia. Qed.

Lemma u32_small x : 0 <= x < 4294967296 -> u32 x = x.
Proof. intros H. unfold u32. apply Z.mod_small; lia. Qed.

Lemma u32_range x : 0 <= u32 x < 4294967296.
Proof. unfold u32. apply Z.mod_pos_bound. lia. Qed.



Lemma fired_app i t1 t2 : fired i (t1 ++ t2) = (fired i t1 + fired i t2)%nat.
Proof. unfold fired. now rewrite filter_app, length_app. Qed.

(** *** What the callbacks leave alone *)

Lemma apply_call_frame s c :
  let s' := apply_call s c in
  m_chip s' = m_chip s /\ m_backbuffer s' = m_backbuffer s /\
  m_backbuffer_used s' = m_backbuffer_used s /\
  m_write_queue s' = m_write_queue s /\
  m_backbuffer_resampled s' = m_backbuffer_resampled s /\
  engine_calls (m_trace s') = engine_calls (m_trace s).
Proof.
  destruct c as [t d|c|a]; cbn; unfold ymfm_set_timer, set_timer.
  - destruct (2 <=? u32 t), (u32 t =? 0); cbn; repeat split; try reflexivity.
    all: unfold engine_calls; rewrite filter_app; cbn; now rewrite app_nil_r.
  - repeat split.
  - repeat split.
Qed.

Lemma apply_calls_frame calls : forall s,
  let s' := fold_left apply_call calls s in
  m_chip s' = m_chip s /\ m_backbuffer s' = m_backbuffer s /\
  m_backbuffer_used s' = m_backbuffer_used s /\
  m_write_queue s' = m_write_queue s /\
  m_backbuffer_resampled s' = m_backbuffer_resampled s /\
  engine_calls (m_trace s') = engine_calls (m_trace s).
Proof.
  induction calls as [|c r IH]; intros s; cbn.
  - repeat split.
  - destruct (IH (apply_call s c)) as (A & B & C & D & F & G).
    destruct (apply_call_frame s c) as (A' & B' & C' & D' & F' & G').
    repeat split; congruence.
Qed.

Lemma fired_engine_calls i tr : fired i (engine_calls tr) = fired i tr.
Proof.
  unfold fired, engine_calls. induction tr as [|e r IH]; cbn; [reflexivity|].
  destruct e; cbn; try destruct (_ =? _); cbn; now rewrite IH.
Qed.

Lemma apply_calls_fired i calls s :
  fired i (m_trace (fold_left apply_call calls s)) = fired i (m_trace s).
Proof.
  rewrite <- fired_engine_calls, <- (fired_engine_calls i (m_trace s)).
  f_equal. apply apply_calls_frame.
Qed.

Lemma apply_calls_timer i calls : forall s,
  i = 0 \/ i = 1 ->
  existsb (sets_timer i) calls = false ->
  timer i (fold_left apply_call calls s) = timer i s.
Proof.
  induction calls as [|c r IH]; intros s Hi Hq; cbn in *; [reflexivity|].
  apply orb_false_iff in Hq. destruct Hq as [Hc Hr].
  rewrite IH by assumption.
  destruct c as [t d|c|a]; cbn in *; try reflexivity.
  unfold ymfm_set_timer, set_timer, timer.
  pose proof (u32_range t).
  destruct (2 <=? u32 t) eqn:H2; [reflexivity|].
  apply Z.leb_gt in H2. apply Z.eqb_neq in Hc.
  destruct Hi; subst i.
  - destruct (u32 t =? 0) eqn:H0; [apply Z.eqb_eq in H0; lia | reflexivity].
  - destruct (u32 t =? 0) eqn:H0; [reflexivity | apply Z.eqb_neq in H0; lia].
Qed.

(** *** The clock model *)

Lemma timer_expired_timer i j s :
  i = 0 \/ i = 1 -> no_rearm i ->
  timer i (timer_expired j s) = timer i s.
Proof.
  intros Hi Hq. unfold timer_expired, call_engine.
  specialize (Hq j (m_chip s)).
  destruct (engine_timer_expired j (m_chip s)) as [c calls]. cbn in Hq.
  now rewrite apply_calls_timer.
Qed.

Lemma timer_expired_fired i j s :
  fired i (m_trace (timer_expired j s)) =
  (fired i (m_trace s) + Nat.b2n (j =? i)%Z)%nat.
Proof.
  unfold timer_expired, call_engine.
  destruct (engine_timer_expired j (m_chip s)) as [c calls].
  rewrite apply_calls_fired.
  change (m_trace (log (EvTimerExpired j) (set_chip c s)))
    with (m_trace s ++ [EvTimerExpired j]).
  rewrite fired_app. f_equal.
  unfold fired. cbn. now destruct (j =? i).
Qed.

Lemma timer_set_timer i j v s :
  i = 0 \/ i = 1 -> j = 0 \/ j = 1 ->
  timer i (set_timer j v s) = if i =? j then v else timer i s.
Proof. intros [-> | ->] [-> | ->]; reflexivity. Qed.

Lemma trace_set_timer j v s : m_trace (set_timer j v s) = m_trace s.
Proof. unfold set_timer. now destruct (j =? 0). Qed.

(** One turn of the timer loop, seen from timer [i]. *)
Lemma update_timer_spec i j ticks s :
  i = 0 \/ i = 1 -> j = 0 \/ j = 1 -> no_rearm i ->
  let s' := update_timer ticks s j in
  let t := timer i s in
  timer i s' =
    (if (i =? j) && (0 <? t) then Z.max 0 (s32 (t - ticks)) else t) /\
  fired i (m_trace s') =
    (fired i (m_trace s)
     + Nat.b2n ((i =? j) && (0 <? t) && (Z.max 0 (s32 (t - ticks)) <=? 0))%Z)%nat.
Proof.
  intros Hi Hj Hq. cbv zeta. unfold update_timer.
  destruct (0 <? timer j s) eqn:Hpos.
  - rewrite timer_set_timer by (assumption || auto).
    rewrite Z.eqb_refl.
    destruct (Z.max 0 (s32 (timer j s - ticks)) <=? 0) eqn:Hz.
    + rewrite timer_expired_timer, timer_expired_fired by assumption.
      rewrite timer_set_timer, trace_set_timer by assumption.
      rewrite (Z.eqb_sym j i).
      destruct (i =? j) eqn:Hij; cbn.
      * apply Z.eqb_eq in Hij. subst j. rewrite Hpos, Hz. split; reflexivity.
      * split; reflexivity.
    + rewrite timer_set_timer, trace_set_timer by assumption.
      destruct (i =? j) eqn:Hij; cbn.
      * apply Z.eqb_eq in Hij. subst j. rewrite Hpos, Hz. split; [reflexivity|].
        cbn. now rewrite Nat.add_0_r.
      * split; [reflexivity|]. now rewrite Nat.add_0_r.
  - destruct (i =? j) eqn:Hij; cbn.
    + apply Z.eqb_eq in Hij. subst j. rewrite Hpos. cbn. now rewrite Nat.add_0_r.
    + now rewrite Nat.add_0_r.
Qed.

(** The whole loop over both timers, seen from timer [i]. *)
Lemma update_timers_spec i ticks s :
  i = 0 \/ i = 1 -> no_rearm i ->
  let s' := fold_left (update_timer ticks) [0; 1] s in
  let t := timer i s in
  timer i s' = (if 0 <? t then Z.max 0 (s32 (t - ticks)) else t) /\
  fired i (m_trace s') =
    (fired i (m_trace s)
     + Nat.b2n ((0 <? t) && (Z.max 0 (s32 (t - ticks)) <=? 0))%Z)%nat.
Proof.
  intros Hi Hq. cbv zeta. cbn [fold_left].
  destruct (update_timer_spec i 0 ticks s Hi (or_introl eq_refl) Hq) as [T0 F0].
  destruct (update_timer_spec i 1 ticks (update_timer ticks s 0) Hi
              (or_intror eq_refl) Hq) as [T1 F1].
  rewrite T1, F1, T0, F0. clear T0 T1 F0 F1.
  destruct Hi; subst i; cbn [Z.eqb andb Nat.b2n Pos.eqb].
  - now rewrite Nat.add_0_r.
  - now rewrite Nat.add_0_r.
Qed.

(** An advance by [a], seen from a timer [i] whose counter is [t]: a counter
    that is not positive is left alone and nothing fires; a positive one loses
    the ticks of the advance, stops at 0, and the engine is told exactly when
    it stops there. *)
Lemma advance_clocks_spec i a s :
  i = 0 \/ i = 1 -> no_rearm i -> advance_ok a ->
  -2147483648 <= timer i s < 2147483648 ->
  let s' := advance_clocks s a in
  let t := timer i s in
  timer i s' = (if 0 <? t then Z.max 0 (t - advance_ticks a) else t) /\
  fired i (m_trace s') =
    (fired i (m_trace s) + Nat.b2n ((0 <? t) && (t <=? advance_ticks a))%Z)%nat.
Proof.
  intros Hi Hq Ha Hr. cbv zeta.
  assert (Hgen : forall ticks s1,
    0 <= ticks < 2147483648 -> timer i s1 = timer i s -> m_trace s1 = m_trace s ->
    let s' := fold_left (update_timer ticks) [0; 1] s1 in
    timer i s' = (if 0 <? timer i s then Z.max 0 (timer i s - ticks) else timer i s) /\
    fired i (m_trace s') =
      (fired i (m_trace s) + Nat.b2n ((0 <? timer i s) && (timer i s <=? ticks))%Z)%nat).
  { intros ticks s1 Ht Hs1 Htr. cbv zeta.
    destruct (update_timers_spec i ticks s1 Hi Hq) as [T F].
    rewrite T, F, Hs1, Htr.
    destruct (0 <? timer i s) eqn:Hpos; [|split; reflexivity].
    apply Z.ltb_lt in Hpos.
    rewrite s32_small by lia. split; [reflexivity|].
    do 2 f_equal. cbn [andb].
    destruct (timer i s <=? ticks) eqn:Hle.
    - apply Z.leb_le in Hle. apply Z.leb_le. lia.
    - apply Z.leb_gt in Hle. apply Z.leb_gt. lia. }
  destruct a as [|cycles]; cbn [advance_clocks advance_ticks advance_ok] in *.
  - unfold update_clocks. apply Hgen; [lia | | reflexivity].
    destruct Hi; subst i; reflexivity.
  - unfold update_clocks_cycles. rewrite (s32_small (64 * cycles)) by lia.
    apply Hgen; [lia | | reflexivity].
    destruct Hi; subst i; reflexivity.
Qed.

Lemma total_ticks_nonneg l : Forall advance_ok l -> 0 <= total_ticks l.
Proof.
  induction 1 as [|a r Ha _ IH]; cbn [total_ticks]; [lia|].
  destruct a; cbn [advance_ticks advance_ok] in *; lia.
Qed.

(** A run of advances, seen from a timer [i] whose counter is [t]. *)
Lemma advances_spec i l : forall s,
  i = 0 \/ i = 1 -> no_rearm i -> Forall advance_ok l ->
  -2147483648 <= timer i s < 2147483648 ->
  let s' := fold_left advance_clocks l s in
  let t := timer i s in
  timer i s' = (if 0 <? t then Z.max 0 (t - total_ticks l) else t) /\
  fired i (m_trace s') =
    (fired i (m_trace s)
     + Nat.b2n ((0 <? t) && (t <=? total_ticks l))%Z)%nat.
Proof.
  induction l as [|a r IH]; intros s Hi Hq Hl Hr; cbv zeta; cbn [fold_left total_ticks].
  - destruct (0 <? timer i s) eqn:Hpos; cbn.
    + apply Z.ltb_lt in Hpos. split; [lia|].
      replace (timer i s <=? 0) with false by (symmetry; apply Z.leb_gt; lia).
      cbn. now rewrite Nat.add_0_r.
    + now rewrite Nat.add_0_r.
  - inversion Hl as [|? ? Ha Hr']; subst.
    pose proof (total_ticks_nonneg r Hr') as Hnn.
    assert (Hat : 0 <= advance_ticks a)
      by (destruct a; cbn [advance_ticks advance_ok] in *; lia).
    destruct (advance_clocks_spec i a s Hi Hq Ha Hr) as [T F].
    assert (Hr1 : -2147483648 <= timer i (advance_clocks s a) < 2147483648).
    { rewrite T. destruct (0 <? timer i s) eqn:Hpos; [|lia].
      apply Z.ltb_lt in Hpos. lia. }
    destruct (IH (advance_clocks s a) Hi Hq Hr' Hr1) as [T' F'].
    rewrite T', F', T, F. clear T T' F F' IH.
    destruct (0 <? timer i s) eqn:Hpos; cbn [andb Nat.b2n].
    + apply Z.ltb_lt in Hpos.
      destruct (timer i s <=? advance_ticks a) eqn:H1.
      * apply Z.leb_le in H1.
        rewrite Z.max_l by lia. cbn [Z.ltb Z.compare andb Nat.b2n].
        replace (timer i s <=? advance_ticks a + total_ticks r) with true
          by (symmetry; apply Z.leb_le; lia).
        cbn. split; lia.
      * apply Z.leb_gt in H1.
        rewrite Z.max_r by lia.
        replace (0 <? timer i s - advance_ticks a) with true
          by (symmetry; apply Z.ltb_lt; lia).
        cbn [andb Nat.b2n]. split; [lia|].
        rewrite Nat.add_0_r. do 2 f_equal.
        destruct (timer i s <=? advance_ticks a + total_ticks r) eqn:H2.
        -- apply Z.leb_le in H2. apply Z.leb_le. lia.
        -- apply Z.leb_gt in H2. apply Z.leb_gt. lia.
    + rewrite Hpos. cbn. split; [reflexivity | lia].
Qed.

Lemma ymfm_set_timer_timer i d s :
  i = 0 \/ i = 1 ->
  timer i (ymfm_set_timer i d s) = d /\
  m_trace (ymfm_set_timer i d s) = m_trace s.
Proof. intros [-> | ->]; split; reflexivity. Qed.

(** *** The clock model with an engine that may rearm an expired timer *)

Lemma no_rearm_cross i : no_rearm i -> no_cross_rearm i.
Proof. intros H j c _ _. apply H. Qed.

Lemma timer_expired_other i j s :
  i = 0 \/ i = 1 -> j = 0 \/ j = 1 -> no_cross_rearm i -> j <> i ->
  timer i (timer_expired j s) = timer i s.
Proof.
  intros Hi Hj01 Hq Hj. unfold timer_expired, call_engine.
  specialize (Hq j (m_chip s) Hj01 Hj).
  destruct (engine_timer_expired j (m_chip s)) as [c calls]. cbn in Hq.
  now rewrite apply_calls_timer.
Qed.

(** One turn of the timer loop, seen from timer [i]: whether its handler is
    called, and its counter when it is not. *)
Lemma update_timer_cross i j ticks s :
  i = 0 \/ i = 1 -> j = 0 \/ j = 1 -> no_cross_rearm i ->
  let s' := update_timer ticks s j in
  let t := timer i s in
  let f := ((i =? j) && (0 <? t) && (Z.max 0 (s32 (t - ticks)) <=? 0))%Z in
  fired i (m_trace s') = (fired i (m_trace s) + Nat.b2n f)%nat /\
  (f = false ->
   timer i s' = if (i =? j) && (0 <? t) then Z.max 0 (s32 (t - ticks)) else t).
Proof.
  intros Hi Hj Hq. cbv zeta. unfold update_timer.
  destruct (i =? j) eqn:Hij; cbn [andb].
  - apply Z.eqb_eq in Hij. subst j.
    destruct (0 <? timer i s) eqn:Hpos; cbn [andb Nat.b2n].
    + rewrite timer_set_timer by assumption. rewrite Z.eqb_refl.
      destruct (Z.max 0 (s32 (timer i s - ticks)) <=? 0) eqn:Hz; cbn [Nat.b2n].
      * rewrite timer_expired_fired, trace_set_timer, Z.eqb_refl.
        split; [reflexivity | discriminate].
      * rewrite trace_set_timer, timer_set_timer, Z.eqb_refl by assumption.
        split; [now rewrite Nat.add_0_r | reflexivity].
    + split; [now rewrite Nat.add_0_r | reflexivity].
  - apply Z.eqb_neq in Hij. cbn [Nat.b2n]. rewrite Nat.add_0_r.
    assert (Hji : (j =? i) = false) by (apply Z.eqb_neq; congruence).
    assert (Hset : forall v, timer i (set_timer j v s) = timer i s).
    { intros v. rewrite timer_set_timer by assumption.
      replace (i =? j) with false by (symmetry; apply Z.eqb_neq; assumption).
      reflexivity. }
    destruct (0 <? timer j s); [|split; reflexivity].
    destruct (timer j (set_timer j _ s) <=? 0).
    + rewrite timer_expired_fired, timer_expired_other, trace_set_timer, Hset, Hji
        by (assumption || congruence).
      cbn [Nat.b2n]. rewrite Nat.add_0_r. split; reflexivity.
    + rewrite trace_set_timer, Hset. split; reflexivity.
Qed.

Lemma update_timers_cross i ticks s :
  i = 0 \/ i = 1 -> no_cross_rearm i ->
  let s' := fold_left (update_timer ticks) [0; 1] s in
  let t := timer i s in
  let f := ((0 <? t) && (Z.max 0 (s32 (t - ticks)) <=? 0))%Z in
  fired i (m_trace s') = (fired i (m_trace s) + Nat.b2n f)%nat /\
  (f = false -> timer i s' = if 0 <? t then Z.max 0 (s32 (t - ticks)) else t).
Proof.
  intros Hi Hq. cbv zeta. cbn [fold_left].
  destruct (update_timer_cross i 0 ticks s Hi (or_introl eq_refl) Hq) as [F0 T0].
  destruct (update_timer_cross i 1 ticks (update_timer ticks s 0) Hi
              (or_intror eq_refl) Hq) as [F1 T1].
  destruct Hi; subst i; cbn [Z.eqb Pos.eqb andb Nat.b2n] in *.
  - rewrite F1, F0, Nat.add_0_r. split; [reflexivity|].
    intros Hf. rewrite (T1 eq_refl). now apply T0.
  - rewrite Nat.add_0_r in F0. rewrite F1, F0, (T0 eq_refl).
    split; [reflexivity|]. intros Hf. rewrite T1 by (rewrite (T0 eq_refl); exact Hf).
    now rewrite (T0 eq_refl).
Qed.

(** An advance, seen from timer [i] with counter [t]: the handler is called
    once if [t] is positive and the advance covers it, and not at all
    otherwise; where it is not called, a positive counter loses the ticks
    and any other counter stays. *)
Lemma advance_clocks_cross i a s :
  i = 0 \/ i = 1 -> no_cross_rearm i -> advance_ok a ->
  -2147483648 <= timer i s < 2147483648 ->
  let s' := advance_clocks s a in
  let t := timer i s in
  let f := ((0 <? t) && (t <=? advance_ticks a))%Z in
  fired i (m_trace s') = (fired i (m_trace s) + Nat.b2n f)%nat /\
  (f = false -> timer i s' = if 0 <? t then t - advance_ticks a else t).
Proof.
  intros Hi Hq Ha Hr. cbv zeta.
  assert (Hgen : forall ticks s1,
    0 <= ticks < 2147483648 -> timer i s1 = timer i s -> m_trace s1 = m_trace s ->
    let s' := fold_left (update_timer ticks) [0; 1] s1 in
    let f := ((0 <? timer i s) && (timer i s <=? ticks))%Z in
    fired i (m_trace s') = (fired i (m_trace s) + Nat.b2n f)%nat /\
    (f = false -> timer i s' = if 0 <? timer i s then timer i s - ticks else timer i s)).
  { intros ticks s1 Ht Hs1 Htr. cbv zeta.
    destruct (update_timers_cross i ticks s1 Hi Hq) as [F T].
    rewrite Hs1, Htr in *.
    destruct (0 <? timer i s) eqn:Hpos; cbn [andb] in *.
    - apply Z.ltb_lt in Hpos. rewrite s32_small in * by lia.
      assert (Hb : (Z.max 0 (timer i s - ticks) <=? 0) = (timer i s <=? ticks)).
      { destruct (timer i s <=? ticks) eqn:Hle.
        - apply Z.leb_le in Hle. apply Z.leb_le. lia.
        - apply Z.leb_gt in Hle. apply Z.leb_gt. lia. }
      rewrite Hb in *. split; [exact F|].
      intros Hf. rewrite (T Hf). apply Z.leb_gt in Hf. lia.
    - split; [exact F | exact T]. }
  destruct a as [|cycles]; cbn [advance_clocks advance_ticks advance_ok] in *.
  - unfold update_clocks. apply Hgen; [lia | | reflexivity].
    destruct Hi; subst i; reflexivity.
  - unfold update_clocks_cycles. rewrite (s32_small (64 * cycles)) by lia.
    apply Hgen; [lia | | reflexivity].
    destruct Hi; subst i; reflexivity.
Qed.

(** A counter that is not positive stays as it is, whatever the advances,
    and its timer does not fire. *)
Lemma advances_idle i l : forall s,
  i = 0 \/ i = 1 -> no_cross_rearm i -> timer i s <= 0 ->
  timer i (fold_left advance_clocks l s) = timer i s /\
  fired i (m_trace (fold_left advance_clocks l s)) = fired i (m_trace s).
Proof.
  induction l as [|a r IH]; intros s Hi Hq Ht; cbn [fold_left]; [split; reflexivity|].
  assert (Hstep : timer i (advance_clocks s a) = timer i s /\
                  fired i (m_trace (advance_clocks s a)) = fired i (m_trace s)).
  { assert (Hgen : forall ticks s1,
      timer i s1 = timer i s -> m_trace s1 = m_trace s ->
      timer i (fold_left (update_timer ticks) [0; 1] s1) = timer i s /\
      fired i (m_trace (fold_left (update_timer ticks) [0; 1] s1)) = fired i (m_trace s)).
    { intros ticks s1 Hs1 Htr.
      destruct (update_timers_cross i ticks s1 Hi Hq) as [F T].
      rewrite Hs1, Htr in *.
      replace (0 <? timer i s) with false in * by (symmetry; apply Z.ltb_ge; lia).
      cbn [andb Nat.b2n] in *. rewrite (T eq_refl), F. split; [reflexivity | lia]. }
    destruct a as [|cycles]; cbn [advance_clocks].
    - apply Hgen; [|reflexivity]. destruct Hi; subst i; reflexivity.
    - apply Hgen; [|reflexivity]. destruct Hi; subst i; reflexivity. }
  destruct Hstep as [T F].
  destruct (IH (advance_clocks s a) Hi Hq ltac:(lia)) as [T' F'].
  split; congruence.
Qed.

(** A positive counter that the advances do not use up: it loses their
    ticks and its timer does not fire. *)
Lemma advances_running i l : forall s,
  i = 0 \/ i = 1 -> no_cross_rearm i -> Forall advance_ok l ->
  timer i s < 2147483648 -> total_ticks l < timer i s ->
  timer i (fold_left advance_clocks l s) = timer i s - total_ticks l /\
  fired i (m_trace (fold_left advance_clocks l s)) = fired i (m_trace s).
Proof.
  induction l as [|a r IH]; intros s Hi Hq Hl Hr Ht; cbn [fold_left total_ticks] in *.
  - split; [lia | reflexivity].
  - inversion Hl as [|? ? Ha Hr']; subst.
    pose proof (total_ticks_nonneg r Hr') as Hnn.
    assert (Hat : 0 <= advance_ticks a)
      by (destruct a; cbn [advance_ticks advance_ok] in *; lia).
    destruct (advance_clocks_cross i a s Hi Hq Ha ltac:(lia)) as [F T].
    replace (0 <? timer i s) with true in * by (symmetry; apply Z.ltb_lt; lia).
    replace (timer i s <=? advance_ticks a) with false in *
      by (symmetry; apply Z.leb_gt; lia).
    cbn [andb Nat.b2n] in *. specialize (T eq_refl).
    destruct (IH (advance_clocks s a) Hi Hq Hr' ltac:(lia) ltac:(lia)) as [T' F'].
    rewrite T', F', T, F. split; lia.
Qed.

(** C3 (as amended).  A timer [i] of the two, armed with a positive duration
    [d], is counted down by 64 ticks per generated sample.  While the ticks
    advanced stay below [d] the counter is [d] minus those ticks and
    [engine_timer_expired(i)] is not called; the advance that brings the
    ticks to [d] or beyond calls it exactly once.  With an engine that does
    not set the timer anew on expiry, the counter then stays 0 and no later
    advance calls the handler again: in all, one call once the ticks have
    reached [d], none before. *)
Theorem timer_fires_once_per_arming i d s l :
  i = 0 \/ i = 1 -> no_cross_rearm i -> 0 < d < 2147483648 -> Forall advance_ok l ->
  let s' := fold_left advance_clocks l (ymfm_set_timer i d s) in
  (total_ticks l < d ->
   timer i s' = d - total_ticks l /\ fired i (m_trace s') = fired i (m_trace s)) /\
  (forall a, advance_ok a -> total_ticks l < d <= total_ticks l + advance_ticks a ->
   fired i (m_trace (advance_clocks s' a)) = S (fired i (m_trace s))) /\
  (no_rearm i ->
   timer i s' = Z.max 0 (d - total_ticks l) /\
   fired i (m_trace s') = (fired i (m_trace s) + Nat.b2n (d <=? total_ticks l)%Z)%nat).
Proof.
  intros Hi Hq Hd Hl. cbv zeta.
  destruct (ymfm_set_timer_timer i d s Hi) as [T0 F0].
  assert (Hrun : total_ticks l < d ->
    timer i (fold_left advance_clocks l (ymfm_set_timer i d s)) = d - total_ticks l /\
    fired i (m_trace (fold_left advance_clocks l (ymfm_set_timer i d s)))
    = fired i (m_trace s)).
  { intros Hlt.
    destruct (advances_running i l (ymfm_set_timer i d s) Hi Hq Hl) as [T F];
      rewrite ?T0; try lia.
    rewrite T, F, T0, F0. split; reflexivity. }
  split; [exact Hrun|]. split.
  - intros a Ha [Hlt Hge]. destruct (Hrun Hlt) as [T F].
    pose proof (total_ticks_nonneg l Hl) as Hnn.
    destruct (advance_clocks_cross i a (fold_left advance_clocks l (ymfm_set_timer i d s))
                Hi Hq Ha) as [F' _]; [rewrite T; lia|].
    rewrite F', T, F.
    replace (0 <? d - total_ticks l) with true by (symmetry; apply Z.ltb_lt; lia).
    replace (d - total_ticks l <=? advance_ticks a) with true
      by (symmetry; apply Z.leb_le; lia).
    cbn [andb Nat.b2n]. lia.
  - intros Hnr.
    destruct (advances_spec i l (ymfm_set_timer i d s) Hi Hnr Hl) as [T F].
    { rewrite T0. lia. }
    rewrite T, F, T0, F0.
    replace (0 <? d) with true by (symmetry; apply Z.ltb_lt; lia).
    split; reflexivity.
Qed.

(** C10.  Arming timer [i] with duration 0 stores 0 in its counter; no later
    advance of the clock calls [engine_timer_expired(i)] and the counter
    stays 0, whatever the engine does when the other timer expires short of
    setting this one.  The same holds for a negative duration, the disarm of
    [ymfm_set_timer]. *)
Theorem timer_armed_with_zero_never_fires i s l :
  i = 0 \/ i = 1 -> no_cross_rearm i ->
  (let s' := fold_left advance_clocks l (ymfm_set_timer i 0 s) in
   timer i s' = 0 /\ fired i (m_trace s') = fired i (m_trace s)) /\
  (forall d, d < 0 ->
   let s' := fold_left advance_clocks l (ymfm_set_timer i d s) in
   timer i s' = d /\ fired i (m_trace s') = fired i (m_trace s)).
Proof.
  intros Hi Hq. split; [|intros d Hd]; cbv zeta.
  - destruct (ymfm_set_timer_timer i 0 s Hi) as [T0 F0].
    destruct (advances_idle i l (ymfm_set_timer i 0 s) Hi Hq) as [T F]; [lia|].
    split; congruence.
  - destruct (ymfm_set_timer_timer i d s Hi) as [T0 F0].
    destruct (advances_idle i l (ymfm_set_timer i d s) Hi Hq) as [T F]; [lia|].
    split; congruence.
Qed.

(** *** Calls into the engine *)

Lemma engine_calls_app t1 t2 : engine_calls (t1 ++ t2) = engine_calls t1 ++ engine_calls t2.
Proof. apply filter_app. Qed.

Lemma call_engine_spec e f s :
  is_engine_call e = true ->
  let s' := call_engine e f s in
  m_chip s' = fst (f (m_chip s)) /\ m_backbuffer s' = m_backbuffer s /\
  m_backbuffer_used s' = m_backbuffer_used s /\
  m_write_queue s' = m_write_queue s /\
  m_backbuffer_resampled s' = m_backbuffer_resampled s /\
  engine_calls (m_trace s') = engine_calls (m_trace s) ++ [e].
Proof.
  intros He. cbv zeta. unfold call_engine.
  destruct (f (m_chip s)) as [c calls].
  destruct (apply_calls_frame calls (log e (set_chip c s))) as (A & B & C & D & F & G).
  rewrite A, B, C, D, F, G.
  change (m_trace (log e (set_chip c s))) with (m_trace s ++ [e]).
  rewrite engine_calls_app.
  assert (He' : engine_calls [e] = [e]) by (unfold engine_calls; cbn; now rewrite He).
  rewrite He'. repeat split.
Qed.

(** C4.  A value written to the data port, after its address went to the
    address port, takes one of three ways.  Chip not busy: the engine gets
    [write_address] then [write_data] at once, and the latch entry holds the
    value.  Chip busy, strict timing: the engine gets nothing, the queue is
    as before, and one warning is printed.  Chip busy, no strict timing: the
    pair goes to the back of the write queue and the engine gets nothing. *)
Theorem write_path addr value g :
  let g1 := YM_write 1 value (YM_write 0 addr g) in
  let s := Ym_interface g in
  let s1 := Ym_interface g1 in
  if ymfm_is_busy s then
    if YM_is_strict g then
      m_chip s1 = m_chip s /\ m_write_queue s1 = m_write_queue s /\
      m_trace s1 = m_trace s ++
        [EvPrintf "WARN: Write to YM2151 ($%02X <- $%02X) while busy."%string [addr; value]]
    else
      m_write_queue s1 = m_write_queue s ++ [(addr, value)] /\
      m_chip s1 = m_chip s /\ m_trace s1 = m_trace s
  else
    engine_calls (m_trace s1) =
      engine_calls (m_trace s) ++ [EvWriteAddress addr; EvWriteData value false] /\
    m_chip s1 = fst (chip_write_data value false (fst (chip_write_address addr (m_chip s)))) /\
    Ym_registers g1 addr = value /\ m_write_queue s1 = m_write_queue s.
Proof.
  cbv zeta. unfold YM_write, YM_is_strict.
  cbn -[write engine_calls ymfm_is_busy chip_write_data chip_write_address].
  unfold write.
  destruct (ymfm_is_busy (Ym_interface g)) eqn:Hb.
  - destruct (Ym_strict_busy g); repeat split.
  - rewrite Z.eqb_refl. unfold write_data, write_address.
    set (s0 := call_engine (EvWriteAddress addr) (chip_write_address addr) (Ym_interface g)).
    destruct (call_engine_spec (EvWriteAddress addr) (chip_write_address addr)
                (Ym_interface g) eq_refl) as (A & _ & _ & D & _ & G).
    destruct (call_engine_spec (EvWriteData value false) (chip_write_data value false)
                s0 eq_refl) as (A' & _ & _ & D' & _ & G').
    fold s0 in A, D, G.
    rewrite G', G, A', A, D', D, <- app_assoc. repeat split.
Qed.

(** *** The register latch *)

Lemma ym_step_latch g o :
  Last_address (ym_step g o) =
    match o with
    | OpWrite offset value =>
        if negb (Z.land (u8 offset) 1 =? 0) then Last_address g else u8 value
    | _ => Last_address g
    end /\
  forall a, Ym_registers (ym_step g o) a =
    match o with
    | OpWrite offset value =>
        if negb (Z.land (u8 offset) 1 =? 0)
        then (if a =? Last_address g then u8 value else Ym_registers g a)
        else Ym_registers g a
    | OpDebugWrite addr value => if a =? u8 addr then u8 value else Ym_registers g a
    | OpReset => reset_registers a
    | _ => Ym_registers g a
    end.
Proof.
  destruct o; cbn [ym_step]; try (split; [|intros a]; reflexivity).
  - unfold YM_write. destruct (negb (Z.land (u8 offset) 1 =? 0)); split; reflexivity.
  - unfold YM_prerender.
    destruct (0 <? samples_to_render (u32 clocks) g); split; reflexivity.
  - unfold YM_render.
    destruct (generate _ _ _ _) as [b i]. split; reflexivity.
Qed.

(** The latch along a sequence of operations. *)
Lemma ym_run_latch ops : forall g a,
  Ym_registers (ym_run ops g) a = latch_value a (Last_address g) (Ym_registers g a) ops.
Proof.
  unfold ym_run.
  induction ops as [|o r IH]; intros g a; cbn [fold_left latch_value]; [reflexivity|].
  rewrite IH. destruct (ym_step_latch g o) as [HL HR]. rewrite HL, HR.
  destruct o; try reflexivity.
  destruct (negb (Z.land (u8 offset) 1 =? 0)); reflexivity.
Qed.

(** C5 (as amended).  After any sequence of operations every latch entry
    holds the value last submitted for its address through the data port or
    through the debug write since the last reset, or else the reset default
    (or what it held at the start); whether the engine was busy, and whether
    the port write was applied, queued or dropped, plays no part. *)
Theorem latch_holds_last_submitted ops g a :
  Ym_registers (ym_run ops g) a = latch_value a (Last_address g) (Ym_registers g a) ops.
Proof. apply ym_run_latch. Qed.

(** C6 (as amended).  The public debug read returns the latch entry of the
    address: the value last submitted for it, whatever the engine holds; it
    is the same for any state of the interface and its engine.  The engine's
    own storage is read by the [debug_read] method of the interface, which
    the public operation does not call. *)
Theorem public_debug_read_returns_latch ops g a :
  YM_debug_read a (ym_run ops g) = latch_value a (Last_address g) (Ym_registers g a) ops /\
  (forall i, YM_debug_read a (set_interface i g) = YM_debug_read a g) /\
  debug_read a (Ym_interface g) = chip_get_register_data (m_chip (Ym_interface g)) a.
Proof.
  split; [|split].
  - unfold YM_debug_read. apply ym_run_latch.
  - intros i. reflexivity.
  - reflexivity.
Qed.

(** *** Production into the backbuffer *)

Lemma production_calls_app t1 t2 :
  production_calls (t1 ++ t2) = production_calls t1 ++ production_calls t2.
Proof. apply filter_app. Qed.

Lemma production_engine_calls tr : production_calls (engine_calls tr) = production_calls tr.
Proof.
  unfold production_calls, engine_calls.
  induction tr as [|e r IH]; cbn; [reflexivity|].
  destruct e; cbn; now rewrite IH.
Qed.

Lemma production_calls_ext t t' d :
  engine_calls t' = engine_calls t ++ d ->
  production_calls t' = production_calls t ++ production_calls d.
Proof.
  intros H. rewrite <- (production_engine_calls t'), H, production_calls_app.
  now rewrite production_engine_calls.
Qed.

Lemma generated_app t1 t2 : generated (t1 ++ t2) = generated t1 + generated t2.
Proof.
  induction t1 as [|e r IH]; cbn; [reflexivity|].
  destruct e; rewrite IH; lia.
Qed.

Lemma generated_production tr : generated (production_calls tr) = generated tr.
Proof.
  unfold production_calls.
  induction tr as [|e r IH]; cbn; [reflexivity|].
  destruct e; cbn; now rewrite IH.
Qed.

Lemma store_samples_below l : forall off b k, k < off -> store_samples off l b k = b k.
Proof.
  induction l as [|x r IH]; intros off b k Hk; cbn; [reflexivity|].
  rewrite IH by lia.
  replace (k =? off) with false by (symmetry; apply Z.eqb_neq; lia). reflexivity.
Qed.

Lemma generate_into_backbuffer_spec n s :
  let s' := generate_into_backbuffer n s in
  m_backbuffer_used s' = m_backbuffer_used s /\
  m_write_queue s' = m_write_queue s /\
  m_backbuffer_resampled s' = m_backbuffer_resampled s /\
  (forall k, k < m_backbuffer_used s -> m_backbuffer s' k = m_backbuffer s k) /\
  engine_calls (m_trace s') = engine_calls (m_trace s) ++ [EvGenerate n].
Proof.
  cbv zeta. unfold generate_into_backbuffer.
  destruct (chip_generate n (m_chip s)) as [[c out] calls].
  match goal with |- context [fold_left apply_call calls ?s0] =>
    destruct (apply_calls_frame calls s0) as (_ & B & C & D & F & G)
  end.
  rewrite B, C, D, F, G. cbn [m_backbuffer_used m_write_queue m_backbuffer_resampled
    m_backbuffer log set_chip set_backbuffer m_trace].
  rewrite engine_calls_app.
  repeat split. intros k Hk. now apply store_samples_below.
Qed.

Lemma set_timer_frame j v s :
  m_backbuffer (set_timer j v s) = m_backbuffer s /\
  m_backbuffer_used (set_timer j v s) = m_backbuffer_used s /\
  m_write_queue (set_timer j v s) = m_write_queue s /\
  m_backbuffer_resampled (set_timer j v s) = m_backbuffer_resampled s.
Proof. unfold set_timer. destruct (j =? 0); repeat split. Qed.

Lemma update_timer_frame ticks s i :
  let s' := update_timer ticks s i in
  m_backbuffer s' = m_backbuffer s /\
  m_backbuffer_used s' = m_backbuffer_used s /\
  m_write_queue s' = m_write_queue s /\
  m_backbuffer_resampled s' = m_backbuffer_resampled s /\
  production_calls (m_trace s') = production_calls (m_trace s).
Proof.
  cbv zeta. unfold update_timer.
  destruct (0 <? timer i s); [|repeat split].
  set (s1 := set_timer i (Z.max 0 (s32 (timer i s - ticks))) s).
  destruct (set_timer_frame i (Z.max 0 (s32 (timer i s - ticks))) s) as (B & C & D & F).
  fold s1 in B, C, D, F.
  assert (T : m_trace s1 = m_trace s) by apply trace_set_timer.
  destruct (timer i s1 <=? 0).
  - unfold timer_expired.
    destruct (call_engine_spec (EvTimerExpired i) (engine_timer_expired i) s1 eq_refl)
      as (_ & B' & C' & D' & F' & G').
    rewrite B', C', D', F', (production_calls_ext _ _ _ G'), T.
    cbn. rewrite app_nil_r. repeat split; assumption.
  - rewrite T. repeat split; assumption.
Qed.

Lemma update_timers_frame ticks s :
  let s' := fold_left (update_timer ticks) [0; 1] s in
  m_backbuffer s' = m_backbuffer s /\
  m_backbuffer_used s' = m_backbuffer_used s /\
  m_write_queue s' = m_write_queue s /\
  m_backbuffer_resampled s' = m_backbuffer_resampled s /\
  production_calls (m_trace s') = production_calls (m_trace s).
Proof.
  cbv zeta. cbn [fold_left].
  destruct (update_timer_frame ticks s 0) as (B & C & D & F & G).
  destruct (update_timer_frame ticks (update_timer ticks s 0) 1) as (B' & C' & D' & F' & G').
  repeat split; congruence.
Qed.

Lemma update_clocks_frame s :
  let s' := update_clocks s in
  m_backbuffer s' = m_backbuffer s /\
  m_backbuffer_used s' = m_backbuffer_used s /\
  m_write_queue s' = m_write_queue s /\
  m_backbuffer_resampled s' = m_backbuffer_resampled s /\
  production_calls (m_trace s') = production_calls (m_trace s).
Proof.
  cbv zeta. unfold update_clocks.
  apply (update_timers_frame 64 (set_busy_timer (Z.max 0 (s32 (m_busy_timer s - 64))) s)).
Qed.

Lemma update_clocks_cycles_frame cycles s :
  let s' := update_clocks_cycles cycles s in
  m_backbuffer s' = m_backbuffer s /\
  m_backbuffer_used s' = m_backbuffer_used s /\
  m_write_queue s' = m_write_queue s /\
  m_backbuffer_resampled s' = m_backbuffer_resampled s /\
  production_calls (m_trace s') = production_calls (m_trace s).
Proof.
  cbv zeta. unfold update_clocks_cycles.
  apply (update_timers_frame (s32 (64 * cycles))
           (set_busy_timer (Z.max 0 (s32 (m_busy_timer s - s32 (64 * cycles)))) s)).
Qed.

(** The body of the drain loop for the front entry [(a, v)], before the pop. *)
Lemma drain_body_spec a v s :
  let s3 := update_clocks (generate_into_backbuffer 1
              (write_data v false (write_address a s))) in
  m_backbuffer_used s3 = m_backbuffer_used s /\
  m_write_queue s3 = m_write_queue s /\
  m_backbuffer_resampled s3 = m_backbuffer_resampled s /\
  (forall k, k < m_backbuffer_used s -> m_backbuffer s3 k = m_backbuffer s k) /\
  production_calls (m_trace s3) = production_calls (m_trace s) ++ drained_write (a, v).
Proof.
  cbv zeta. unfold write_data, write_address.
  set (s0 := call_engine (EvWriteAddress a) (chip_write_address a) s).
  set (s1 := call_engine (EvWriteData v false) (chip_write_data v false) s0).
  set (s2 := generate_into_backbuffer 1 s1).
  destruct (call_engine_spec (EvWriteAddress a) (chip_write_address a) s eq_refl)
    as (_ & B0 & C0 & D0 & F0 & G0). fold s0 in B0, C0, D0, F0, G0.
  destruct (call_engine_spec (EvWriteData v false) (chip_write_data v false) s0 eq_refl)
    as (_ & B1 & C1 & D1 & F1 & G1). fold s1 in B1, C1, D1, F1, G1.
  destruct (generate_into_backbuffer_spec 1 s1) as (C2 & D2 & F2 & B2 & G2).
  fold s2 in C2, D2, F2, B2, G2.
  destruct (update_clocks_frame s2) as (B3 & C3 & D3 & F3 & G3).
  rewrite C3, D3, F3, B3, G3.
  rewrite (production_calls_ext _ _ _ G2), (production_calls_ext _ _ _ G1),
    (production_calls_ext _ _ _ G0).
  repeat split; try congruence.
  - intros k Hk. rewrite B2 by lia. congruence.
  - rewrite <- !app_assoc. reflexivity.
Qed.

(** The drain loop: it runs [k] turns, [k] the smaller of the samples asked
    for and the queue length; each turn hands the engine the front entry and
    asks for one sample, then pops the entry. *)
Lemma pregenerate_drain_spec q : forall n s,
  m_write_queue s = q ->
  0 <= n -> 0 <= m_backbuffer_used s -> m_backbuffer_used s + n < 4294967296 ->
  let r := pregenerate_drain q n s in
  let k := Z.min n (Z.of_nat (List.length q)) in
  fst r = n - k /\
  m_backbuffer_used (snd r) = m_backbuffer_used s + k /\
  m_write_queue (snd r) = skipn (Z.to_nat k) q /\
  m_backbuffer_resampled (snd r) = m_backbuffer_resampled s /\
  (forall j, j < m_backbuffer_used s -> m_backbuffer (snd r) j = m_backbuffer s j) /\
  production_calls (m_trace (snd r)) =
    production_calls (m_trace s) ++ flat_map drained_write (firstn (Z.to_nat k) q).
Proof.
  induction q as [|[a v] rest IH]; intros n s Hq Hn Hu Hsum; cbv zeta.
  - cbn [pregenerate_drain List.length Z.of_nat fst snd].
    rewrite Z.min_r by lia. cbn. rewrite app_nil_r.
    repeat split; try lia. assumption.
  - cbn [pregenerate_drain].
    destruct (0 <? n) eqn:Hpos.
    + apply Z.ltb_lt in Hpos.
      destruct (drain_body_spec a v s) as (C & D & F & B & G).
      set (s3 := update_clocks (generate_into_backbuffer 1
                   (write_data v false (write_address a s)))) in *.
      set (s5 := set_write_queue rest
                   (set_backbuffer_used (u32 (m_backbuffer_used s3 + 1)) s3)).
      assert (U5 : m_backbuffer_used s5 = m_backbuffer_used s + 1).
      { unfold s5. cbn [m_backbuffer_used set_write_queue set_backbuffer_used].
        rewrite C. apply u32_small. lia. }
      destruct (IH (n - 1) s5) as (R1 & R2 & R3 & R4 & R5 & R6);
        [reflexivity | lia | lia | lia |].
      assert (Hk : Z.min n (Z.of_nat (List.length ((a, v) :: rest))) =
                   1 + Z.min (n - 1) (Z.of_nat (List.length rest))).
      { cbn [List.length]. lia. }
      rewrite Hk.
      assert (Hk' : Z.to_nat (1 + Z.min (n - 1) (Z.of_nat (List.length rest))) =
                    S (Z.to_nat (Z.min (n - 1) (Z.of_nat (List.length rest))))).
      { lia. }
      rewrite Hk'. cbn [skipn firstn flat_map].
      rewrite R1, R2, R3, R4, R6, U5.
      repeat split; try lia.
      * exact F.
      * intros j Hj. rewrite R5 by lia. unfold s5.
        cbn [m_backbuffer set_write_queue set_backbuffer_used]. now apply B.
      * unfold s5 at 1. cbn [m_trace set_write_queue set_backbuffer_used].
        rewrite G, <- app_assoc. reflexivity.
    + apply Z.ltb_ge in Hpos. assert (n = 0) by lia. subst n.
      cbn [fst snd]. rewrite Z.min_l by lia. cbn. rewrite app_nil_r.
      repeat split; try lia. assumption.
Qed.

(** [pregenerate(samples)]: the request is cut to the room left, the drain
    loop serves the queue one write per sample, and the rest of the samples
    is generated in one call. *)
Lemma pregenerate_samples_spec n s :
  m_backbuffer_size < 4294967296 ->
  0 <= m_backbuffer_used s <= m_backbuffer_size ->
  0 <= n -> m_backbuffer_used s + n < 4294967296 ->
  let s' := pregenerate_samples n s in
  let nc := Z.min n (m_backbuffer_size - m_backbuffer_used s) in
  let k := Z.min nc (Z.of_nat (List.length (m_write_queue s))) in
  m_backbuffer_used s' = m_backbuffer_used s + nc /\
  m_write_queue s' = skipn (Z.to_nat k) (m_write_queue s) /\
  m_backbuffer_resampled s' = m_backbuffer_resampled s /\
  (forall j, j < m_backbuffer_used s -> m_backbuffer s' j = m_backbuffer s j) /\
  production_calls (m_trace s') =
    production_calls (m_trace s)
    ++ flat_map drained_write (firstn (Z.to_nat k) (m_write_queue s))
    ++ (if k <? nc then [EvGenerate (nc - k)] else []).
Proof.
  intros Hsz Hu Hn Hsum. cbv zeta. unfold pregenerate_samples.
  set (nc := Z.min n (m_backbuffer_size - m_backbuffer_used s)).
  assert (Hnc : (if m_backbuffer_size <? u32 (m_backbuffer_used s + n)
                 then u32 (m_backbuffer_size - m_backbuffer_used s) else n) = nc).
  { rewrite (u32_small (m_backbuffer_used s + n)) by lia.
    destruct (m_backbuffer_size <? m_backbuffer_used s + n) eqn:H.
    - apply Z.ltb_lt in H. rewrite u32_small by lia. unfold nc. lia.
    - apply Z.ltb_ge in H. unfold nc. lia. }
  rewrite Hnc.
  destruct (pregenerate_drain_spec (m_write_queue s) nc s eq_refl)
    as (R1 & R2 & R3 & R4 & R5 & R6); [unfold nc; lia | lia | unfold nc; lia |].
  destruct (pregenerate_drain (m_write_queue s) nc s) as [n' s1].
  cbn [fst snd] in R1, R2, R3, R4, R5, R6.
  set (k := Z.min nc (Z.of_nat (List.length (m_write_queue s)))) in *.
  subst n'.
  destruct (0 <? nc - k) eqn:Hrest.
  - apply Z.ltb_lt in Hrest.
    replace (k <? nc) with true by (symmetry; apply Z.ltb_lt; lia).
    set (s2 := generate_into_backbuffer (nc - k) s1).
    destruct (generate_into_backbuffer_spec (nc - k) s1) as (C2 & D2 & F2 & B2 & G2).
    fold s2 in C2, D2, F2, B2, G2.
    destruct (update_clocks_cycles_frame (s32 (nc - k)) s2) as (B3 & C3 & D3 & F3 & G3).
    cbn [m_backbuffer_used m_write_queue m_backbuffer_resampled m_backbuffer m_trace
      set_backbuffer_used].
    rewrite C3, D3, F3, B3, G3, (production_calls_ext _ _ _ G2), C2, D2, F2, R2, R3, R4, R6.
    repeat split.
    + rewrite u32_small; unfold nc in *; lia.
    + intros j Hj. rewrite B2 by lia. now apply R5.
    + rewrite <- app_assoc. reflexivity.
  - apply Z.ltb_ge in Hrest.
    replace (k <? nc) with false by (symmetry; apply Z.ltb_ge; lia).
    rewrite R2, R3, R4, R6, app_nil_r.
    repeat split; try lia. assumption.
Qed.

Lemma generated_drained l : generated (flat_map drained_write l) = Z.of_nat (List.length l).
Proof.
  induction l as [|w r IH]; [reflexivity|].
  cbn [flat_map List.length]. rewrite generated_app, IH, Nat2Z.inj_succ.
  unfold drained_write. cbn [generated]. lia.
Qed.

(** Samples generated and counted by [pregenerate(samples)]. *)
Lemma pregenerate_samples_generated n s :
  m_backbuffer_size < 4294967296 ->
  0 <= m_backbuffer_used s <= m_backbuffer_size ->
  0 <= n -> m_backbuffer_used s + n < 4294967296 ->
  let s' := pregenerate_samples n s in
  generated (m_trace s') - generated (m_trace s) =
    m_backbuffer_used s' - m_backbuffer_used s.
Proof.
  intros Hsz Hu Hn Hsum. cbv zeta.
  destruct (pregenerate_samples_spec n s Hsz Hu Hn Hsum) as (U & _ & _ & _ & P).
  rewrite U.
  rewrite <- (generated_production (m_trace (pregenerate_samples n s))), P.
  rewrite !generated_app, generated_production, generated_drained.
  set (nc := Z.min n (m_backbuffer_size - m_backbuffer_used s)) in *.
  set (k := Z.min nc (Z.of_nat (List.length (m_write_queue s)))) in *.
  rewrite length_firstn.
  assert (Hk : Z.of_nat (Init.Nat.min (Z.to_nat k) (List.length (m_write_queue s))) = k)
    by (unfold k, nc; lia).
  rewrite Hk.
  destruct (k <? nc) eqn:H; cbn [generated].
  - lia.
  - apply Z.ltb_ge in H. assert (k <= nc) by apply Z.le_min_l. lia.
Qed.

(** A full backbuffer: [pregenerate(samples)] changes nothing at all. *)
Lemma pregenerate_samples_full n s :
  0 <= m_backbuffer_size < 4294967296 ->
  m_backbuffer_used s = m_backbuffer_size ->
  0 <= n -> m_backbuffer_used s + n < 4294967296 ->
  pregenerate_samples n s = s.
Proof.
  intros Hsz Hu Hn Hsum. unfold pregenerate_samples.
  rewrite (u32_small (m_backbuffer_used s + n)) by lia.
  assert (Hc : (if m_backbuffer_size <? m_backbuffer_used s + n
                then u32 (m_backbuffer_size - m_backbuffer_used s) else n) = 0).
  { destruct (m_backbuffer_size <? m_backbuffer_used s + n) eqn:H.
    - rewrite Hu, Z.sub_diag. reflexivity.
    - apply Z.ltb_ge in H. lia. }
  rewrite Hc. destruct (m_write_queue s) as [|[a v] r]; reflexivity.
Qed.

(** *** Render *)

Lemma pregenerate_drain_resampled q : forall n s,
  m_backbuffer_resampled (snd (pregenerate_drain q n s)) = m_backbuffer_resampled s.
Proof.
  induction q as [|[a v] rest IH]; intros n s; cbn [pregenerate_drain]; [reflexivity|].
  destruct (0 <? n); [|reflexivity].
  rewrite IH. cbn [m_backbuffer_resampled set_write_queue set_backbuffer_used].
  apply (drain_body_spec a v s).
Qed.

Lemma pregenerate_samples_resampled n s :
  m_backbuffer_resampled (pregenerate_samples n s) = m_backbuffer_resampled s.
Proof.
  unfold pregenerate_samples.
  match goal with |- context [pregenerate_drain ?q ?m s] =>
    pose proof (pregenerate_drain_resampled q m s) as H;
    destruct (pregenerate_drain q m s) as [n' s1]
  end.
  cbn [snd] in H.
  destruct (0 <? n'); [|exact H].
  cbn [m_backbuffer_resampled set_backbuffer_used].
  destruct (update_clocks_cycles_frame (s32 n') (generate_into_backbuffer n' s1))
    as (_ & _ & _ & F & _).
  destruct (generate_into_backbuffer_spec n' s1) as (_ & _ & F' & _).
  congruence.
Qed.

(** What [generate] does with the samples it holds: the count is reset to 0
    whatever it was, and with no left-over samples queued the caller's
    buffer comes back as it was and the queues stay empty. *)
Lemma generate_spec buffers samples sample_rate s :
  let r := generate buffers samples sample_rate s in
  m_backbuffer_used (snd r) = 0 /\
  (m_backbuffer_resampled s = ([], []) ->
   fst r = buffers /\ m_backbuffer_resampled (snd r) = ([], [])).
Proof.
  cbv zeta. unfold generate.
  cbn [m_backbuffer_resampled set_previous_sample_rate set_resampler].
  destruct (use_leftover 0 (fst (m_backbuffer_resampled s)) samples 0 buffers)
    as [[b0 d0] q0] eqn:H0.
  destruct (use_leftover 1 (snd (m_backbuffer_resampled s)) samples 0 b0)
    as [[b1 d1] q1] eqn:H1.
  match goal with |- context [if ?a <? ?a then _ else _] =>
    rewrite (Z.ltb_irrefl a)
  end.
  cbn [fst snd m_backbuffer_used set_backbuffer_used m_backbuffer_resampled].
  split; [reflexivity|].
  intros Hq. rewrite Hq in H0, H1. cbn in H0, H1.
  injection H0 as <- <- <-. injection H1 as <- <- <-.
  split; [reflexivity|].
  match goal with |- m_backbuffer_resampled (if ?c then pregenerate_samples ?m ?x else ?y) = _ =>
    destruct c; [rewrite pregenerate_samples_resampled|]
  end; reflexivity.
Qed.

(** *** Invariants of the entry points *)

Lemma write_frame strict addr value s :
  m_backbuffer_used (write strict addr value s) = m_backbuffer_used s /\
  m_backbuffer_resampled (write strict addr value s) = m_backbuffer_resampled s.
Proof.
  unfold write. destruct (ymfm_is_busy s); [destruct strict; split; reflexivity|].
  unfold write_data, write_address.
  destruct (call_engine_spec (EvWriteAddress addr) (chip_write_address addr) s eq_refl)
    as (_ & _ & C & _ & F & _).
  destruct (call_engine_spec (EvWriteData value false) (chip_write_data value false)
              (call_engine (EvWriteAddress addr) (chip_write_address addr) s) eq_refl)
    as (_ & _ & C' & _ & F' & _).
  split; congruence.
Qed.

Lemma debug_write_frame addr value s :
  m_backbuffer_used (debug_write addr value s) = m_backbuffer_used s /\
  m_backbuffer_resampled (debug_write addr value s) = m_backbuffer_resampled s.
Proof.
  unfold debug_write, write_data, write_address.
  destruct (call_engine_spec (EvWriteAddress addr) (chip_write_address addr) s eq_refl)
    as (_ & _ & C & _ & F & _).
  destruct (call_engine_spec (EvWriteData value true) (chip_write_data value true)
              (call_engine (EvWriteAddress addr) (chip_write_address addr) s) eq_refl)
    as (_ & _ & C' & _ & F' & _).
  split; congruence.
Qed.

Lemma clocks_per_sample_ge2 :
  0 < chip_sample_rate <= 4000000 -> 2 <= clocks_per_sample.
Proof.
  intros H. unfold clocks_per_sample, get_sample_rate.
  apply Z.div_le_lower_bound; lia.
Qed.

Lemma samples_to_render_bound clocks g :
  0 < chip_sample_rate <= 4000000 ->
  0 <= samples_to_render clocks g < 2147483648.
Proof.
  intros H. pose proof (clocks_per_sample_ge2 H) as Hc.
  unfold samples_to_render.
  pose proof (u32_range (clocks_elapsed g + clocks)) as Hr.
  split.
  - apply Z.div_pos; lia.
  - apply Z.div_lt_upper_bound; lia.
Qed.

(** Every entry point keeps the count of held samples within the buffer. *)
Lemma ym_step_used g o :
  0 < chip_sample_rate <= 4000000 ->
  0 <= m_backbuffer_used (Ym_interface g) <= m_backbuffer_size ->
  0 <= m_backbuffer_used (Ym_interface (ym_step g o)) <= m_backbuffer_size.
Proof.
  intros Hrate Hu.
  assert (Hsz : m_backbuffer_size = chip_sample_rate) by reflexivity.
  destruct o; cbn [ym_step].
  - unfold YM_write. destruct (negb (Z.land (u8 offset) 1 =? 0)); cbn [Ym_interface].
    + now rewrite (proj1 (write_frame _ _ _ _)).
    + assumption.
  - unfold YM_debug_write. cbn [Ym_interface].
    now rewrite (proj1 (debug_write_frame _ _ _)).
  - unfold YM_prerender.
    pose proof (samples_to_render_bound (u32 clocks) g Hrate) as Hn.
    destruct (0 <? samples_to_render (u32 clocks) g); cbn [Ym_interface set_clocks_elapsed
      set_interface]; [|assumption].
    destruct (pregenerate_samples_spec (samples_to_render (u32 clocks) g) (Ym_interface g))
      as (U & _); lia.
  - unfold YM_render.
    match goal with |- context [generate ?b ?n ?r ?s] =>
      pose proof (proj1 (generate_spec b n r s)) as H;
      destruct (generate b n r s) as [b' i]
    end.
    cbn [snd Ym_interface set_interface] in *. rewrite H. lia.
  - cbn. lia.
  - unfold YM_reset, reset. cbn [Ym_interface].
    destruct (call_engine_spec EvReset chip_reset (Ym_interface g) eq_refl)
      as (_ & _ & C & _).
    now rewrite C.
  - assumption.
  - assumption.
Qed.

Lemma ym_run_used ops : forall g,
  0 < chip_sample_rate <= 4000000 ->
  0 <= m_backbuffer_used (Ym_interface g) <= m_backbuffer_size ->
  0 <= m_backbuffer_used (Ym_interface (ym_run ops g)) <= m_backbuffer_size.
Proof.
  unfold ym_run. induction ops as [|o r IH]; intros g Hrate Hu; cbn [fold_left].
  - assumption.
  - apply IH; [assumption|]. now apply ym_step_used.
Qed.

(** No entry point ever queues a left-over resampled sample. *)
Lemma ym_step_resampled g o :
  m_backbuffer_resampled (Ym_interface g) = ([], []) ->
  m_backbuffer_resampled (Ym_interface (ym_step g o)) = ([], []).
Proof.
  intros Hq. destruct o; cbn [ym_step].
  - unfold YM_write. destruct (negb (Z.land (u8 offset) 1 =? 0)); cbn [Ym_interface].
    + now rewrite (proj2 (write_frame _ _ _ _)).
    + assumption.
  - unfold YM_debug_write. cbn [Ym_interface].
    now rewrite (proj2 (debug_write_frame _ _ _)).
  - unfold YM_prerender.
    destruct (0 <? samples_to_render (u32 clocks) g); cbn [Ym_interface set_clocks_elapsed
      set_interface]; [|assumption].
    now rewrite pregenerate_samples_resampled.
  - unfold YM_render.
    match goal with |- context [generate ?b ?n ?r ?s] =>
      pose proof (proj2 (generate_spec b n r s) Hq) as H;
      destruct (generate b n r s) as [b' i]
    end.
    cbn [snd Ym_interface set_interface] in *. apply H.
  - assumption.
  - unfold YM_reset, reset. cbn [Ym_interface].
    destruct (call_engine_spec EvReset chip_reset (Ym_interface g) eq_refl)
      as (_ & _ & _ & _ & F & _).
    now rewrite F.
  - assumption.
  - assumption.
Qed.

Lemma ym_run_resampled ops : forall g,
  m_backbuffer_resampled (Ym_interface g) = ([], []) ->
  m_backbuffer_resampled (Ym_interface (ym_run ops g)) = ([], []).
Proof.
  unfold ym_run. induction ops as [|o r IH]; intros g Hq; cbn [fold_left].
  - assumption.
  - apply IH. now apply ym_step_resampled.
Qed.

(** C7.  The count of samples held never exceeds the size of the backbuffer,
    along any sequence of operations.  [pregenerate(n)] cuts [n] to the room
    that is left, the count grows by one for each sample the engine is asked
    for, the samples already held are not touched, and on a full buffer the
    call changes nothing. *)
Theorem backbuffer_used_within_capacity :
  0 < chip_sample_rate <= 4000000 ->
  (forall ops g,
     0 <= m_backbuffer_used (Ym_interface g) <= m_backbuffer_size ->
     0 <= m_backbuffer_used (Ym_interface (ym_run ops g)) <= m_backbuffer_size) /\
  (forall n s,
     0 <= m_backbuffer_used s <= m_backbuffer_size ->
     0 <= n -> m_backbuffer_used s + n < 4294967296 ->
     let s' := pregenerate_samples n s in
     m_backbuffer_used s' =
       m_backbuffer_used s + Z.min n (m_backbuffer_size - m_backbuffer_used s) /\
     m_backbuffer_used s' <= m_backbuffer_size /\
     generated (m_trace s') - generated (m_trace s) =
       m_backbuffer_used s' - m_backbuffer_used s /\
     (forall j, j < m_backbuffer_used s -> m_backbuffer s' j = m_backbuffer s j) /\
     (m_backbuffer_used s = m_backbuffer_size -> s' = s)).
Proof.
  intros Hrate.
  assert (Hsz : 0 <= m_backbuffer_size < 4294967296) by (unfold m_backbuffer_size; lia).
  split.
  - intros ops g Hu. now apply ym_run_used.
  - intros n s Hu Hn Hsum. cbv zeta.
    destruct (pregenerate_samples_spec n s (proj2 Hsz) Hu Hn Hsum) as (U & _ & _ & B & _).
    split; [exact U|]. split; [rewrite U; lia|].
    split; [now apply pregenerate_samples_generated; try lia|].
    split; [exact B|].
    intros Hfull. now apply pregenerate_samples_full.
Qed.

(** C1 (the code, where the claim asks for [samples] pairs).  In every state
    the entry points can reach, [YM_render] hands the caller's buffer back
    unchanged, whatever the count and the rate asked for: no left-over
    sample is ever queued, and the loop that would resample has no body. *)
Theorem render_writes_no_samples ops c buffer samples sample_rate :
  let g := ym_run ops (ym_globals_new c) in
  fst (YM_render buffer samples sample_rate g) = buffer /\
  m_backbuffer_resampled (Ym_interface g) = ([], []).
Proof.
  cbv zeta.
  assert (Hq : m_backbuffer_resampled (Ym_interface (ym_run ops (ym_globals_new c))) = ([], []))
    by (apply ym_run_resampled; reflexivity).
  split; [|exact Hq].
  unfold YM_render.
  match goal with |- context [generate ?b ?n ?r ?s] =>
    pose proof (proj1 (proj2 (generate_spec b n r s) Hq)) as H;
    destruct (generate b n r s) as [b' i]
  end.
  exact H.
Qed.

(** C9 (the code, where the claim keeps the samples not consumed).  After
    [YM_render] the backbuffer counts no sample at all, however many it held
    and however few the request needed. *)
Theorem render_empties_backbuffer buffer samples sample_rate g :
  m_backbuffer_used (Ym_interface (snd (YM_render buffer samples sample_rate g))) = 0.
Proof.
  unfold YM_render.
  match goal with |- context [generate ?b ?n ?r ?s] =>
    pose proof (proj1 (generate_spec b n r s)) as H;
    destruct (generate b n r s) as [b' i]
  end.
  exact H.
Qed.

(** *** Clocks to samples *)

Lemma prerender_elapsed c g :
  0 < clocks_per_sample ->
  0 <= clocks_elapsed g < clocks_per_sample ->
  0 <= c -> c + clocks_per_sample <= 4294967296 ->
  samples_to_render c g = (clocks_elapsed g + c) / clocks_per_sample /\
  clocks_elapsed (YM_prerender c g) = (clocks_elapsed g + c) mod clocks_per_sample.
Proof.
  intros Hcps He Hc Hc'.
  unfold YM_prerender, samples_to_render.
  rewrite (u32_small (clocks_elapsed g + c)) by lia.
  split; [reflexivity|].
  set (e := clocks_elapsed g + c).
  assert (He0 : 0 <= e) by (unfold e; lia).
  assert (Hne : clocks_per_sample <> 0) by lia.
  pose proof (Z.div_mod e clocks_per_sample Hne) as Hdm.
  pose proof (Z.mod_pos_bound e clocks_per_sample Hcps) as Hm.
  assert (Hq : 0 <= e / clocks_per_sample) by (apply Z.div_pos; lia).
  destruct (0 <? e / clocks_per_sample) eqn:Hn; cbn [clocks_elapsed set_clocks_elapsed
    set_interface].
  - assert (Hmul : 0 <= e / clocks_per_sample * clocks_per_sample <= e) by nia.
    rewrite (u32_small (e / clocks_per_sample * clocks_per_sample)) by (unfold e in *; lia).
    rewrite u32_small by (unfold e in *; lia). lia.
  - apply Z.ltb_ge in Hn. assert (Hz : e / clocks_per_sample = 0) by lia.
    rewrite Hz in Hdm. lia.
Qed.

(** The requests of a run of [YM_prerender] calls that starts with [e]
    clocks carried over. *)
Lemma prerender_requests_sum cs : forall g,
  0 < clocks_per_sample ->
  0 <= clocks_elapsed g < clocks_per_sample ->
  Forall (fun c => 0 <= c /\ c + clocks_per_sample <= 4294967296) cs ->
  zsum (prerender_requests cs g) = (clocks_elapsed g + zsum cs) / clocks_per_sample /\
  clocks_elapsed (prerender_run cs g) = (clocks_elapsed g + zsum cs) mod clocks_per_sample.
Proof.
  unfold prerender_run.
  induction cs as [|c r IH]; intros g Hcps He Hcs;
    cbn [prerender_requests zsum fold_right fold_left].
  - rewrite Z.add_0_r, Z.div_small, Z.mod_small by lia. split; reflexivity.
  - inversion Hcs as [|? ? [Hc Hc'] Hr]; subst.
    destruct (prerender_elapsed c g Hcps He Hc Hc') as [S1 E1].
    pose proof (Z.mod_pos_bound (clocks_elapsed g + c) clocks_per_sample Hcps) as Hm.
    destruct (IH (YM_prerender c g) Hcps ltac:(rewrite E1; exact Hm) Hr) as [S2 E2].
    fold (zsum r) in *. fold (zsum (prerender_requests r (YM_prerender c g))).
    rewrite S1, S2, E2, E1.
    assert (Hne : clocks_per_sample <> 0) by lia.
    pose proof (Z.div_mod (clocks_elapsed g + c) clocks_per_sample Hne) as Hdm.
    set (a := clocks_elapsed g + c) in *.
    assert (Heq : clocks_elapsed g + (c + zsum r) =
                  (a / clocks_per_sample) * clocks_per_sample
                  + (a mod clocks_per_sample + zsum r)) by lia.
    rewrite Heq. rewrite Z.div_add_l by lia.
    split; [reflexivity|].
    rewrite (Z.add_comm (a / clocks_per_sample * clocks_per_sample)), Z.mod_add by lia.
    reflexivity.
Qed.

(** The arithmetic of the carried remainder: over a run of [YM_prerender]
    calls that starts with nothing carried over, the values of
    [samples_to_render] add up to the clocks of all the calls divided by the
    clocks per sample, rounded down, and the remainder of the division is
    what the next call starts from. *)
Theorem prerender_carries_remainder cs g :
  0 < chip_sample_rate <= 8000000 ->
  clocks_elapsed g = 0 ->
  Forall (fun c => 0 <= c /\ c + clocks_per_sample <= 4294967296) cs ->
  zsum (prerender_requests cs g) = zsum cs / clocks_per_sample /\
  clocks_elapsed (prerender_run cs g) = zsum cs mod clocks_per_sample /\
  (zsum cs < 4294967296 ->
   zsum (prerender_requests cs g) = samples_to_render (zsum cs) g).
Proof.
  intros Hrate He Hcs.
  assert (Hcps : 0 < clocks_per_sample).
  { unfold clocks_per_sample, get_sample_rate.
    apply Z.div_str_pos. lia. }
  destruct (prerender_requests_sum cs g Hcps ltac:(lia) Hcs) as [S1 E1].
  rewrite He in S1, E1. cbn [Z.add] in S1, E1.
  split; [exact S1|]. split; [exact E1|].
  intros Hsum. rewrite S1. unfold samples_to_render. rewrite He. cbn [Z.add].
  assert (Hnn : 0 <= zsum cs).
  { clear -Hcs. induction Hcs as [|c r [Hc _] _ IH]; cbn; [lia|].
    fold (zsum r). lia. }
  now rewrite u32_small by lia.
Qed.

(** *** The one-sample overload *)

Lemma pregenerate_front a v rest s :
  m_write_queue s = (a, v) :: rest ->
  0 <= m_backbuffer_used s < m_backbuffer_size -> m_backbuffer_size < 4294967296 ->
  m_write_queue (pregenerate s) = (a, v) :: rest /\
  m_backbuffer_used (pregenerate s) = m_backbuffer_used s + 1 /\
  production_calls (m_trace (pregenerate s)) =
    production_calls (m_trace s) ++ drained_write (a, v).
Proof.
  intros Hq Hu Hsz. unfold pregenerate.
  replace (m_backbuffer_used s <? m_backbuffer_size) with true
    by (symmetry; apply Z.ltb_lt; lia).
  rewrite Hq.
  destruct (drain_body_spec a v s) as (C & D & _ & _ & G).
  cbn [m_write_queue m_backbuffer_used m_trace set_backbuffer_used].
  rewrite C, D, G, Hq. repeat split. apply u32_small. lia.
Qed.

(** The one-sample overload, which has no caller: [pregenerate()] hands the
    front entry of the write queue to the engine and generates a sample, but
    leaves the entry in the queue, so a second call would hand the same entry
    to the engine again.  [pregenerate(samples)], the overload the entry
    points call, pops what it applies. *)
Theorem pregenerate_applies_front_again a v rest s :
  m_write_queue s = (a, v) :: rest ->
  0 <= m_backbuffer_used s -> m_backbuffer_used s + 1 < m_backbuffer_size ->
  m_backbuffer_size < 4294967296 ->
  let s2 := pregenerate (pregenerate s) in
  m_write_queue s2 = (a, v) :: rest /\
  production_calls (m_trace s2) =
    production_calls (m_trace s) ++ drained_write (a, v) ++ drained_write (a, v).
Proof.
  intros Hq Hu Hu' Hsz. cbv zeta.
  destruct (pregenerate_front a v rest s Hq ltac:(lia) Hsz) as (Q1 & U1 & P1).
  destruct (pregenerate_front a v rest (pregenerate s) Q1 ltac:(lia) Hsz) as (Q2 & _ & P2).
  split; [exact Q2|]. rewrite P2, P1, <- app_assoc. reflexivity.
Qed.

(** *** More on production *)

Lemma firstn_add {A} (l : list A) : forall a b,
  firstn (a + b) l = firstn a l ++ firstn b (skipn a l).
Proof.
  induction l as [|x r IH]; intros a b.
  - now rewrite !firstn_nil, skipn_nil, firstn_nil.
  - destruct a as [|a]; cbn; [reflexivity|]. now rewrite IH.
Qed.

Lemma skipn_add {A} (l : list A) : forall a b,
  skipn b (skipn a l) = skipn (a + b) l.
Proof.
  induction l as [|x r IH]; intros a b.
  - now rewrite !skipn_nil.
  - destruct a as [|a]; cbn; [reflexivity|]. apply IH.
Qed.

Lemma write_calls_app t1 t2 : write_calls (t1 ++ t2) = write_calls t1 ++ write_calls t2.
Proof. apply filter_app. Qed.

Lemma write_calls_production tr : write_calls (production_calls tr) = write_calls tr.
Proof.
  unfold write_calls, production_calls.
  induction tr as [|e r IH]; cbn; [reflexivity|].
  destruct e; cbn; now rewrite IH.
Qed.

Lemma write_calls_drained l :
  write_calls (flat_map drained_write l) = flat_map (applied_write false) l.
Proof.
  induction l as [|w r IH]; [reflexivity|].
  cbn [flat_map]. rewrite write_calls_app, IH. reflexivity.
Qed.


(** X2.  Splitting a request does not change what production does to the
    queue and the counts: [pregenerate(a)] followed by [pregenerate(b)]
    leaves the same count of held samples and the same write queue, has
    asked the engine for the same number of samples and has handed it the
    same writes in the same order as one [pregenerate(a + b)]. *)
Theorem pregenerate_samples_batching a b s :
  m_backbuffer_size < 4294967296 ->
  0 <= m_backbuffer_used s <= m_backbuffer_size ->
  0 <= a -> 0 <= b -> m_backbuffer_used s + a + b < 4294967296 ->
  let s2 := pregenerate_samples b (pregenerate_samples a s) in
  let s1 := pregenerate_samples (a + b) s in
  m_backbuffer_used s2 = m_backbuffer_used s1 /\
  m_write_queue s2 = m_write_queue s1 /\
  generated (m_trace s2) = generated (m_trace s1) /\
  write_calls (m_trace s2) = write_calls (m_trace s1).
Proof.
  intros Hsz Hu Ha Hb Hsum. cbv zeta.
  destruct (pregenerate_samples_spec a s Hsz Hu Ha ltac:(lia)) as (U1 & Q1 & _ & _ & P1).
  pose proof (pregenerate_samples_generated a s Hsz Hu Ha ltac:(lia)) as G1.
  set (sa := pregenerate_samples a s) in *.
  assert (Hua : 0 <= m_backbuffer_used sa <= m_backbuffer_size) by (rewrite U1; lia).
  destruct (pregenerate_samples_spec b sa Hsz Hua Hb ltac:(rewrite U1; lia))
    as (U2 & Q2 & _ & _ & P2).
  pose proof (pregenerate_samples_generated b sa Hsz Hua Hb ltac:(rewrite U1; lia)) as G2.
  destruct (pregenerate_samples_spec (a + b) s Hsz Hu ltac:(lia) ltac:(lia))
    as (U & Q & _ & _ & P).
  pose proof (pregenerate_samples_generated (a + b) s Hsz Hu ltac:(lia) ltac:(lia)) as G.
  cbv zeta in G1, G2, G.
  set (q := m_write_queue s) in *.
  set (u := m_backbuffer_used s) in *.
  set (nc1 := Z.min a (m_backbuffer_size - u)) in *.
  set (k1 := Z.min nc1 (Z.of_nat (List.length q))) in *.
  assert (Hlen : Z.of_nat (List.length (m_write_queue sa)) = Z.of_nat (List.length q) - k1).
  { rewrite Q1, length_skipn. unfold k1, nc1. lia. }
  rewrite Hlen, U1 in *.
  set (nc2 := Z.min b (m_backbuffer_size - (u + nc1))) in *.
  set (k2 := Z.min nc2 (Z.of_nat (List.length q) - k1)) in *.
  set (nc := Z.min (a + b) (m_backbuffer_size - u)) in *.
  set (k := Z.min nc (Z.of_nat (List.length q))) in *.
  assert (Hnc : nc = nc1 + nc2) by (unfold nc, nc1, nc2; lia).
  assert (Hk : Z.to_nat k = (Z.to_nat k1 + Z.to_nat k2)%nat)
    by (unfold k, k1, k2, nc, nc1, nc2; lia).
  split; [rewrite U2, U; lia|].
  split; [rewrite Q2, Q, Q1, Hk; apply skipn_add|].
  split; [lia|].
  rewrite <- (write_calls_production (m_trace (pregenerate_samples b sa))), P2.
  rewrite <- (write_calls_production (m_trace (pregenerate_samples (a + b) s))), P.
  rewrite !write_calls_app, !write_calls_production, !write_calls_drained.
  rewrite <- (write_calls_production (m_trace sa)), P1.
  rewrite !write_calls_app, !write_calls_production, !write_calls_drained.
  rewrite Q1, Hk, firstn_add, flat_map_app.
  assert (Hg : forall (c : bool) x, write_calls (if c then [EvGenerate x] else []) = [])
    by (intros [] x; reflexivity).
  rewrite !Hg, !app_nil_r, <- app_assoc. reflexivity.
Qed.

(** *** The busy window *)

Lemma apply_calls_busy calls : forall s,
  existsb sets_busy calls = false ->
  m_busy_timer (fold_left apply_call calls s) = m_busy_timer s.
Proof.
  induction calls as [|c r IH]; intros s Hq; cbn in *; [reflexivity|].
  apply orb_false_iff in Hq. destruct Hq as [Hc Hr].
  rewrite IH by assumption.
  destruct c as [t d|c|a]; cbn in *; try discriminate; try reflexivity.
  unfold ymfm_set_timer, set_timer.
  destruct (2 <=? u32 t), (u32 t =? 0); reflexivity.
Qed.

Lemma update_timer_busy ticks s i :
  no_busy_on_expiry ->
  m_busy_timer (update_timer ticks s i) = m_busy_timer s.
Proof.
  intros Hq. unfold update_timer.
  assert (Hset : forall v, m_busy_timer (set_timer i v s) = m_busy_timer s)
    by (intros v; unfold set_timer; destruct (i =? 0); reflexivity).
  destruct (0 <? timer i s); [|reflexivity].
  destruct (timer i (set_timer i _ s) <=? 0); [|apply Hset].
  unfold timer_expired, call_engine.
  specialize (Hq i (m_chip (set_timer i (Z.max 0 (s32 (timer i s - ticks))) s))).
  destruct (engine_timer_expired i _) as [c calls]. cbn [snd] in Hq.
  rewrite apply_calls_busy by assumption. apply Hset.
Qed.

Lemma advance_clocks_busy a s :
  no_busy_on_expiry -> advance_ok a -> 0 <= m_busy_timer s < 2147483648 ->
  m_busy_timer (advance_clocks s a) = Z.max 0 (m_busy_timer s - advance_ticks a).
Proof.
  intros Hq Ha Hb.
  destruct a as [|cycles]; cbn [advance_clocks advance_ticks advance_ok] in *.
  - unfold update_clocks. cbn [fold_left].
    rewrite !update_timer_busy by assumption. cbn [m_busy_timer set_busy_timer].
    now rewrite s32_small by lia.
  - unfold update_clocks_cycles. cbn [fold_left].
    rewrite !update_timer_busy by assumption. cbn [m_busy_timer set_busy_timer].
    rewrite (s32_small (64 * cycles)) by lia. now rewrite s32_small by lia.
Qed.

Lemma advances_busy l : forall s,
  no_busy_on_expiry -> Forall advance_ok l -> 0 <= m_busy_timer s < 2147483648 ->
  m_busy_timer (fold_left advance_clocks l s) = Z.max 0 (m_busy_timer s - total_ticks l).
Proof.
  induction l as [|a r IH]; intros s Hq Hl Hb; cbn [fold_left total_ticks].
  - lia.
  - inversion Hl as [|? ? Ha Hr]; subst.
    pose proof (total_ticks_nonneg r Hr) as Hnn.
    assert (Hat : 0 <= advance_ticks a)
      by (destruct a; cbn [advance_ticks advance_ok] in *; lia).
    pose proof (advance_clocks_busy a s Hq Ha Hb) as H1.
    rewrite IH by (assumption || (rewrite H1; lia)).
    rewrite H1. lia.
Qed.

(** X3.  The engine announces a busy window of [clocks] chip clocks, an
    unsigned 32-bit number, through [ymfm_set_busy_end], which stores it in
    the signed 32-bit busy counter.  Below 2^31 the window is consumed at 64
    clocks per generated sample: after any run of advances, each of one
    sample or of a block of fewer than 2^25 samples, in which no timer
    handler announces a new window, the busy counter is [clocks] minus the
    clocks advanced, stopped at 0 and never negative, and the chip reports
    busy exactly while the clocks advanced are fewer than [clocks].  From
    2^31 on the number does not fit the counter: the counter holds
    [clocks - 2^32], which is negative, and the chip reports not busy from
    the start. *)
Theorem busy_window_decays clocks s l :
  no_busy_on_expiry -> Forall advance_ok l -> 0 <= clocks < 4294967296 ->
  let s0 := ymfm_set_busy_end clocks s in
  let s' := fold_left advance_clocks l s0 in
  (clocks < 2147483648 ->
   m_busy_timer s' = Z.max 0 (clocks - total_ticks l) /\
   0 <= m_busy_timer s' /\
   ymfm_is_busy s' = (total_ticks l <? clocks)) /\
  (2147483648 <= clocks ->
   m_busy_timer s0 = clocks - 4294967296 /\
   m_busy_timer s0 < 0 /\
   ymfm_is_busy s0 = false).
Proof.
  intros Hq Hl Hc. cbv zeta. split.
  - intros Hc'.
    assert (H0 : m_busy_timer (ymfm_set_busy_end clocks s) = clocks).
    { unfold ymfm_set_busy_end. cbn. apply s32_small. lia. }
    pose proof (advances_busy l (ymfm_set_busy_end clocks s) Hq Hl ltac:(rewrite H0; lia)) as H.
    rewrite H0 in H. unfold ymfm_is_busy. rewrite H.
    split; [reflexivity|]. split; [lia|].
    destruct (total_ticks l <? clocks) eqn:Hlt.
    + apply Z.ltb_lt in Hlt. apply Z.ltb_lt. lia.
    + apply Z.ltb_ge in Hlt. apply Z.ltb_ge. lia.
  - intros Hc'.
    assert (H0 : m_busy_timer (ymfm_set_busy_end clocks s) = clocks - 4294967296).
    { unfold ymfm_set_busy_end. cbn [m_busy_timer set_busy_timer]. unfold s32.
      replace (clocks + 2147483648) with (clocks - 2147483648 + 1 * 4294967296) by lia.
      rewrite Z.mod_add by lia. rewrite Z.mod_small by lia. lia. }
    unfold ymfm_is_busy. rewrite H0.
    split; [reflexivity|]. split; [lia|]. apply Z.ltb_ge. lia.
Qed.

(** *** Debug writes and reset *)

(** X4.  A debug write reaches the engine at once, busy or not: the engine
    receives the address and then the data, flagged as a debug write, the
    latch entry of the address takes the value and no other entry changes,
    and nothing is added to or taken from the deferred write queue. *)
Theorem debug_write_bypasses_busy addr value g :
  let g' := YM_debug_write addr value g in
  engine_calls (m_trace (Ym_interface g')) =
    engine_calls (m_trace (Ym_interface g)) ++ applied_write true (addr, value) /\
  m_chip (Ym_interface g') =
    fst (chip_write_data value true (fst (chip_write_address addr (m_chip (Ym_interface g))))) /\
  m_write_queue (Ym_interface g') = m_write_queue (Ym_interface g) /\
  m_backbuffer_used (Ym_interface g') = m_backbuffer_used (Ym_interface g) /\
  Ym_registers g' addr = value /\
  (forall a, a <> addr -> Ym_registers g' a = Ym_registers g a).
Proof.
  cbv zeta. unfold YM_debug_write, debug_write, write_data, write_address.
  cbn [Ym_interface Ym_registers].
  set (s0 := call_engine (EvWriteAddress addr) (chip_write_address addr) (Ym_interface g)).
  destruct (call_engine_spec (EvWriteAddress addr) (chip_write_address addr)
              (Ym_interface g) eq_refl) as (A & _ & C & D & _ & G).
  destruct (call_engine_spec (EvWriteData value true) (chip_write_data value true)
              s0 eq_refl) as (A' & _ & C' & D' & _ & G').
  fold s0 in A, C, D, G.
  rewrite G', G, A', A, D', D, C', C, <- app_assoc, Z.eqb_refl.
  repeat split. intros a Ha.
  replace (a =? addr) with false by (symmetry; apply Z.eqb_neq; assumption).
  reflexivity.
Qed.

(** X5.  [YM_reset] resets the engine and puts the latch at its defaults,
    192 for the entries 32 to 39 and 0 elsewhere, whatever it held; a second
    reset leaves the latch as the first did.  It does not empty the deferred
    write queue, does not discard held samples and keeps the latched
    address. *)
Theorem reset_restores_latch_only g :
  let g' := YM_reset g in
  (forall a, Ym_registers g' a = if (32 <=? a) && (a <? 40) then 192 else 0) /\
  (forall a, Ym_registers (YM_reset g') a = Ym_registers g' a) /\
  engine_calls (m_trace (Ym_interface g')) = engine_calls (m_trace (Ym_interface g)) ++ [EvReset] /\
  m_write_queue (Ym_interface g') = m_write_queue (Ym_interface g) /\
  m_backbuffer_used (Ym_interface g') = m_backbuffer_used (Ym_interface g) /\
  Last_address g' = Last_address g.
Proof.
  cbv zeta. unfold YM_reset, reset. cbn [Ym_interface Ym_registers Last_address].
  destruct (call_engine_spec EvReset chip_reset (Ym_interface g) eq_refl)
    as (_ & _ & C & D & _ & G).
  rewrite C, D, G. repeat split.
Qed.

(** *** The write queue under strict timing *)

Lemma debug_write_bypasses_queue addr value g :
  m_write_queue (Ym_interface (YM_debug_write addr value g))
  = skipn 0 (m_write_queue (Ym_interface g)).
Proof.
  unfold YM_debug_write, debug_write, write_data, write_address.
  cbn [Ym_interface skipn].
  destruct (call_engine_spec (EvWriteAddress addr) (chip_write_address addr)
              (Ym_interface g) eq_refl) as (_ & _ & _ & D & _).
  destruct (call_engine_spec (EvWriteData value true) (chip_write_data value true)
              (call_engine (EvWriteAddress addr) (chip_write_address addr) (Ym_interface g))
              eq_refl) as (_ & _ & _ & D' & _).
  congruence.
Qed.

Lemma pregenerate_drain_suffix q : forall n s,
  m_write_queue s = q ->
  exists k, m_write_queue (snd (pregenerate_drain q n s)) = skipn k q.
Proof.
  induction q as [|[a v] rest IH]; intros n s Hq; cbn [pregenerate_drain].
  - exists 0%nat. exact Hq.
  - destruct (0 <? n).
    + destruct (IH (n - 1) (set_write_queue rest
        (set_backbuffer_used
           (u32 (m_backbuffer_used (update_clocks (generate_into_backbuffer 1
              (write_data v false (write_address a s)))) + 1))
           (update_clocks (generate_into_backbuffer 1
              (write_data v false (write_address a s)))))) eq_refl) as [k Hk].
      exists (S k). exact Hk.
    + exists 0%nat. exact Hq.
Qed.

Lemma pregenerate_samples_suffix n s :
  exists k, m_write_queue (pregenerate_samples n s) = skipn k (m_write_queue s).
Proof.
  unfold pregenerate_samples.
  match goal with |- context [pregenerate_drain ?q ?m s] =>
    destruct (pregenerate_drain_suffix q m s eq_refl) as [k Hk];
    destruct (pregenerate_drain q m s) as [n' s1]
  end.
  cbn [snd] in Hk. exists k.
  destruct (0 <? n'); [|exact Hk].
  cbn [m_write_queue set_backbuffer_used].
  destruct (update_clocks_cycles_frame (s32 n') (generate_into_backbuffer n' s1))
    as (_ & _ & D & _).
  destruct (generate_into_backbuffer_spec n' s1) as (_ & D' & _).
  congruence.
Qed.

Lemma generate_suffix buffers samples sample_rate s :
  exists k, m_write_queue (snd (generate buffers samples sample_rate s))
            = skipn k (m_write_queue s).
Proof.
  unfold generate.
  cbn [m_backbuffer_resampled set_previous_sample_rate set_resampler].
  destruct (use_leftover 0 _ samples 0 buffers) as [[b0 d0] q0].
  destruct (use_leftover 1 _ samples 0 b0) as [[b1 d1] q1].
  match goal with |- context [if ?a <? ?a then _ else _] =>
    rewrite (Z.ltb_irrefl a)
  end.
  cbn [snd m_write_queue set_backbuffer_used].
  match goal with |- context [if ?c then pregenerate_samples ?m ?x else ?y] =>
    destruct c;
    [destruct (pregenerate_samples_suffix m x) as [k Hk]; exists k; rewrite Hk
    |exists 0%nat; cbn [skipn]];
    destruct (negb (d0 =? d1)); reflexivity
  end.
Qed.

Lemma ym_step_strict g o :
  Ym_strict_busy g = true -> keeps_strict o ->
  Ym_strict_busy (ym_step g o) = true /\
  exists k, m_write_queue (Ym_interface (ym_step g o))
            = skipn k (m_write_queue (Ym_interface g)).
Proof.
  intros Hs Ho. destruct o; cbn [ym_step keeps_strict] in *.
  - unfold YM_write, YM_is_strict.
    destruct (negb (Z.land (u8 offset) 1 =? 0));
      cbn [Ym_strict_busy Ym_interface]; (split; [assumption|]); exists 0%nat;
      cbn [skipn]; [|reflexivity].
    rewrite Hs. unfold write. destruct (ymfm_is_busy (Ym_interface g)); [reflexivity|].
    unfold write_data, write_address.
    destruct (call_engine_spec (EvWriteAddress (Last_address g))
                (chip_write_address (Last_address g)) (Ym_interface g) eq_refl)
      as (_ & _ & _ & D & _).
    destruct (call_engine_spec (EvWriteData (u8 value) false)
                (chip_write_data (u8 value) false)
                (call_engine (EvWriteAddress (Last_address g))
                   (chip_write_address (Last_address g)) (Ym_interface g)) eq_refl)
      as (_ & _ & _ & D' & _).
    congruence.
  - split; [assumption|]. exists 0%nat.
    apply (debug_write_bypasses_queue (u8 addr) (u8 value) g).
  - unfold YM_prerender.
    destruct (0 <? samples_to_render (u32 clocks) g);
      cbn [Ym_strict_busy Ym_interface set_clocks_elapsed set_interface];
      (split; [assumption|]).
    + apply pregenerate_samples_suffix.
    + now exists 0%nat.
  - unfold YM_render.
    match goal with |- context [generate ?b ?n ?r ?s] =>
      destruct (generate_suffix b n r s) as [k Hk];
      destruct (generate b n r s) as [b' i]
    end.
    cbn [snd Ym_strict_busy Ym_interface set_interface] in *.
    split; [assumption|]. now exists k.
  - split; [assumption|]. now exists 0%nat.
  - split; [assumption|]. exists 0%nat.
    unfold YM_reset, reset. cbn [Ym_interface skipn].
    apply (call_engine_spec EvReset chip_reset (Ym_interface g) eq_refl).
  - destruct enable; [|contradiction]. split; [reflexivity|]. now exists 0%nat.
  - split; [assumption|]. now exists 0%nat.
Qed.

(** X6.  With strict timing on, no operation ever adds to the deferred write
    queue: along any sequence of operations that leaves strict timing on,
    the queue is what is left of the queue at the start after some of its
    front entries were served; an empty queue stays empty. *)
Theorem strict_timing_never_queues ops : forall g,
  Ym_strict_busy g = true -> Forall keeps_strict ops ->
  exists k, m_write_queue (Ym_interface (ym_run ops g))
            = skipn k (m_write_queue (Ym_interface g)).
Proof.
  unfold ym_run.
  induction ops as [|o r IH]; intros g Hs Hops; cbn [fold_left].
  - now exists 0%nat.
  - inversion Hops as [|? ? Ho Hr]; subst.
    destruct (ym_step_strict g o Hs Ho) as [Hs' [k Hk]].
    destruct (IH (ym_step g o) Hs' Hr) as [k' Hk'].
    exists (k + k')%nat. rewrite Hk', Hk. apply skipn_add.
Qed.

(** *** Prerender and render, end to end *)

Lemma zsum_nonneg cs :
  Forall (fun c => 0 <= c /\ c + clocks_per_sample <= 4294967296) cs -> 0 <= zsum cs.
Proof.
  induction 1 as [|c r [Hc _] _ IH]; cbn; [lia|]. fold (zsum r). lia.
Qed.

Lemma prerender_run_used cs : forall g,
  0 < chip_sample_rate <= 4000000 ->
  0 <= clocks_elapsed g < clocks_per_sample ->
  Forall (fun c => 0 <= c /\ c + clocks_per_sample <= 4294967296) cs ->
  0 <= m_backbuffer_used (Ym_interface g) ->
  m_backbuffer_used (Ym_interface g) + (clocks_elapsed g + zsum cs) / clocks_per_sample
    <= m_backbuffer_size ->
  m_backbuffer_used (Ym_interface (prerender_run cs g)) =
    m_backbuffer_used (Ym_interface g) + (clocks_elapsed g + zsum cs) / clocks_per_sample.
Proof.
  unfold prerender_run.
  induction cs as [|c r IH]; intros g Hrate He Hcs Hu Hfit;
    cbn [fold_left zsum fold_right] in *.
  - rewrite Z.add_0_r, Z.div_small by lia. lia.
  - inversion Hcs as [|? ? [Hc Hc'] Hr]; subst. fold (zsum r) in *.
    pose proof (clocks_per_sample_ge2 Hrate) as Hcps.
    assert (Hcps0 : 0 < clocks_per_sample) by lia.
    assert (Hne : clocks_per_sample <> 0) by lia.
    destruct (prerender_elapsed c g Hcps0 He Hc Hc') as [S1 E1].
    pose proof (Z.mod_pos_bound (clocks_elapsed g + c) clocks_per_sample Hcps0) as Hm.
    pose proof (zsum_nonneg r Hr) as Hnn.
    pose proof (Z.div_mod (clocks_elapsed g + c) clocks_per_sample Hne) as Hdm.
    set (a := clocks_elapsed g + c) in *.
    assert (Heq : clocks_elapsed g + (c + zsum r) =
                  (a / clocks_per_sample) * clocks_per_sample
                  + (a mod clocks_per_sample + zsum r)) by lia.
    rewrite Heq, Z.div_add_l in * by lia.
    assert (Hq : 0 <= a / clocks_per_sample) by (apply Z.div_pos; lia).
    assert (Hq' : 0 <= (a mod clocks_per_sample + zsum r) / clocks_per_sample)
      by (apply Z.div_pos; lia).
    assert (Hsz : m_backbuffer_size = chip_sample_rate) by reflexivity.
    assert (U1 : m_backbuffer_used (Ym_interface (YM_prerender c g)) =
                 m_backbuffer_used (Ym_interface g) + a / clocks_per_sample).
    { unfold YM_prerender. rewrite S1.
      destruct (0 <? a / clocks_per_sample) eqn:Hn;
        cbn [Ym_interface set_clocks_elapsed set_interface].
      - pose proof (samples_to_render_bound c g Hrate) as Hb. rewrite S1 in Hb.
        destruct (pregenerate_samples_spec (a / clocks_per_sample) (Ym_interface g))
          as (U & _); lia.
      - apply Z.ltb_ge in Hn. lia. }
    rewrite IH; try assumption.
    + rewrite U1, E1. lia.
    + rewrite E1. exact Hm.
    + rewrite U1. lia.
    + rewrite U1, E1. lia.
Qed.

(** X7.  While the backbuffer has room, a run of [YM_prerender] calls that
    starts with no clocks carried over adds to it exactly the samples the
    clocks are worth: the count of held samples grows by the sum of the
    clocks divided by the clocks per sample, rounded down, however the
    clocks are spread over the calls. *)
Theorem prerender_fills_backbuffer cs g :
  0 < chip_sample_rate <= 4000000 ->
  clocks_elapsed g = 0 ->
  Forall (fun c => 0 <= c /\ c + clocks_per_sample <= 4294967296) cs ->
  0 <= m_backbuffer_used (Ym_interface g) ->
  m_backbuffer_used (Ym_interface g) + zsum cs / clocks_per_sample <= m_backbuffer_size ->
  m_backbuffer_used (Ym_interface (prerender_run cs g)) =
    m_backbuffer_used (Ym_interface g) + zsum cs / clocks_per_sample.
Proof.
  intros Hrate He Hcs Hu Hfit.
  pose proof (clocks_per_sample_ge2 Hrate) as Hcps.
  rewrite (prerender_run_used cs g Hrate); rewrite ?He; cbn [Z.add]; try assumption; lia.
Qed.


(** *** The interrupt line *)

Lemma ym_step_irq_enabled g o :
  Ym_irq_enabled g = false -> keeps_irq_disabled o ->
  Ym_irq_enabled (ym_step g o) = false.
Proof.
  intros Hi Ho. destruct o; cbn [ym_step keeps_irq_disabled] in *; try assumption.
  - unfold YM_write. destruct (negb (Z.land (u8 offset) 1 =? 0)); assumption.
  - unfold YM_prerender. destruct (0 <? samples_to_render (u32 clocks) g); assumption.
  - unfold YM_render. destruct (generate _ _ _ _) as [b i]. assumption.
  - destruct enabled; [contradiction | reflexivity].
Qed.

(** X9.  With the interrupt disabled, [YM_irq] stays false whatever the
    engine reports: along any sequence of operations that does not enable
    it, no write, production step, render or expired timer raises the
    line. *)
Theorem irq_stays_low_while_disabled ops : forall g,
  Ym_irq_enabled g = false -> Forall keeps_irq_disabled ops ->
  YM_irq (ym_run ops g) = false.
Proof.
  unfold ym_run, YM_irq.
  induction ops as [|o r IH]; intros g Hi Hops; cbn [fold_left].
  - now rewrite Hi.
  - inversion Hops as [|? ? Ho Hr]; subst.
    apply IH; [|assumption]. now apply ym_step_irq_enabled.
Qed.

(** *** Writes made while the chip is busy *)





(** *** The clock model and production together *)

(** X20.  The clock model only counts clocks: two runs of advances with the
    same total leave the busy counter and the counter of timer [i] the same
    and have called [engine_timer_expired(i)] the same number of times,
    whether the samples came one by one or in bulk; this for an engine that
    does not rearm or start a busy window on expiry. *)
Theorem clock_model_counts_total_ticks i l1 l2 s :
  i = 0 \/ i = 1 -> no_rearm i -> no_busy_on_expiry ->
  Forall advance_ok l1 -> Forall advance_ok l2 ->
  -2147483648 <= timer i s < 2147483648 -> 0 <= m_busy_timer s < 2147483648 ->
  total_ticks l1 = total_ticks l2 ->
  let s1 := fold_left advance_clocks l1 s in
  let s2 := fold_left advance_clocks l2 s in
  timer i s1 = timer i s2 /\
  fired i (m_trace s1) = fired i (m_trace s2) /\
  m_busy_timer s1 = m_busy_timer s2.
Proof.
  intros Hi Hq Hqb Hl1 Hl2 Ht Hb Heq. cbv zeta.
  destruct (advances_spec i l1 s Hi Hq Hl1 Ht) as [T1 F1].
  destruct (advances_spec i l2 s Hi Hq Hl2 Ht) as [T2 F2].
  rewrite T1, T2, F1, F2, (advances_busy l1 s Hqb Hl1 Hb), (advances_busy l2 s Hqb Hl2 Hb), Heq.
  repeat split.
Qed.

Lemma generate_into_backbuffer_quiet n s :
  quiet_generate ->
  m_timers (generate_into_backbuffer n s) = m_timers s /\
  m_busy_timer (generate_into_backbuffer n s) = m_busy_timer s /\
  m_trace (generate_into_backbuffer n s) = m_trace s ++ [EvGenerate n].
Proof.
  intros Hq. unfold generate_into_backbuffer. specialize (Hq n (m_chip s)).
  destruct (chip_generate n (m_chip s)) as [[c out] calls]. cbn [snd] in Hq. subst calls.
  repeat split.
Qed.

(** X21.  Production runs the clock model in step with the samples: with an
    empty write queue, [pregenerate(n)] that generates [nc] samples takes
    [64 * nc] clocks off the busy counter and off the counter of an armed
    timer, each stopped at 0, and calls [engine_timer_expired(i)] once if
    that uses up the counter of timer [i], not otherwise; this for an engine
    that calls nothing back while generating and does not rearm or start a
    busy window on expiry. *)
Theorem production_advances_clocks i n s :
  i = 0 \/ i = 1 -> no_rearm i -> no_busy_on_expiry -> quiet_generate ->
  m_write_queue s = [] ->
  0 < m_backbuffer_size < 33554432 ->
  0 <= m_backbuffer_used s <= m_backbuffer_size ->
  0 <= n -> m_backbuffer_used s + n < 4294967296 ->
  -2147483648 <= timer i s < 2147483648 -> 0 <= m_busy_timer s < 2147483648 ->
  let nc := Z.min n (m_backbuffer_size - m_backbuffer_used s) in
  let s' := pregenerate_samples n s in
  m_busy_timer s' = Z.max 0 (m_busy_timer s - 64 * nc) /\
  timer i s' = (if 0 <? timer i s then Z.max 0 (timer i s - 64 * nc) else timer i s) /\
  fired i (m_trace s') =
    (fired i (m_trace s) + Nat.b2n ((0 <? timer i s) && (timer i s <=? 64 * nc))%Z)%nat.
Proof.
  intros Hi Hq Hqb Hqg Hempty Hsz Hu Hn Hsum Ht Hb. cbv zeta.
  set (nc := Z.min n (m_backbuffer_size - m_backbuffer_used s)).
  unfold pregenerate_samples.
  assert (Hnc : (if m_backbuffer_size <? u32 (m_backbuffer_used s + n)
                 then u32 (m_backbuffer_size - m_backbuffer_used s) else n) = nc).
  { rewrite (u32_small (m_backbuffer_used s + n)) by lia.
    destruct (m_backbuffer_size <? m_backbuffer_used s + n) eqn:Hlt.
    - apply Z.ltb_lt in Hlt. rewrite u32_small by lia. unfold nc. lia.
    - apply Z.ltb_ge in Hlt. unfold nc. lia. }
  rewrite Hnc, Hempty. cbn [pregenerate_drain].
  assert (Hnc0 : 0 <= nc < 33554432) by (unfold nc; lia).
  destruct (0 <? nc) eqn:Hpos.
  - apply Z.ltb_lt in Hpos.
    destruct (generate_into_backbuffer_quiet nc s Hqg) as (GT & GB & GTr).
    set (s2 := generate_into_backbuffer nc s) in *.
    assert (Ht2 : timer i s2 = timer i s) by (unfold timer; now rewrite GT).
    assert (Hf2 : fired i (m_trace s2) = fired i (m_trace s)).
    { rewrite GTr, fired_app. cbn. lia. }
    rewrite (s32_small nc) by lia.
    pose proof (advance_clocks_busy (Ticks nc) s2 Hqb ltac:(cbn; lia) ltac:(lia)) as B.
    destruct (advance_clocks_spec i (Ticks nc) s2 Hi Hq ltac:(cbn; lia) ltac:(lia))
      as [T F].
    cbn [advance_clocks advance_ticks] in B, T, F.
    assert (Htimer : forall u x, timer i (set_backbuffer_used u x) = timer i x)
      by reflexivity.
    rewrite Htimer. cbn [m_busy_timer m_trace set_backbuffer_used].
    rewrite B, T, F, GB, Ht2, Hf2. repeat split.
  - apply Z.ltb_ge in Hpos. assert (nc = 0) by lia.
    replace (64 * nc) with 0 by lia.
    split; [lia|]. split.
    + destruct (0 <? timer i s) eqn:H0; [apply Z.ltb_lt in H0; lia | reflexivity].
    + destruct (0 <? timer i s) eqn:H0; cbn [andb Nat.b2n]; [|lia].
      apply Z.ltb_lt in H0.
      replace (timer i s <=? 0) with false by (symmetry; apply Z.leb_gt; lia).
      cbn. lia.
Qed.

(** *** Queued writes over a run of production calls *)




(** *** Prerender and the production calls it makes *)

Lemma prerender_interface c g :
  Ym_interface (YM_prerender c g)
  = prerender_produce (Ym_interface g) (samples_to_render c g).
Proof.
  unfold YM_prerender, prerender_produce.
  destruct (0 <? samples_to_render c g); reflexivity.
Qed.

(** The production calls of a run of [YM_prerender] calls are
    [pregenerate(n)] for the sample counts of the calls, in order. *)
Lemma prerender_run_interface cs : forall g,
  Ym_interface (prerender_run cs g)
  = fold_left prerender_produce (prerender_requests cs g) (Ym_interface g).
Proof.
  unfold prerender_run.
  induction cs as [|c r IH]; intros g; cbn [fold_left prerender_requests]; [reflexivity|].
  now rewrite IH, prerender_interface.
Qed.

Lemma prerender_step_generated c g :
  0 < chip_sample_rate <= 4000000 ->
  0 <= m_backbuffer_used (Ym_interface g) <= m_backbuffer_size ->
  0 <= m_backbuffer_used (Ym_interface (YM_prerender c g)) <= m_backbuffer_size /\
  generated (m_trace (Ym_interface (YM_prerender c g)))
  - generated (m_trace (Ym_interface g))
  = m_backbuffer_used (Ym_interface (YM_prerender c g))
    - m_backbuffer_used (Ym_interface g).
Proof.
  intros Hrate Hu.
  assert (Hsz : m_backbuffer_size = chip_sample_rate) by reflexivity.
  pose proof (samples_to_render_bound c g Hrate) as Hn.
  rewrite prerender_interface. unfold prerender_produce.
  destruct (0 <? samples_to_render c g); [|lia].
  pose proof (pregenerate_samples_generated (samples_to_render c g) (Ym_interface g)
                ltac:(lia) Hu ltac:(lia) ltac:(lia)) as G.
  destruct (pregenerate_samples_spec (samples_to_render c g) (Ym_interface g)
              ltac:(lia) Hu ltac:(lia) ltac:(lia)) as (U & _).
  cbv zeta in G. split; [rewrite U; lia | exact G].
Qed.

Lemma prerender_run_generated cs : forall g,
  0 < chip_sample_rate <= 4000000 ->
  0 <= m_backbuffer_used (Ym_interface g) <= m_backbuffer_size ->
  generated (m_trace (Ym_interface (prerender_run cs g)))
  - generated (m_trace (Ym_interface g))
  = m_backbuffer_used (Ym_interface (prerender_run cs g))
    - m_backbuffer_used (Ym_interface g).
Proof.
  unfold prerender_run.
  induction cs as [|c r IH]; intros g Hrate Hu; cbn [fold_left]; [lia|].
  destruct (prerender_step_generated c g Hrate Hu) as [Hu1 G1].
  pose proof (IH (YM_prerender c g) Hrate Hu1) as G. lia.
Qed.

Lemma prerender_fills_used cs g :
  0 < chip_sample_rate <= 4000000 ->
  clocks_elapsed g = 0 ->
  Forall (fun c => 0 <= c /\ c + clocks_per_sample <= 4294967296) cs ->
  0 <= m_backbuffer_used (Ym_interface g) ->
  m_backbuffer_used (Ym_interface g) + zsum cs / clocks_per_sample <= m_backbuffer_size ->
  m_backbuffer_used (Ym_interface (prerender_run cs g)) =
    m_backbuffer_used (Ym_interface g) + zsum cs / clocks_per_sample.
Proof.
  intros Hrate He Hcs Hu Hfit.
  pose proof (clocks_per_sample_ge2 Hrate) as Hcps.
  rewrite (prerender_run_used cs g Hrate); rewrite ?He; cbn [Z.add]; try assumption; lia.
Qed.

(** C8 (as amended).  Over a run of [YM_prerender] calls that starts with
    nothing carried over and in which no call overflows the 32-bit count of
    elapsed clocks, the production calls made are [pregenerate(n)] for the
    [samples_to_render] of each call that has a sample to render, in order,
    and these counts add up to the clocks of all the calls divided by the
    clocks per sample, rounded down; the remainder is carried to the next
    call.  One call with all the clocks, where they fit 32 bits, asks
    [pregenerate] for that same total.  Where the backbuffer has room for
    the total, the engine is asked for exactly that many samples. *)
Theorem prerender_asks_production_for_elapsed_samples cs g :
  0 < chip_sample_rate <= 8000000 ->
  clocks_elapsed g = 0 ->
  Forall (fun c => 0 <= c /\ c + clocks_per_sample <= 4294967296) cs ->
  Ym_interface (prerender_run cs g)
  = fold_left prerender_produce (prerender_requests cs g) (Ym_interface g) /\
  zsum (prerender_requests cs g) = zsum cs / clocks_per_sample /\
  clocks_elapsed (prerender_run cs g) = zsum cs mod clocks_per_sample /\
  (zsum cs < 4294967296 ->
   Ym_interface (YM_prerender (zsum cs) g)
   = prerender_produce (Ym_interface g) (zsum cs / clocks_per_sample)) /\
  (chip_sample_rate <= 4000000 ->
   0 <= m_backbuffer_used (Ym_interface g) ->
   m_backbuffer_used (Ym_interface g) + zsum cs / clocks_per_sample <= m_backbuffer_size ->
   generated (m_trace (Ym_interface (prerender_run cs g)))
   - generated (m_trace (Ym_interface g)) = zsum cs / clocks_per_sample).
Proof.
  intros Hrate He Hcs.
  destruct (prerender_carries_remainder cs g Hrate He Hcs) as (S1 & E1 & O1).
  split; [apply prerender_run_interface|].
  split; [exact S1|]. split; [exact E1|]. split.
  - intros Hsum. rewrite prerender_interface, <- (O1 Hsum), S1. reflexivity.
  - intros Hrate' Hu Hroom.
    assert (Hq : 0 <= zsum cs / clocks_per_sample).
    { apply Z.div_pos; [now apply zsum_nonneg|].
      unfold clocks_per_sample, get_sample_rate. apply Z.div_str_pos. lia. }
    rewrite prerender_run_generated by lia.
    rewrite (prerender_fills_used cs g) by (assumption || lia). lia.
Qed.

End Properties.

(** * The model at work on the small engine *)

Lemma toy_no_rearm i : @no_rearm toy_engine i.
Proof. intros j c. reflexivity. Qed.

Lemma toy_no_cross_rearm i : @no_cross_rearm toy_engine i.
Proof. intros j c _ _. reflexivity. Qed.

Lemma toy_periodic_no_cross_rearm i : @no_cross_rearm toy_periodic_engine i.
Proof.
  intros j c Hj Hne. cbn. rewrite orb_false_r.
  apply Z.eqb_neq. destruct Hj; subst j; exact Hne.
Qed.

(** Timer 0 armed for 100 ticks and advanced sample by sample: nothing after
    the first sample (64 ticks), the call during the second (128 ticks), and
    no further call during the third. *)
Lemma timer_fires_once_per_arming_witness :
  let s := @ym2151_interface_new toy_engine (0, []) in
  (timer 0 (fold_left advance_clocks [Tick] (ymfm_set_timer 0 100 s)) = 36 /\
   fired 0 (m_trace (fold_left advance_clocks [Tick] (ymfm_set_timer 0 100 s))) = 0%nat) /\
  (timer 0 (fold_left advance_clocks [Tick; Tick] (ymfm_set_timer 0 100 s)) = 0 /\
   fired 0 (m_trace (fold_left advance_clocks [Tick; Tick] (ymfm_set_timer 0 100 s))) = 1%nat) /\
  (timer 0 (fold_left advance_clocks [Tick; Tick; Tick] (ymfm_set_timer 0 100 s)) = 0 /\
   fired 0 (m_trace (fold_left advance_clocks [Tick; Tick; Tick] (ymfm_set_timer 0 100 s))) = 1%nat).
Proof.
  intros s.
  pose proof (fun l H => proj2 (proj2 (@timer_fires_once_per_arming toy_engine 0 100 s l
                 (or_introl eq_refl) (toy_no_cross_rearm 0) ltac:(lia) H))
                 (toy_no_rearm 0)) as T.
  split; [|split].
  - exact (T [Tick] ltac:(repeat constructor)).
  - exact (T [Tick; Tick] ltac:(repeat constructor)).
  - exact (T [Tick; Tick; Tick] ltac:(repeat constructor)).
Defined.

(** The example of the claim on the code: with [update_clocks(40)] three
    times the call comes during the first advance, with [update_clocks()]
    three times during the second; in neither reading during the third.
    And a timer armed with duration 0 is never reported, however far the
    clock advances. *)
Lemma timer_example_counterexample :
  let s0 := @ym2151_interface_new toy_engine (0, []) in
  let s := ymfm_set_timer 0 100 s0 in
  let after l := fired 0 (m_trace (fold_left advance_clocks l s)) in
  ~ (after [Ticks 40; Ticks 40] = 0%nat /\ after [Ticks 40; Ticks 40; Ticks 40] = 1%nat) /\
  ~ (after [Tick; Tick] = 0%nat /\ after [Tick; Tick; Tick] = 1%nat) /\
  after [Ticks 40] = 1%nat /\ after [Tick] = 0%nat /\ after [Tick; Tick] = 1%nat /\
  fired 0 (m_trace (fold_left advance_clocks [Tick; Ticks 1000]
                      (ymfm_set_timer 0 0 s0))) = 0%nat.
Proof.
  cbv zeta. split; [|split; [|split; [|split; [|split]]]].
  - intros [H _]. vm_compute in H. discriminate.
  - intros [H _]. vm_compute in H. discriminate.
  - vm_compute. reflexivity.
  - vm_compute. reflexivity.
  - vm_compute. reflexivity.
  - vm_compute. reflexivity.
Qed.

(** With periodic timers: timer 0 armed for 100 clocks keeps expiring and
    being set anew, timer 1 armed with 0 is never reported. *)
Lemma timer_armed_with_zero_never_fires_witness :
  let s := ymfm_set_timer 0 100 (@ym2151_interface_new toy_periodic_engine (0, [])) in
  timer 1 (fold_left advance_clocks [Tick; Ticks 1000; Tick] (ymfm_set_timer 1 0 s)) = 0 /\
  fired 1 (m_trace (fold_left advance_clocks [Tick; Ticks 1000; Tick] (ymfm_set_timer 1 0 s)))
  = 0%nat.
Proof.
  intros s.
  exact (proj1 (@timer_armed_with_zero_never_fires toy_periodic_engine 1 s
                  [Tick; Ticks 1000; Tick] (or_intror eq_refl)
                  (toy_periodic_no_cross_rearm 1))).
Defined.

(** The cycles of a periodic timer: armed for 100 clocks it expires during
    the second sample and is set anew for 640 clocks, which last ten more
    samples; one call per cycle. *)
Example periodic_timer_cycles :
  let s := ymfm_set_timer 0 100 (@ym2151_interface_new toy_periodic_engine (0, [])) in
  let after l := fired 0 (m_trace (fold_left advance_clocks l s)) in
  after [Tick] = 0%nat /\ after [Tick; Tick] = 1%nat /\
  after [Tick; Tick; Ticks 9] = 1%nat /\ after [Tick; Tick; Ticks 10] = 2%nat /\
  timer 0 (fold_left advance_clocks [Tick; Tick] s) = 640.
Proof. vm_compute. repeat split. Qed.

(** The latch after a write that strict timing dropped: the first write to
    register 8 reaches the engine and makes it busy, the second one is
    dropped with a warning, and yet the latch holds the second value. *)
Lemma latch_keeps_dropped_write_counterexample :
  let g := ym_run dropped_write_ops toy_new in
  Ym_registers g 8 = 34 /\
  last_write 8 (engine_writes 0 (m_trace (Ym_interface g))) = Some 17 /\
  engine_writes 0 (m_trace (Ym_interface g)) = [(8, 17, false)] /\
  Some (Ym_registers g 8) <> last_write 8 (engine_writes 0 (m_trace (Ym_interface g))).
Proof.
  cbv zeta. split; [|split; [|split]].
  - vm_compute. reflexivity.
  - vm_compute. reflexivity.
  - vm_compute. reflexivity.
  - vm_compute. discriminate.
Qed.

(** In the same state the public debug read answers 34 for register 8 while
    the engine's own storage holds 17. *)
Lemma public_debug_read_counterexample :
  let g := ym_run dropped_write_ops toy_new in
  YM_debug_read 8 g = 34 /\
  chip_get_register_data (m_chip (Ym_interface g)) 8 = 17 /\
  YM_debug_read 8 g <> chip_get_register_data (m_chip (Ym_interface g)) 8.
Proof.
  cbv zeta. split; [|split].
  - vm_compute. reflexivity.
  - vm_compute. reflexivity.
  - vm_compute. discriminate.
Qed.

Lemma toy_rate : 0 < @chip_sample_rate toy_engine <= 4000000.
Proof. change (0 < 55930 <= 4000000). lia. Qed.

(** On an empty backbuffer of 55930 entries a request for 60000 samples is
    cut to 55930, and a long run of prerender calls stays within the buffer. *)
Lemma backbuffer_used_within_capacity_witness :
  let s := Ym_interface toy_new in
  m_backbuffer_used (pregenerate_samples 60000 s) = 55930 /\
  0 <= m_backbuffer_used
         (Ym_interface (ym_run [OpPrerender 1430; OpPrerender 100000000] toy_new))
    <= 55930.
Proof.
  intros s.
  destruct (@backbuffer_used_within_capacity toy_engine toy_rate) as [A B].
  split.
  - refine (proj1 (B 60000 s _ _ _)); now vm_compute.
  - refine (A [OpPrerender 1430; OpPrerender 100000000] toy_new _). now vm_compute.
Defined.

(** 143 clocks make a sample: three calls of 100 clocks ask for 0, 1 and 1
    samples, 2 in all, and 14 clocks are carried on. *)
Lemma prerender_carries_remainder_witness :
  zsum (prerender_requests [100; 100; 100] toy_new) = 2 /\
  clocks_elapsed (prerender_run [100; 100; 100] toy_new) = 14 /\
  prerender_requests [100; 100; 100] toy_new = [0; 1; 1].
Proof.
  assert (Hrate : 0 < @chip_sample_rate toy_engine <= 8000000)
    by (change (0 < 55930 <= 8000000); lia).
  assert (Hcs : Forall (fun c => 0 <= c /\ c + @clocks_per_sample toy_engine <= 4294967296)
                  [100; 100; 100]).
  { repeat constructor; now vm_compute. }
  destruct (@prerender_carries_remainder toy_engine [100; 100; 100] toy_new
              Hrate eq_refl Hcs) as (S1 & E1 & _).
  split; [exact S1|]. split; [exact E1|]. vm_compute. reflexivity.
Defined.

(** A write queued behind a busy chip, then [pregenerate()] twice. *)
Lemma pregenerate_applies_front_again_witness :
  m_write_queue queued_write_state = [(8, 34)] /\
  m_write_queue (pregenerate (pregenerate queued_write_state)) = [(8, 34)] /\
  production_calls (m_trace (pregenerate (pregenerate queued_write_state))) =
    production_calls (m_trace queued_write_state)
    ++ drained_write (8, 34) ++ drained_write (8, 34).
Proof.
  assert (Hq : m_write_queue queued_write_state = [(8, 34)]) by (vm_compute; reflexivity).
  split; [exact Hq|].
  refine (@pregenerate_applies_front_again toy_engine 8 34 [] queued_write_state Hq _ _ _);
    now vm_compute.
Defined.

(** The engine's view of that run: register 8 gets 17 once and 34 twice. *)
Example pregenerate_twice_engine_writes :
  engine_writes 0 (m_trace (pregenerate (pregenerate queued_write_state))) =
  [(8, 17, false); (8, 34, false); (8, 34, false)].
Proof. vm_compute. reflexivity. Qed.

(** The sibling [pregenerate(samples)] on three writes queued behind a busy
    chip: ten samples, the three writes in submission order with one sample
    after each, then seven samples in one request, and an empty queue. *)
Example pregenerate_samples_drains_in_order :
  let s0 := ymfm_set_busy_end 640 (Ym_interface toy_new) in
  let s1 := write false 27 3 (write false 24 2 (write false 8 1 s0)) in
  let s2 := pregenerate_samples 10 s1 in
  m_write_queue s1 = [(8, 1); (24, 2); (27, 3)] /\
  m_write_queue s2 = [] /\ m_backbuffer_used s2 = 10 /\
  production_calls (m_trace s2) =
    drained_write (8, 1) ++ drained_write (24, 2) ++ drained_write (27, 3)
    ++ [EvGenerate 7].
Proof. vm_compute. repeat split. Qed.

(** Render on the small engine: 100 samples are held, a request for one
    output sample at the native rate needs two of them; the caller's buffer
    comes back untouched and all 100 samples are gone. *)
Example render_one_sample :
  let g := ym_run [OpPrerender 14300] toy_new in
  let r := YM_render [7; 7] 1 55930 g in
  m_backbuffer_used (Ym_interface g) = 100 /\
  @orig_samples_needed toy_engine 1 55930 = 2 /\
  fst r = [7; 7] /\
  m_backbuffer_used (Ym_interface (snd r)) = 0 /\
  generated (m_trace (Ym_interface (snd r))) = generated (m_trace (Ym_interface g)).
Proof. vm_compute. repeat split. Qed.

(** ** Further properties on the small engine *)

Lemma toy_size : @m_backbuffer_size toy_engine < 4294967296.
Proof. change (55930 < 4294967296). lia. Qed.

Lemma toy_no_busy_on_expiry : @no_busy_on_expiry toy_engine.
Proof. intros j c. reflexivity. Qed.


(** Two samples asked, then eight: the same as ten at once. *)
Lemma pregenerate_samples_batching_witness :
  let s2 := pregenerate_samples 8 (pregenerate_samples 2 busy_queue_state) in
  let s1 := pregenerate_samples (2 + 8) busy_queue_state in
  m_backbuffer_used s2 = m_backbuffer_used s1 /\
  m_write_queue s2 = m_write_queue s1 /\
  generated (m_trace s2) = generated (m_trace s1) /\
  write_calls (m_trace s2) = write_calls (m_trace s1).
Proof.
  refine (@pregenerate_samples_batching toy_engine 2 8 busy_queue_state toy_size _ _ _ _);
    now vm_compute.
Defined.

(** A busy window of 640 clocks is over after ten samples, not after nine;
    one of 2^32 - 1 clocks is stored as -1 and is over at once. *)
Lemma busy_window_decays_witness :
  let s := Ym_interface toy_new in
  (m_busy_timer (fold_left advance_clocks [Tick; Ticks 8] (ymfm_set_busy_end 640 s)) = 64 /\
   0 <= m_busy_timer (fold_left advance_clocks [Tick; Ticks 8] (ymfm_set_busy_end 640 s)) /\
   ymfm_is_busy (fold_left advance_clocks [Tick; Ticks 8] (ymfm_set_busy_end 640 s)) = true) /\
  (m_busy_timer (fold_left advance_clocks [Tick; Ticks 8; Tick] (ymfm_set_busy_end 640 s)) = 0 /\
   0 <= m_busy_timer (fold_left advance_clocks [Tick; Ticks 8; Tick] (ymfm_set_busy_end 640 s)) /\
   ymfm_is_busy (fold_left advance_clocks [Tick; Ticks 8; Tick] (ymfm_set_busy_end 640 s))
   = false) /\
  (m_busy_timer (ymfm_set_busy_end 4294967295 s) = -1 /\
   m_busy_timer (ymfm_set_busy_end 4294967295 s) < 0 /\
   ymfm_is_busy (ymfm_set_busy_end 4294967295 s) = false).
Proof.
  intros s.
  pose proof (fun c l H Hc => @busy_window_decays toy_engine c s l toy_no_busy_on_expiry
                 H Hc) as T.
  split; [|split].
  - exact (proj1 (T 640 [Tick; Ticks 8] ltac:(repeat constructor; lia) ltac:(lia))
             ltac:(lia)).
  - exact (proj1 (T 640 [Tick; Ticks 8; Tick] ltac:(repeat constructor; lia) ltac:(lia))
             ltac:(lia)).
  - exact (proj2 (T 4294967295 [] ltac:(constructor) ltac:(lia)) ltac:(lia)).
Defined.

(** Strict timing on: the second write arrives while the chip is busy and is
    not queued. *)
Lemma strict_timing_never_queues_witness :
  let g := YM_set_strict_busy true toy_new in
  exists k,
    m_write_queue (Ym_interface
      (ym_run [OpWrite 0 8; OpWrite 1 17; OpWrite 0 8; OpWrite 1 34; OpPrerender 1000] g))
    = skipn k (m_write_queue (Ym_interface g)).
Proof.
  intros g.
  refine (@strict_timing_never_queues toy_engine
            [OpWrite 0 8; OpWrite 1 17; OpWrite 0 8; OpWrite 1 34; OpPrerender 1000]
            g eq_refl _).
  repeat constructor.
Defined.

(** Three calls of 100 clocks at 143 clocks per sample put two samples into
    the empty backbuffer. *)
Lemma prerender_fills_backbuffer_witness :
  m_backbuffer_used (Ym_interface (prerender_run [100; 100; 100] toy_new)) = 2.
Proof.
  assert (Hcs : Forall (fun c => 0 <= c /\ c + @clocks_per_sample toy_engine <= 4294967296)
                  [100; 100; 100]).
  { repeat constructor; now vm_compute. }
  refine (@prerender_fills_backbuffer toy_engine [100; 100; 100] toy_new
            toy_rate eq_refl Hcs _ _); now vm_compute.
Defined.


(** 100000 output samples at 55930 Hz: the 32-bit product
    [100000 * 55930] is cut to 1298032704, and the engine is asked for 23209
    samples, not for the 100001 of the exact quotient. *)
Example render_product_wraps :
  let s := Ym_interface toy_new in
  let s' := snd (generate [] 100000 55930 s) in
  generated (m_trace s') - generated (m_trace s) = 23209 /\
  1 + 100000 * @chip_sample_rate toy_engine / 55930 = 100001.
Proof. now vm_compute. Qed.


(** 143 clocks make a sample: three calls of 100 clocks call [pregenerate(1)]
    in the second and in the third call and nothing else, 2 samples in all
    with 14 clocks carried on; one call of 300 clocks calls [pregenerate(2)]. *)
Lemma prerender_asks_production_for_elapsed_samples_witness :
  let g := toy_new in
  Ym_interface (prerender_run [100; 100; 100] g)
  = pregenerate_samples 1 (pregenerate_samples 1 (Ym_interface g)) /\
  zsum (prerender_requests [100; 100; 100] g) = 2 /\
  clocks_elapsed (prerender_run [100; 100; 100] g) = 14 /\
  Ym_interface (YM_prerender 300 g) = pregenerate_samples 2 (Ym_interface g) /\
  generated (m_trace (Ym_interface (prerender_run [100; 100; 100] g)))
  - generated (m_trace (Ym_interface g)) = 2.
Proof.
  intros g.
  assert (Hrate : 0 < @chip_sample_rate toy_engine <= 8000000)
    by (change (0 < 55930 <= 8000000); lia).
  assert (Hcs : Forall (fun c => 0 <= c /\ c + @clocks_per_sample toy_engine <= 4294967296)
                  [100; 100; 100]).
  { repeat constructor; now vm_compute. }
  destruct (@prerender_asks_production_for_elapsed_samples toy_engine [100; 100; 100] g
              Hrate eq_refl Hcs) as (I & S1 & E1 & O1 & G1).
  split; [exact I|]. split; [exact S1|]. split; [exact E1|].
  split; [exact (O1 ltac:(now vm_compute))|].
  exact (G1 ltac:(now vm_compute) ltac:(now vm_compute) ltac:(now vm_compute)).
Defined.

(** A call whose clocks overflow the 32-bit count of elapsed clocks: after
    100 clocks, a call of 2^32 - 1 clocks leaves 99 clocks counted.  Neither
    call asks production for a sample, and the engine generates none, where
    the clocks of the two calls are worth 30034737 samples. *)
Lemma prerender_wraps_counterexample :
  let cs := [100; 4294967295] in
  let g := toy_new in
  Forall (fun c => 0 <= c < 4294967296) cs /\
  clocks_elapsed g = 0 /\
  prerender_requests cs g = [0; 0] /\
  production_calls (m_trace (Ym_interface (prerender_run cs g))) = [] /\
  clocks_elapsed (prerender_run cs g) = 99 /\
  zsum cs / @clocks_per_sample toy_engine = 30034737 /\
  zsum (prerender_requests cs g) <> zsum cs / @clocks_per_sample toy_engine.
Proof.
  intros cs g.
  split; [repeat constructor; now vm_compute|].
  split; [reflexivity|]. split; [now vm_compute|]. split; [now vm_compute|].
  split; [now vm_compute|]. split; [now vm_compute|].
  vm_compute. discriminate.
Defined.

(** The interrupt disabled from the start: the line stays low. *)
Lemma irq_stays_low_while_disabled_witness :
  YM_irq (ym_run [OpWrite 0 8; OpWrite 1 17; OpPrerender 1000; OpRender 10 44100;
                  OpSetIrqEnabled false] toy_new) = false.
Proof.
  refine (@irq_stays_low_while_disabled toy_engine _ toy_new eq_refl _).
  repeat constructor.
Defined.


(** * Properties of the field accessors *)

Section AccessorProperties.
Context {E : ToneEngine} {Hd : YmHeader}.

Ltac in_list := cbn; repeat (first [left; reflexivity | right]).

Lemma u8_small x : 0 <= x < 256 -> u8 x = x.
Proof. intros Hx. unfold u8. apply Z.mod_small; lia. Qed.

Lemma land7_range v : 0 <= v -> 0 <= Z.land v 7 < 8.
Proof.
  intros Hv. change 7 with (Z.ones 3). rewrite Z.land_ones by lia.
  apply Z.mod_pos_bound. lia.
Qed.

Lemma b2z_range b : 0 <= Z.b2z b < 2.
Proof. destruct b; cbn; lia. Qed.

Lemma YM_debug_write_touches_only addr value g :
  touches_only addr g (YM_debug_write addr value g).
Proof.
  unfold touches_only, YM_debug_write, debug_write, write_data, write_address.
  cbn [Ym_interface Ym_registers Last_address].
  destruct (call_engine_spec (EvWriteAddress addr) (chip_write_address addr)
              (Ym_interface g) eq_refl) as (_ & _ & C & D & _).
  destruct (call_engine_spec (EvWriteData value true) (chip_write_data value true)
              (call_engine (EvWriteAddress addr) (chip_write_address addr) (Ym_interface g))
              eq_refl) as (_ & _ & C' & D' & _).
  repeat split; try congruence.
  intros a Ha. replace (a =? addr) with false by (symmetry; apply Z.eqb_neq; assumption).
  reflexivity.
Qed.

Lemma touches_only_refl addr g : touches_only addr g g.
Proof. repeat split. Qed.

(** Reading a field back from the entry a mutator has just written. *)
Lemma roundtrip_at f addr v g :
  field_law f -> 0 <= Ym_registers g addr < 256 ->
  0 <= v < 2 ^ field_width f -> v < 256 ->
  u8 (get_bit_field f
        (Ym_registers
           (YM_debug_write addr (u8 (set_bit_field f (Ym_registers g addr) v)) g) addr)) = v.
Proof.
  intros Hlaw Hb Hv Hv'. unfold YM_debug_write. cbn [Ym_registers].
  rewrite Z.eqb_refl, Hlaw by assumption. apply u8_small. lia.
Qed.

(** Reading another field of the entry a mutator has just written. *)
Lemma frame_at f f' addr v g :
  field_frame f f' -> 0 <= Ym_registers g addr < 256 ->
  0 <= v < 2 ^ field_width f ->
  u8 (get_bit_field f'
        (Ym_registers
           (YM_debug_write addr (u8 (set_bit_field f (Ym_registers g addr) v)) g) addr))
  = u8 (get_bit_field f' (Ym_registers g addr)).
Proof.
  intros Hfr Hb Hv. unfold YM_debug_write. cbn [Ym_registers].
  now rewrite Z.eqb_refl, Hfr.
Qed.

(** The value a mutator writes fits its field. *)
Ltac solve_range :=
  try match goal with |- context [2 ^ field_width ?f] =>
    let w := eval vm_compute in (2 ^ field_width f) in
    change (2 ^ field_width f) with w
  end;
  first
    [ lia
    | match goal with |- context [Z.b2z ?b] => pose proof (b2z_range b); lia end
    | match goal with |- context [Z.land ?v 7] =>
        pose proof (land7_range v ltac:(lia)); lia
      end ].

(** The register address of a voice or an operator is a byte. *)
Ltac use_offsets Hvo Hoo :=
  try match goal with
  | |- context [u8 (?off + ?op * 8 + ?voice)] =>
      let Hoff := fresh "Hoff" in
      pose proof (proj1 (Forall_forall _ _) Hoo off ltac:(in_list)) as Hoff;
      cbv beta in Hoff; rewrite (u8_small (off + op * 8 + voice)) by lia
  | |- context [u8 (?off + ?voice)] =>
      let Hoff := fresh "Hoff" in
      pose proof (proj1 (Forall_forall _ _) Hvo off ltac:(in_list)) as Hoff;
      cbv beta in Hoff; rewrite (u8_small (off + voice)) by lia
  end.

Ltac round_trip Hlaw Hb :=
  apply roundtrip_at;
  [ apply (proj1 (Forall_forall _ _) Hlaw); in_list | apply Hb
  | solve_range | solve_range ].

Ltac keep_neighbour Hfr Hb :=
  apply frame_at;
  [ match goal with |- field_frame ?f ?f' =>
      apply (proj1 (Forall_forall _ _) Hfr (f, f')); in_list
    end
  | apply Hb | solve_range ].

(** X11.  A voice index of 8 or more, or for the operator accessors an
    operator index of 4 or more, is harmless: every getter answers 0 and
    every mutator leaves the latch, the engine and everything else exactly
    as they were. *)
Theorem accessors_ignore_missing_voice voice op v b g :
  (8 <= voice ->
   YM_get_voice_connection_type voice g = 0 /\
   YM_get_voice_self_feedback_level voice g = 0 /\
   YM_get_voice_left_enable voice g = 0 /\
   YM_get_voice_right_enable voice g = 0 /\
   YM_get_voice_note voice g = 0 /\
   YM_get_voice_octave voice g = 0 /\
   YM_get_voice_key_fraction voice g = 0 /\
   YM_get_voice_amplitude_modulation_sensitivity voice g = 0 /\
   YM_get_voice_phase_modulation_sensitivity voice g = 0 /\
   YM_set_voice_connection_type voice v g = g /\
   YM_set_voice_self_feedback_level voice v g = g /\
   YM_set_voice_left_enable voice b g = g /\
   YM_set_voice_right_enable voice b g = g /\
   YM_set_voice_note voice v g = g /\
   YM_set_voice_octave voice v g = g /\
   YM_set_voice_key_fraction voice v g = g /\
   YM_set_voice_amplitude_modulation_sensitivity voice v g = g /\
   YM_set_voice_phase_modulation_sensitivity voice v g = g) /\
  (8 <= voice \/ 4 <= op ->
   YM_get_operator_phase_multiply voice op g = 0 /\
   YM_get_operator_detune_1 voice op g = 0 /\
   YM_get_operator_total_level voice op g = 0 /\
   YM_get_operator_attack_rate voice op g = 0 /\
   YM_get_operator_key_scaling voice op g = 0 /\
   YM_get_operator_decay_rate_1 voice op g = 0 /\
   YM_get_operator_ams_enabled voice op g = 0 /\
   YM_get_operator_decay_rate_2 voice op g = 0 /\
   YM_get_operator_detune_2 voice op g = 0 /\
   YM_get_operator_release_rate voice op g = 0 /\
   YM_get_operator_decay_1_level voice op g = 0 /\
   YM_set_operator_phase_multiply voice op v g = g /\
   YM_set_operator_detune_1 voice op v g = g /\
   YM_set_operator_total_level voice op v g = g /\
   YM_set_operator_attack_rate voice op v g = g /\
   YM_set_operator_key_scaling voice op v g = g /\
   YM_set_operator_decay_rate_1 voice op v g = g /\
   YM_set_operator_ams_enabled voice op b g = g /\
   YM_set_operator_decay_rate_2 voice op v g = g /\
   YM_set_operator_detune_2 voice op v g = g /\
   YM_set_operator_release_rate voice op v g = g /\
   YM_set_operator_decay_1_level voice op v g = g).
Proof.
  split.
  - intros Hv. assert (Hg : (voice <? 8) = false) by (apply Z.ltb_ge; lia).
    unfold YM_get_voice_connection_type, YM_get_voice_self_feedback_level,
      YM_get_voice_left_enable, YM_get_voice_right_enable, YM_get_voice_note,
      YM_get_voice_octave, YM_get_voice_key_fraction,
      YM_get_voice_amplitude_modulation_sensitivity,
      YM_get_voice_phase_modulation_sensitivity,
      YM_set_voice_connection_type, YM_set_voice_self_feedback_level,
      YM_set_voice_left_enable, YM_set_voice_right_enable, YM_set_voice_note,
      YM_set_voice_octave, YM_set_voice_key_fraction,
      YM_set_voice_amplitude_modulation_sensitivity,
      YM_set_voice_phase_modulation_sensitivity.
    rewrite !Hg. repeat split.
  - intros Hv. assert (Hg : ((voice <? 8) && (op <? 4)) = false).
    { apply andb_false_iff. destruct Hv; [left | right]; apply Z.ltb_ge; lia. }
    unfold YM_get_operator_phase_multiply, YM_get_operator_detune_1,
      YM_get_operator_total_level, YM_get_operator_attack_rate,
      YM_get_operator_key_scaling, YM_get_operator_decay_rate_1,
      YM_get_operator_ams_enabled, YM_get_operator_decay_rate_2,
      YM_get_operator_detune_2, YM_get_operator_release_rate,
      YM_get_operator_decay_1_level, YM_set_operator_phase_multiply,
      YM_set_operator_detune_1, YM_set_operator_total_level,
      YM_set_operator_attack_rate, YM_set_operator_key_scaling,
      YM_set_operator_decay_rate_1, YM_set_operator_ams_enabled,
      YM_set_operator_decay_rate_2, YM_set_operator_detune_2,
      YM_set_operator_release_rate, YM_set_operator_decay_1_level.
    rewrite !Hg. repeat split.
Qed.

(** X12.  For an existing voice, each voice field written by its mutator is
    what its getter then returns, for every value that fits the field:
    connection type (the mutator keeps the low three bits of its argument),
    self feedback level, left and right enable, note, octave, key fraction
    and phase modulation sensitivity. *)
Theorem voice_fields_round_trip voice g :
  offsets_ok ->
  Forall field_law [Bits 2 0; Bits 5 3; Bit 6; Bit 7; Bits 3 0; Bits 6 4; Bits 7 2] ->
  latch_bytes g ->
  0 <= voice < 8 ->
  (forall v, 0 <= v < 256 -> YM_get_voice_connection_type voice
     (YM_set_voice_connection_type voice v g) = Z.land v 7) /\
  (forall v, 0 <= v < 8 -> YM_get_voice_self_feedback_level voice
     (YM_set_voice_self_feedback_level voice v g) = v) /\
  (forall b, YM_get_voice_left_enable voice
     (YM_set_voice_left_enable voice b g) = Z.b2z b) /\
  (forall b, YM_get_voice_right_enable voice
     (YM_set_voice_right_enable voice b g) = Z.b2z b) /\
  (forall v, 0 <= v < 16 -> YM_get_voice_note voice
     (YM_set_voice_note voice v g) = v) /\
  (forall v, 0 <= v < 8 -> YM_get_voice_octave voice
     (YM_set_voice_octave voice v g) = v) /\
  (forall v, 0 <= v < 64 -> YM_get_voice_key_fraction voice
     (YM_set_voice_key_fraction voice v g) = v) /\
  (forall v, 0 <= v < 8 -> YM_get_voice_phase_modulation_sensitivity voice
     (YM_set_voice_phase_modulation_sensitivity voice v g) = v).
Proof.
  intros [Hvo Hoo] Hlaw Hb Hvoice.
  assert (Hguard : (voice <? 8) = true) by (apply Z.ltb_lt; lia).
  unfold YM_get_voice_connection_type, YM_set_voice_connection_type,
    YM_get_voice_self_feedback_level, YM_set_voice_self_feedback_level,
    YM_get_voice_left_enable, YM_set_voice_left_enable,
    YM_get_voice_right_enable, YM_set_voice_right_enable, YM_get_voice_note,
    YM_set_voice_note, YM_get_voice_octave, YM_set_voice_octave,
    YM_get_voice_key_fraction, YM_set_voice_key_fraction,
    YM_get_voice_phase_modulation_sensitivity,
    YM_set_voice_phase_modulation_sensitivity.
  repeat apply conj; intros; rewrite Hguard; cbv zeta; use_offsets Hvo Hoo; round_trip Hlaw Hb.
Qed.

(** X13.  For an existing voice and operator, each operator field written
    by its mutator is what its getter then returns, for every value that
    fits the field: phase multiply, detune 1, total level, attack rate, key
    scaling, amplitude modulation enable, decay rate 2, detune 2, release
    rate and decay 1 level. *)
Theorem operator_fields_round_trip voice op g :
  offsets_ok ->
  Forall field_law [Bits 3 0; Bits 6 4; Bits 6 0; Bits 4 0; Bits 7 6; Bit 7; Bits 7 4] ->
  latch_bytes g ->
  0 <= voice < 8 -> 0 <= op < 4 ->
  (forall v, 0 <= v < 16 -> YM_get_operator_phase_multiply voice op
     (YM_set_operator_phase_multiply voice op v g) = v) /\
  (forall v, 0 <= v < 8 -> YM_get_operator_detune_1 voice op
     (YM_set_operator_detune_1 voice op v g) = v) /\
  (forall v, 0 <= v < 128 -> YM_get_operator_total_level voice op
     (YM_set_operator_total_level voice op v g) = v) /\
  (forall v, 0 <= v < 32 -> YM_get_operator_attack_rate voice op
     (YM_set_operator_attack_rate voice op v g) = v) /\
  (forall v, 0 <= v < 4 -> YM_get_operator_key_scaling voice op
     (YM_set_operator_key_scaling voice op v g) = v) /\
  (forall b, YM_get_operator_ams_enabled voice op
     (YM_set_operator_ams_enabled voice op b g) = Z.b2z b) /\
  (forall v, 0 <= v < 32 -> YM_get_operator_decay_rate_2 voice op
     (YM_set_operator_decay_rate_2 voice op v g) = v) /\
  (forall v, 0 <= v < 4 -> YM_get_operator_detune_2 voice op
     (YM_set_operator_detune_2 voice op v g) = v) /\
  (forall v, 0 <= v < 16 -> YM_get_operator_release_rate voice op
     (YM_set_operator_release_rate voice op v g) = v) /\
  (forall v, 0 <= v < 16 -> YM_get_operator_decay_1_level voice op
     (YM_set_operator_decay_1_level voice op v g) = v).
Proof.
  intros [Hvo Hoo] Hlaw Hb Hvoice Hop.
  assert (Hguard : ((voice <? 8) && (op <? 4)) = true)
    by (apply andb_true_iff; split; apply Z.ltb_lt; lia).
  unfold YM_get_operator_phase_multiply, YM_set_operator_phase_multiply,
    YM_get_operator_detune_1, YM_set_operator_detune_1,
    YM_get_operator_total_level, YM_set_operator_total_level,
    YM_get_operator_attack_rate, YM_set_operator_attack_rate,
    YM_get_operator_key_scaling, YM_set_operator_key_scaling,
    YM_get_operator_ams_enabled, YM_set_operator_ams_enabled,
    YM_get_operator_decay_rate_2, YM_set_operator_decay_rate_2,
    YM_get_operator_detune_2, YM_set_operator_detune_2,
    YM_get_operator_release_rate, YM_set_operator_release_rate,
    YM_get_operator_decay_1_level, YM_set_operator_decay_1_level.
  repeat apply conj; intros; rewrite Hguard; cbv zeta; use_offsets Hvo Hoo; round_trip Hlaw Hb.
Qed.

(** X14.  Each chip-wide field written by its mutator is what its getter
    then returns, for every value that fits the field: modulation depth,
    modulation type, waveform and the two control outputs. *)
Theorem global_fields_round_trip g :
  Forall field_law [Bits 6 0; Bit 7; Bits 1 0; Bit 6] ->
  latch_bytes g ->
  (forall v, 0 <= v < 128 -> YM_get_modulation_depth
     (YM_set_modulation_depth v g) = v) /\
  (forall v, 0 <= v < 2 -> YM_get_modulation_type
     (YM_set_modulation_type v g) = v) /\
  (forall v, 0 <= v < 4 -> YM_get_waveform (YM_set_waveform v g) = v) /\
  (forall b, YM_get_control_output_1 (YM_set_control_output_1 b g) = Z.b2z b) /\
  (forall b, YM_get_control_output_2 (YM_set_control_output_2 b g) = Z.b2z b).
Proof.
  intros Hlaw Hb.
  unfold YM_get_modulation_depth, YM_set_modulation_depth, YM_get_modulation_type,
    YM_set_modulation_type, YM_get_waveform, YM_set_waveform,
    YM_get_control_output_1, YM_set_control_output_1,
    YM_get_control_output_2, YM_set_control_output_2.
  repeat apply conj; intros; cbv zeta; round_trip Hlaw Hb.
Qed.

(** X15.  Writing one field of a voice register leaves the other fields of
    the same register as they were, as their getters report them: connection
    type, self feedback level, left and right enable share a register, note
    and octave share one, and the two modulation sensitivities share one. *)
Theorem voice_fields_keep_neighbours voice g :
  offsets_ok ->
  Forall (fun p => field_frame (fst p) (snd p))
    [(Bits 2 0, Bits 5 3); (Bits 2 0, Bit 6); (Bits 2 0, Bit 7);
     (Bits 5 3, Bits 2 0); (Bits 5 3, Bit 6); (Bits 5 3, Bit 7);
     (Bit 6, Bits 2 0); (Bit 6, Bits 5 3); (Bit 6, Bit 7); (Bit 7, Bits 2 0);
     (Bit 7, Bits 5 3); (Bit 7, Bit 6); (Bits 3 0, Bits 6 4);
     (Bits 6 4, Bits 3 0); (Bits 1 0, Bits 6 4); (Bits 6 4, Bits 2 1)] ->
  latch_bytes g ->
  0 <= voice < 8 ->
  (forall v, 0 <= v < 256 -> YM_get_voice_self_feedback_level voice
     (YM_set_voice_connection_type voice v g) = YM_get_voice_self_feedback_level voice g) /\
  (forall v, 0 <= v < 256 -> YM_get_voice_left_enable voice
     (YM_set_voice_connection_type voice v g) = YM_get_voice_left_enable voice g) /\
  (forall v, 0 <= v < 256 -> YM_get_voice_right_enable voice
     (YM_set_voice_connection_type voice v g) = YM_get_voice_right_enable voice g) /\
  (forall v, 0 <= v < 8 -> YM_get_voice_connection_type voice
     (YM_set_voice_self_feedback_level voice v g) = YM_get_voice_connection_type voice g) /\
  (forall v, 0 <= v < 8 -> YM_get_voice_left_enable voice
     (YM_set_voice_self_feedback_level voice v g) = YM_get_voice_left_enable voice g) /\
  (forall v, 0 <= v < 8 -> YM_get_voice_right_enable voice
     (YM_set_voice_self_feedback_level voice v g) = YM_get_voice_right_enable voice g) /\
  (forall b, YM_get_voice_connection_type voice
     (YM_set_voice_left_enable voice b g) = YM_get_voice_connection_type voice g) /\
  (forall b, YM_get_voice_self_feedback_level voice
     (YM_set_voice_left_enable voice b g) = YM_get_voice_self_feedback_level voice g) /\
  (forall b, YM_get_voice_right_enable voice
     (YM_set_voice_left_enable voice b g) = YM_get_voice_right_enable voice g) /\
  (forall b, YM_get_voice_connection_type voice
     (YM_set_voice_right_enable voice b g) = YM_get_voice_connection_type voice g) /\
  (forall b, YM_get_voice_self_feedback_level voice
     (YM_set_voice_right_enable voice b g) = YM_get_voice_self_feedback_level voice g) /\
  (forall b, YM_get_voice_left_enable voice
     (YM_set_voice_right_enable voice b g) = YM_get_voice_left_enable voice g) /\
  (forall v, 0 <= v < 16 -> YM_get_voice_octave voice
     (YM_set_voice_note voice v g) = YM_get_voice_octave voice g) /\
  (forall v, 0 <= v < 8 -> YM_get_voice_note voice
     (YM_set_voice_octave voice v g) = YM_get_voice_note voice g) /\
  (forall v, 0 <= v < 4 -> YM_get_voice_phase_modulation_sensitivity voice
     (YM_set_voice_amplitude_modulation_sensitivity voice v g) = YM_get_voice_phase_modulation_sensitivity voice g) /\
  (forall v, 0 <= v < 8 -> YM_get_voice_amplitude_modulation_sensitivity voice
     (YM_set_voice_phase_modulation_sensitivity voice v g) = YM_get_voice_amplitude_modulation_sensitivity voice g).
Proof.
  intros [Hvo Hoo] Hfr Hb Hvoice.
  assert (Hguard : (voice <? 8) = true) by (apply Z.ltb_lt; lia).
  unfold YM_get_voice_self_feedback_level, YM_set_voice_connection_type,
    YM_get_voice_left_enable, YM_get_voice_right_enable,
    YM_get_voice_connection_type, YM_set_voice_self_feedback_level,
    YM_set_voice_left_enable, YM_set_voice_right_enable, YM_get_voice_octave,
    YM_set_voice_note, YM_get_voice_note, YM_set_voice_octave,
    YM_get_voice_phase_modulation_sensitivity,
    YM_set_voice_amplitude_modulation_sensitivity,
    YM_get_voice_amplitude_modulation_sensitivity,
    YM_set_voice_phase_modulation_sensitivity.
  repeat apply conj; intros; rewrite Hguard; cbv zeta; use_offsets Hvo Hoo; keep_neighbour Hfr Hb.
Qed.

(** X16.  Writing one field of an operator register leaves the other field
    of the same register as it was, as its getter reports it: phase multiply
    and detune 1, attack rate and key scaling, decay rate 2 and detune 2,
    release rate and decay 1 level, in both directions, and the amplitude
    modulation enable when decay rate 1 is written. *)
Theorem operator_fields_keep_neighbours voice op g :
  offsets_ok ->
  Forall (fun p => field_frame (fst p) (snd p))
    [(Bits 3 0, Bits 6 4); (Bits 6 4, Bits 3 0); (Bits 4 0, Bits 7 6);
     (Bits 7 6, Bits 4 0); (Bits 4 0, Bit 7); (Bits 3 0, Bits 7 4);
     (Bits 7 4, Bits 3 0)] ->
  latch_bytes g ->
  0 <= voice < 8 -> 0 <= op < 4 ->
  (forall v, 0 <= v < 16 -> YM_get_operator_detune_1 voice op
     (YM_set_operator_phase_multiply voice op v g) = YM_get_operator_detune_1 voice op g) /\
  (forall v, 0 <= v < 8 -> YM_get_operator_phase_multiply voice op
     (YM_set_operator_detune_1 voice op v g) = YM_get_operator_phase_multiply voice op g) /\
  (forall v, 0 <= v < 32 -> YM_get_operator_key_scaling voice op
     (YM_set_operator_attack_rate voice op v g) = YM_get_operator_key_scaling voice op g) /\
  (forall v, 0 <= v < 4 -> YM_get_operator_attack_rate voice op
     (YM_set_operator_key_scaling voice op v g) = YM_get_operator_attack_rate voice op g) /\
  (forall v, 0 <= v < 32 -> YM_get_operator_ams_enabled voice op
     (YM_set_operator_decay_rate_1 voice op v g) = YM_get_operator_ams_enabled voice op g) /\
  (forall v, 0 <= v < 32 -> YM_get_operator_detune_2 voice op
     (YM_set_operator_decay_rate_2 voice op v g) = YM_get_operator_detune_2 voice op g) /\
  (forall v, 0 <= v < 4 -> YM_get_operator_decay_rate_2 voice op
     (YM_set_operator_detune_2 voice op v g) = YM_get_operator_decay_rate_2 voice op g) /\
  (forall v, 0 <= v < 16 -> YM_get_operator_decay_1_level voice op
     (YM_set_operator_release_rate voice op v g) = YM_get_operator_decay_1_level voice op g) /\
  (forall v, 0 <= v < 16 -> YM_get_operator_release_rate voice op
     (YM_set_operator_decay_1_level voice op v g) = YM_get_operator_release_rate voice op g).
Proof.
  intros [Hvo Hoo] Hfr Hb Hvoice Hop.
  assert (Hguard : ((voice <? 8) && (op <? 4)) = true)
    by (apply andb_true_iff; split; apply Z.ltb_lt; lia).
  unfold YM_get_operator_detune_1, YM_set_operator_phase_multiply,
    YM_get_operator_phase_multiply, YM_set_operator_detune_1,
    YM_get_operator_key_scaling, YM_set_operator_attack_rate,
    YM_get_operator_attack_rate, YM_set_operator_key_scaling,
    YM_get_operator_ams_enabled, YM_set_operator_decay_rate_1,
    YM_get_operator_detune_2, YM_set_operator_decay_rate_2,
    YM_get_operator_decay_rate_2, YM_set_operator_detune_2,
    YM_get_operator_decay_1_level, YM_set_operator_release_rate,
    YM_get_operator_release_rate, YM_set_operator_decay_1_level.
  repeat apply conj; intros; rewrite Hguard; cbv zeta; use_offsets Hvo Hoo; keep_neighbour Hfr Hb.
Qed.

(** X17.  Writing one chip-wide field leaves the other fields of the same
    register as they were, as their getters report them: modulation depth
    and type share a register, waveform and the two control outputs share
    one. *)
Theorem global_fields_keep_neighbours g :
  Forall (fun p => field_frame (fst p) (snd p))
    [(Bits 6 0, Bit 7); (Bit 7, Bits 6 0); (Bits 1 0, Bit 6);
     (Bits 1 0, Bit 7); (Bit 6, Bits 1 0); (Bit 6, Bit 7); (Bit 7, Bits 1 0);
     (Bit 7, Bit 6)] ->
  latch_bytes g ->
  (forall v, 0 <= v < 128 -> YM_get_modulation_type
     (YM_set_modulation_depth v g) = YM_get_modulation_type g) /\
  (forall v, 0 <= v < 2 -> YM_get_modulation_depth
     (YM_set_modulation_type v g) = YM_get_modulation_depth g) /\
  (forall v, 0 <= v < 4 -> YM_get_control_output_1
     (YM_set_waveform v g) = YM_get_control_output_1 g) /\
  (forall v, 0 <= v < 4 -> YM_get_control_output_2
     (YM_set_waveform v g) = YM_get_control_output_2 g) /\
  (forall b, YM_get_waveform
     (YM_set_control_output_1 b g) = YM_get_waveform g) /\
  (forall b, YM_get_control_output_2
     (YM_set_control_output_1 b g) = YM_get_control_output_2 g) /\
  (forall b, YM_get_waveform
     (YM_set_control_output_2 b g) = YM_get_waveform g) /\
  (forall b, YM_get_control_output_1
     (YM_set_control_output_2 b g) = YM_get_control_output_1 g).
Proof.
  intros Hfr Hb.
  unfold YM_get_modulation_type, YM_set_modulation_depth, YM_get_modulation_depth,
    YM_set_modulation_type, YM_get_control_output_1, YM_set_waveform,
    YM_get_control_output_2, YM_get_waveform, YM_set_control_output_1,
    YM_set_control_output_2.
  repeat apply conj; intros; cbv zeta; keep_neighbour Hfr Hb.
Qed.

(** X18.  Every field mutator changes at most one latch entry, the register
    of its field (for a voice or an operator, the register at the offset of
    the field plus the voice and eight times the operator); it adds nothing
    to the deferred write queue, busy or not, and leaves the held samples
    and the latched address alone. *)
Theorem mutators_touch_one_register voice op v b m1 c1 m2 c2 g :
  (touches_only 8 g (YM_key_on v m1 c1 m2 c2 g)) /\
  (touches_only 24 g (YM_set_lfo_frequency v g)) /\
  (touches_only 25 g (YM_set_modulation_depth v g)) /\
  (touches_only 25 g (YM_set_modulation_type v g)) /\
  (touches_only 27 g (YM_set_waveform v g)) /\
  (touches_only 27 g (YM_set_control_output_1 b g)) /\
  (touches_only 27 g (YM_set_control_output_2 b g)) /\
  (touches_only (u8 (YM_R_L_FB_CONN_OFFSET + voice)) g
     (YM_set_voice_connection_type voice v g)) /\
  (touches_only (u8 (YM_R_L_FB_CONN_OFFSET + voice)) g
     (YM_set_voice_self_feedback_level voice v g)) /\
  (touches_only (u8 (YM_R_L_FB_CONN_OFFSET + voice)) g
     (YM_set_voice_left_enable voice b g)) /\
  (touches_only (u8 (YM_R_L_FB_CONN_OFFSET + voice)) g
     (YM_set_voice_right_enable voice b g)) /\
  (touches_only (u8 (YM_KC_OFFSET + voice)) g (YM_set_voice_note voice v g)) /\
  (touches_only (u8 (YM_KC_OFFSET + voice)) g (YM_set_voice_octave voice v g)) /\
  (touches_only (u8 (YM_KF_OFFSET + voice)) g
     (YM_set_voice_key_fraction voice v g)) /\
  (touches_only (u8 (YM_PMS_AMS_OFFSET + voice)) g
     (YM_set_voice_amplitude_modulation_sensitivity voice v g)) /\
  (touches_only (u8 (YM_PMS_AMS_OFFSET + voice)) g
     (YM_set_voice_phase_modulation_sensitivity voice v g)) /\
  (touches_only (u8 (YM_DT1_MUL_OFFSET + op * 8 + voice)) g
     (YM_set_operator_phase_multiply voice op v g)) /\
  (touches_only (u8 (YM_DT1_MUL_OFFSET + op * 8 + voice)) g
     (YM_set_operator_detune_1 voice op v g)) /\
  (touches_only (u8 (YM_TL_OFFSET + op * 8 + voice)) g
     (YM_set_operator_total_level voice op v g)) /\
  (touches_only (u8 (YM_KS_AR_OFFSET + op * 8 + voice)) g
     (YM_set_operator_attack_rate voice op v g)) /\
  (touches_only (u8 (YM_KS_AR_OFFSET + op * 8 + voice)) g
     (YM_set_operator_key_scaling voice op v g)) /\
  (touches_only (u8 (YM_A_D1R_OFFSET + op * 8 + voice)) g
     (YM_set_operator_decay_rate_1 voice op v g)) /\
  (touches_only (u8 (YM_A_D1R_OFFSET + op * 8 + voice)) g
     (YM_set_operator_ams_enabled voice op b g)) /\
  (touches_only (u8 (YM_DT2_D2R_OFFSET + op * 8 + voice)) g
     (YM_set_operator_decay_rate_2 voice op v g)) /\
  (touches_only (u8 (YM_DT2_D2R_OFFSET + op * 8 + voice)) g
     (YM_set_operator_detune_2 voice op v g)) /\
  (touches_only (u8 (YM_D1L_RR_OFFSET + op * 8 + voice)) g
     (YM_set_operator_release_rate voice op v g)) /\
  (touches_only (u8 (YM_D1L_RR_OFFSET + op * 8 + voice)) g
     (YM_set_operator_decay_1_level voice op v g)).
Proof.
  unfold YM_key_on, YM_set_lfo_frequency, YM_set_modulation_depth,
    YM_set_modulation_type, YM_set_waveform, YM_set_control_output_1,
    YM_set_control_output_2, YM_set_voice_connection_type,
    YM_set_voice_self_feedback_level, YM_set_voice_left_enable,
    YM_set_voice_right_enable, YM_set_voice_note, YM_set_voice_octave,
    YM_set_voice_key_fraction, YM_set_voice_amplitude_modulation_sensitivity,
    YM_set_voice_phase_modulation_sensitivity,
    YM_set_operator_phase_multiply, YM_set_operator_detune_1,
    YM_set_operator_total_level, YM_set_operator_attack_rate,
    YM_set_operator_key_scaling, YM_set_operator_decay_rate_1,
    YM_set_operator_ams_enabled, YM_set_operator_decay_rate_2,
    YM_set_operator_detune_2, YM_set_operator_release_rate,
    YM_set_operator_decay_1_level.
  split; [|split; [|split; [|split; [|split; [|split; [|split; [|split; [|split; [|split; [|split; [|split; [|split; [|split; [|split; [|split; [|split; [|split; [|split; [|split; [|split; [|split; [|split; [|split; [|split; [|split; [|]]]]]]]]]]]]]]]]]]]]]]]]]];
    try (destruct ((voice <? 8) && (op <? 4)));
    try (destruct (voice <? 8));
    first [apply YM_debug_write_touches_only | apply touches_only_refl].
Qed.

(** X19.  [YM_key_on] for a channel below 8 stores in register 8 the channel
    in the low three bits and one bit for each of the four slot flags, 8,
    16, 32 and 64, and [YM_get_last_key_on] returns that byte. *)
Theorem key_on_encodes_channel_and_slots channel m1 c1 m2 c2 g :
  0 <= channel < 8 ->
  YM_get_last_key_on (YM_key_on channel m1 c1 m2 c2 g) =
    channel + 8 * Z.b2z m1 + 16 * Z.b2z c1 + 32 * Z.b2z m2 + 64 * Z.b2z c2.
Proof.
  intros Hc. unfold YM_get_last_key_on, YM_key_on, YM_debug_write. cbn [Ym_registers].
  assert (Hcases : channel = 0 \/ channel = 1 \/ channel = 2 \/ channel = 3 \/
                   channel = 4 \/ channel = 5 \/ channel = 6 \/ channel = 7) by lia.
  destruct Hcases as [-> | [-> | [-> | [-> | [-> | [-> | [-> | ->]]]]]]];
    destruct m1, c1, m2, c2; reflexivity.
Qed.

End AccessorProperties.

(** ** The accessors on the small header *)

Lemma in_below n x : 0 <= x < n -> In x (below n).
Proof.
  intros Hx. unfold below. apply in_map_iff. exists (Z.to_nat x).
  split; [lia | apply in_seq; lia].
Qed.

Lemma field_law_checked f : field_law_check f = true -> @field_law toy_header f.
Proof.
  intros Hc src v Hs Hv. apply Z.eqb_eq.
  unfold field_law_check in Hc. rewrite forallb_forall in Hc.
  specialize (Hc src (in_below 256 src Hs)). rewrite forallb_forall in Hc.
  apply Hc, in_below, Hv.
Qed.

Lemma field_frame_checked f f' :
  field_frame_check (f, f') = true -> @field_frame toy_header f f'.
Proof.
  intros Hc src v Hs Hv. apply Z.eqb_eq.
  unfold field_frame_check in Hc. rewrite forallb_forall in Hc.
  specialize (Hc src (in_below 256 src Hs)). rewrite forallb_forall in Hc.
  apply Hc, in_below, Hv.
Qed.

Ltac check_laws :=
  repeat constructor;
  first [ apply field_law_checked | apply field_frame_checked ];
  vm_compute; reflexivity.

Lemma toy_offsets_ok : @offsets_ok toy_header.
Proof. split; repeat constructor; cbn; lia. Qed.

Lemma u8_range' x : 0 <= u8 x < 256.
Proof. unfold u8. apply Z.mod_pos_bound. lia. Qed.

Lemma latch_bytes_debug_write {E : ToneEngine} addr v (g : ym_globals) :
  latch_bytes g -> 0 <= v < 256 -> latch_bytes (YM_debug_write addr v g).
Proof.
  intros Hb Hv a. unfold YM_debug_write. cbn [Ym_registers].
  destruct (a =? addr); [exact Hv | apply Hb].
Qed.

Lemma toy_latch_bytes : @latch_bytes toy_engine toy_new.
Proof. intros a. cbn. lia. Qed.

(** Note 11 of voice 3 and its left enable, written and read back. *)
Lemma voice_fields_round_trip_witness :
  YM_get_voice_note (H:=toy_header) 3 (YM_set_voice_note (H:=toy_header) 3 11 toy_new) = 11 /\
  YM_get_voice_left_enable (H:=toy_header) 3
    (YM_set_voice_left_enable (H:=toy_header) 3 true toy_new) = 1.
Proof.
  destruct (@voice_fields_round_trip toy_engine toy_header 3 toy_new toy_offsets_ok
              ltac:(check_laws) toy_latch_bytes ltac:(lia))
    as (_ & _ & L & _ & N & _).
  split; [apply N; lia | apply L].
Defined.

(** Total level 100 and key scaling 3 of operator 2 of voice 7. *)
Lemma operator_fields_round_trip_witness :
  YM_get_operator_total_level (H:=toy_header) 7 2
    (YM_set_operator_total_level (H:=toy_header) 7 2 100 toy_new) = 100 /\
  YM_get_operator_key_scaling (H:=toy_header) 7 2
    (YM_set_operator_key_scaling (H:=toy_header) 7 2 3 toy_new) = 3.
Proof.
  destruct (@operator_fields_round_trip toy_engine toy_header 7 2 toy_new toy_offsets_ok
              ltac:(check_laws) toy_latch_bytes ltac:(lia) ltac:(lia))
    as (_ & _ & T & _ & K & _).
  split; [apply T; lia | apply K; lia].
Defined.

(** Waveform 2 and modulation depth 127. *)
Lemma global_fields_round_trip_witness :
  YM_get_waveform (H:=toy_header) (YM_set_waveform (H:=toy_header) 2 toy_new) = 2 /\
  YM_get_modulation_depth (H:=toy_header)
    (YM_set_modulation_depth (H:=toy_header) 127 toy_new) = 127.
Proof.
  destruct (@global_fields_round_trip toy_engine toy_header toy_new
              ltac:(check_laws) toy_latch_bytes)
    as (D & _ & W & _).
  split; [apply W; lia | apply D; lia].
Defined.

(** The octave of voice 3 survives a new note. *)
Lemma voice_fields_keep_neighbours_witness :
  let g := YM_set_voice_octave (H:=toy_header) 3 5 toy_new in
  YM_get_voice_octave (H:=toy_header) 3 (YM_set_voice_note (H:=toy_header) 3 11 g)
  = YM_get_voice_octave (H:=toy_header) 3 g.
Proof.
  intros g.
  assert (Hb : latch_bytes g).
  { unfold g, YM_set_voice_octave. change (3 <? 8) with true. cbv iota zeta.
    apply latch_bytes_debug_write; [apply toy_latch_bytes | apply u8_range']. }
  destruct (@voice_fields_keep_neighbours toy_engine toy_header 3 g toy_offsets_ok
              ltac:(check_laws) Hb ltac:(lia))
    as (_ & _ & _ & _ & _ & _ & _ & _ & _ & _ & _ & _ & O & _).
  apply O. lia.
Defined.

(** The key scaling of an operator survives a new attack rate. *)
Lemma operator_fields_keep_neighbours_witness :
  YM_get_operator_key_scaling (H:=toy_header) 7 2
    (YM_set_operator_attack_rate (H:=toy_header) 7 2 31 toy_new)
  = YM_get_operator_key_scaling (H:=toy_header) 7 2 toy_new.
Proof.
  destruct (@operator_fields_keep_neighbours toy_engine toy_header 7 2 toy_new
              toy_offsets_ok ltac:(check_laws) toy_latch_bytes ltac:(lia) ltac:(lia))
    as (_ & _ & K & _).
  apply K. lia.
Defined.

(** The control outputs survive a new waveform. *)
Lemma global_fields_keep_neighbours_witness :
  YM_get_control_output_1 (H:=toy_header) (YM_set_waveform (H:=toy_header) 3 toy_new)
  = YM_get_control_output_1 (H:=toy_header) toy_new.
Proof.
  destruct (@global_fields_keep_neighbours toy_engine toy_header toy_new
              ltac:(check_laws) toy_latch_bytes)
    as (_ & _ & W & _).
  apply W. lia.
Defined.

(** Key on for channel 5 with the first and the last slot. *)
Lemma key_on_encodes_channel_and_slots_witness :
  YM_get_last_key_on (YM_key_on 5 true false false true toy_new) = 77.
Proof.
  exact (@key_on_encodes_channel_and_slots toy_engine 5 true false false true toy_new
           ltac:(lia)).
Defined.

(** Where the getter and the mutator of a field do not name the same bits,
    the value written is not the value read: the amplitude modulation
    sensitivity of a voice is written to bits 1..0 and read from bits 2..1, the
    decay rate 1 of an operator is written to bits 4..0 and read from bits
    7..4. *)
Example mismatched_fields :
  YM_get_voice_amplitude_modulation_sensitivity (H:=toy_header) 0
    (YM_set_voice_amplitude_modulation_sensitivity (H:=toy_header) 0 1 toy_new) = 0 /\
  YM_get_operator_decay_rate_1 (H:=toy_header) 0 0
    (YM_set_operator_decay_rate_1 (H:=toy_header) 0 0 5 toy_new) = 0.
Proof. vm_compute. split; reflexivity. Qed.

(** ** The clock model and production on the small engine *)

Lemma toy_quiet_generate : @quiet_generate toy_engine.
Proof. intros n c. reflexivity. Qed.

(** Three samples one by one or three at once: the same counters, and timer
    0, armed for 100 clocks, has expired once either way. *)
Lemma clock_model_counts_total_ticks_witness :
  let s := ymfm_set_busy_end 640 (ymfm_set_timer 0 100 (Ym_interface toy_new)) in
  let s1 := fold_left advance_clocks [Tick; Tick; Tick] s in
  let s2 := fold_left advance_clocks [Ticks 3] s in
  timer 0 s1 = timer 0 s2 /\
  fired 0 (m_trace s1) = fired 0 (m_trace s2) /\
  m_busy_timer s1 = m_busy_timer s2.
Proof.
  intros s.
  refine (@clock_model_counts_total_ticks toy_engine 0 [Tick; Tick; Tick] [Ticks 3] s
            (or_introl eq_refl) (toy_no_rearm 0) toy_no_busy_on_expiry _ _ _ _ eq_refl);
    try (repeat constructor; lia); now vm_compute.
Defined.

(** Five samples out of an empty queue: 320 clocks off a busy window of 640,
    and timer 0, armed for 100 clocks, expires once. *)
Lemma production_advances_clocks_witness :
  let s := ymfm_set_busy_end 640 (ymfm_set_timer 0 100 (Ym_interface toy_new)) in
  m_busy_timer (pregenerate_samples 5 s) = 320 /\
  timer 0 (pregenerate_samples 5 s) = 0 /\
  fired 0 (m_trace (pregenerate_samples 5 s)) = 1%nat.
Proof.
  intros s.
  refine (@production_advances_clocks toy_engine 0 5 s (or_introl eq_refl)
            (toy_no_rearm 0) toy_no_busy_on_expiry toy_quiet_generate eq_refl
            _ _ _ _ _ _); now vm_compute.
Defined.
